(** * PL/Java type coercion and function binding: a shallow embedding

    The development follows the C sources of the bridge:
    - [Array.c]    ([arraySetNull], [arrayIsNull], [createArrayType],
                    [_Array_coerceDatum], [_Array_coerceObject],
                    [_Array_canReplaceType]);
    - [Float.c], [Double.c] (the primitive array coercers);
    - [Function.c] ([Function_parseParameters], [Function_init],
                    [Function_getFunction], [_Function_finalize],
                    [Function_invoke]);
    - [PgObject.c] ([PgObject_free], [PgObject_throwMemberError]);
    - [Tuple.c]    ([sub_timespec]);
    and, on the managed side, the static initializer of
    [ModelConstants.java] with its [checked] reads.

    C integers are [Z] (or [nat] where the engine only ever hands out
    non-negative extents), C strings are [string], the byte array of a null
    bitmap is a [list Z], and [ereport(ERROR, ...)] is the [Raise] case of a
    small error monad. *)

From Stdlib Require Import ZArith Lia Bool Ascii String List.
From Stdlib Require Import Floats.SpecFloat.
From stdpp Require Import base option list gmap strings.

Set Warnings "-register-all,-clear-no-such-hyp".
Local Open Scope string_scope.
Local Open Scope Z_scope.

(** ** Errors and the error monad *)

(** The messages of the [ERRCODE_SYNTAX_ERROR] reports of [Function.c]. *)
Inductive syntax_msg : Type :=
  | TooManyParameters (expected : nat)
  | TooFewParameters (expected : nat)
  | CannotReplaceDefault (jtName replName : string)
  | ExpectedCommaOrParen
  | BadAsClause
  | ExtraneousCharacters (methodName : string)
  | TriggerParamDecl.

(** What ends a call early: the [ereport(ERROR, ...)] and [elog(ERROR, ...)]
    of the sources, the errors of the collaborators, the [longjmp] that
    continues an unwind already in progress, and behaviour that C leaves
    undefined (a read outside an object, a use after [pfree], a missing
    return value). *)
Inductive error : Type :=
  | SyntaxError (m : syntax_msg)
  | InternalError (msg : string)
  | MemberError (memberName signature : string) (isMethod isStatic : bool)
  | CacheLookupFailed (tupleType : string) (tupleId : Z)
  | ElogError (msg : string)
  | RegistryError (msg : string)
  | JavaException (className : string)
  | Unwind
  | Undefined (what : string).

Inductive result (A : Type) : Type :=
  | Ok (a : A)
  | Raise (e : error).
Arguments Ok {A} a.
Arguments Raise {A} e.

#[global] Instance result_ret : MRet result := fun _ a => Ok a.
#[global] Instance result_bind : MBind result := fun _ _ f m =>
  match m with
  | Ok a => f a
  | Raise e => Raise e
  end.

Definition is_Ok {A} (r : result A) : bool :=
  match r with Ok _ => true | Raise _ => false end.

(** ** Null bitmaps ([Array.c]) *)

(** [bits8] is [unsigned char]; the cast [(bits8)x] keeps the low byte. *)
Definition to_bits8 (x : Z) : Z := x mod 256.

(** [bitmap[i]]: a read outside the allocated bytes is undefined in C. *)
Definition byte_at (bitmap : list Z) (i : Z) : result Z :=
  if i <? 0 then Raise (Undefined "bitmap index")
  else match bitmap !! Z.to_nat i with
       | Some b => Ok b
       | None => Raise (Undefined "bitmap index")
       end.

(** [1 << (offset % 8)] with C's truncating [%]; a negative shift count is
    undefined. *)
Definition bit_mask (offset : Z) : result Z :=
  if Z.rem offset 8 <? 0 then Raise (Undefined "shift count")
  else Ok (Z.shiftl 1 (Z.rem offset 8)).

(** [void arraySetNull(bits8* bitmap, int offset, bool flag)]; the result is
    the content of the bitmap after the call ([None] is the null pointer). *)
Definition arraySetNull (bitmap : option (list Z)) (offset : Z) (flag : bool)
  : result (option (list Z)) :=
  match bitmap with
  | None => Ok None
  | Some bm =>
      bitmask ← bit_mask offset;
      b ← byte_at bm (Z.quot offset 8);
      let b' := to_bits8 (if flag then Z.land b (Z.lnot bitmask)
                          else Z.lor b bitmask) in
      Ok (Some (<[Z.to_nat (Z.quot offset 8) := b']> bm))
  end.

(** [bool arrayIsNull(const bits8* bitmap, int offset)]. *)
Definition arrayIsNull (bitmap : option (list Z)) (offset : Z) : result bool :=
  match bitmap with
  | None => Ok false
  | Some bm =>
      bitmask ← bit_mask offset;
      b ← byte_at bm (Z.quot offset 8);
      Ok (Z.land b bitmask =? 0)
  end.

(** ** Native arrays ([ArrayType]) and managed arrays *)

Definition Oid := Z.
Definition InvalidOid : Oid := 0.
Definition BOOLOID : Oid := 16.
Definition INT4OID : Oid := 23.
Definition FLOAT4OID : Oid := 700.
Definition FLOAT8OID : Oid := 701.

(** [jfloat] and [jdouble] values are only ever copied by the coercers, so
    they are kept as IEEE specification values; [NAN] is [<math.h>]'s quiet
    NaN and the integer constant [0] converts to positive zero. *)
Definition jfloat := spec_float.
Definition jdouble := spec_float.
Definition NAN : spec_float := S754_nan.
Definition float_of_0 : spec_float := S754_zero false.

(** The engine's array header and payload.  [ARR_NULLBITMAP] is [None]
    exactly when [dataoffset] is 0, which is what [ARR_HASNULL] tests;
    [ARR_DATA] holds the stored (non-null) elements in order. *)
Record ArrayType (A : Type) : Type := mkArrayType {
  ARR_NDIM : nat;
  ARR_DIMS : list nat;
  ARR_LBOUND : list Z;
  ARR_NULLBITMAP : option (list Z);
  ARR_ELEMTYPE : Oid;
  ARR_DATA : list A
}.
Arguments mkArrayType {A}.
Arguments ARR_NDIM {A}.
Arguments ARR_DIMS {A}.
Arguments ARR_LBOUND {A}.
Arguments ARR_NULLBITMAP {A}.
Arguments ARR_ELEMTYPE {A}.
Arguments ARR_DATA {A}.

Definition ARR_HASNULL {A} (v : ArrayType A) : bool :=
  match ARR_NULLBITMAP v with Some _ => true | None => false end.

(** [ArrayGetNItems(ndim, dims)] of the engine: the product of the first
    [ndim] extents, and 0 for a dimensionless array. *)
Definition ArrayGetNItems (ndim : nat) (dims : list nat) : nat :=
  match ndim with
  | O => O
  | _ => foldr Nat.mul 1%nat (take ndim dims)
  end.

(** [ARR_DIMS(v)[i]]. *)
Definition dim_at {A} (v : ArrayType A) (i : nat) : result nat :=
  match ARR_DIMS v !! i with
  | Some d => Ok d
  | None => Raise (Undefined "ARR_DIMS index")
  end.

(** Objects of the managed runtime, as far as the coercers look into them.
    An object array carries the name of its runtime class ("[[F" for
    [float[][]]); its slots may be null. *)
Inductive jscalar : Type :=
  | J_boolean (b : bool)
  | J_short (z : Z)
  | J_int (z : Z)
  | J_long (z : Z)
  | J_float (f : spec_float)
  | J_double (f : spec_float)
  | J_opaque.

Inductive jobject : Type :=
  | JFloatArray (elems : list jfloat)
  | JDoubleArray (elems : list jdouble)
  | JObjectArray (className : string) (elems : list (option jobject))
  | JObject (className : string) (value : jscalar).

(** [PgObject_getClassName(JNI_getObjectClass(o))]: the runtime class name in
    the runtime's own notation. *)
Definition PgObject_getClassName (o : jobject) : string :=
  match o with
  | JFloatArray _ => "[F"
  | JDoubleArray _ => "[D"
  | JObjectArray c _ => c
  | JObject c _ => c
  end.

(** [csig[i] == c]; the byte after the last character is the terminator. *)
Definition char_is (csig : string) (i : nat) (c : ascii) : bool :=
  match String.get i csig with
  | Some x => Ascii.eqb x c
  | None => false
  end.

(** Modelled from the spec: [JNI_getArrayLength] of [JNICalls.c] (not among
    the sources), one of the calls by which the foreign call interface lets
    the core "inspect managed arrays": the length of an array.  A null
    reference, or an object that is no array, is outside what JNI defines. *)
Definition JNI_getArrayLength (o : option jobject) : result nat :=
  match o with
  | Some (JFloatArray l) => Ok (length l)
  | Some (JDoubleArray l) => Ok (length l)
  | Some (JObjectArray _ l) => Ok (length l)
  | _ => Raise (Undefined "JNI_getArrayLength")
  end.

(** Modelled from the spec: [JNI_getObjectArrayElement] of [JNICalls.c] (not
    among the sources): the slot [i] of an object array.  For an index
    outside the array the managed runtime throws
    [ArrayIndexOutOfBoundsException], the [JavaException] here, and hands
    back the null reference; the exception is then one of the "pending
    foreign exceptions" of the specification, and what a C function that
    does not look for it does next is [unchecked] below. *)
Definition JNI_getObjectArrayElement (o : option jobject) (i : nat)
  : result (option jobject) :=
  match o with
  | Some (JObjectArray _ l) =>
      match l !! i with
      | Some e => Ok e
      | None => Raise (JavaException "java.lang.ArrayIndexOutOfBoundsException")
      end
  | _ => Raise (Undefined "JNI_getObjectArrayElement")
  end.

(** Modelled from the spec: the region copies
    [JNI_get<T>ArrayRegion(a, 0, len, buf)] of [JNICalls.c] (not among the
    sources): the first [len] elements of the array, which the call writes to
    [buf].  A region that reaches past the array makes the managed runtime
    throw [ArrayIndexOutOfBoundsException], the [JavaException] here, with
    nothing written to [buf]; see [unchecked]. *)
Definition region {A} (l : list A) (len : nat) : result (list A) :=
  if (len <=? length l)%nat then Ok (take len l)
  else Raise (JavaException "java.lang.ArrayIndexOutOfBoundsException").

(** A call of a JNI wrapper from a C function that does not look for a
    pending exception afterwards, as the array coercers do not.  When the
    call throws, the function goes on with what the wrapper handed back
    ([null]: the null reference, or nothing copied).  It may run into
    undefined behaviour or into another exception further on; otherwise it
    returns with the exception still pending, and that is its
    [Raise (JavaException ...)] outcome: the value it returns then is not
    kept. *)
Definition unchecked {A B} (call : result A) (null : A) (k : A -> result B)
  : result B :=
  match call with
  | Ok a => k a
  | Raise (JavaException c) =>
      match k null with
      | Ok _ => Raise (JavaException c)
      | Raise e => Raise e
      end
  | Raise e => Raise e
  end.

(** Modelled from the spec: [JNI_getFloatArrayRegion] of [JNICalls.c] (not
    among the sources), from the start of the array; a null reference or an
    object that is no [float[]] is outside what JNI defines. *)
Definition JNI_getFloatArrayRegion (o : option jobject) (len : nat)
  : result (list jfloat) :=
  match o with
  | Some (JFloatArray l) => region l len
  | _ => Raise (Undefined "JNI_getFloatArrayRegion")
  end.

(** Modelled from the spec: [JNI_getDoubleArrayRegion] of [JNICalls.c] (not
    among the sources), likewise for a [double[]]. *)
Definition JNI_getDoubleArrayRegion (o : option jobject) (len : nat)
  : result (list jdouble) :=
  match o with
  | Some (JDoubleArray l) => region l len
  | _ => Raise (Undefined "JNI_getDoubleArrayRegion")
  end.

(** [JNI_set<T>ArrayRegion(a, 0, n, src + start)]: [n] stored elements read
    from the payload, which is undefined when the payload is shorter. *)
Definition payload_region {A} (data : list A) (start n : nat) : result (list A) :=
  if (start + n <=? length data)%nat then Ok (take n (drop start data))
  else Raise (Undefined "payload read").

(** [*(T* )(ARR_DATA_PTR(v) + i * sizeof(T))]. *)
Definition payload_at {A} (data : list A) (i : Z) : result A :=
  if i <? 0 then Raise (Undefined "payload read")
  else match data !! Z.to_nat i with
       | Some x => Ok x
       | None => Raise (Undefined "payload read")
       end.

(** *** The loops shared by the primitive array coercers *)

Section PrimitiveLoops.
Context {A : Type}.

(** The 1-D loop: [elems[idx] = arrayIsNull(bm, idx) ? 0 : *values++]. *)
Fixpoint fill_1d (zero : A) (bm : option (list Z)) (values : list A)
         (idx : nat) (count : nat) : result (list A) :=
  match count with
  | O => Ok []
  | S count' =>
      isnull ← arrayIsNull bm (Z.of_nat idx);
      if isnull : bool then
        rest ← fill_1d zero bm values (S idx) count';
        Ok (zero :: rest)
      else
        match values with
        | [] => Raise (Undefined "payload read")
        | x :: values' =>
            rest ← fill_1d zero bm values' (S idx) count';
            Ok (x :: rest)
        end
  end.

(** The inner loop of the 2-D path with nulls: [nc] counts the elements
    consumed so far, [NaNc] the nulls among them. *)
Fixpoint fill_row (placeholder : A) (bm : option (list Z)) (data : list A)
         (count : nat) (nc NaNc : Z) : result (list A * (Z * Z)) :=
  match count with
  | O => Ok ([], (nc, NaNc))
  | S count' =>
      isnull ← arrayIsNull bm nc;
      if isnull : bool then
        r ← fill_row placeholder bm data count' (nc + 1) (NaNc + 1);
        Ok (placeholder :: r.1, r.2)
      else
        x ← payload_at data (nc - NaNc);
        r ← fill_row placeholder bm data count' (nc + 1) NaNc;
        Ok (x :: r.1, r.2)
  end.

(** The outer loop of the 2-D path with nulls. *)
Fixpoint fill_rows (placeholder : A) (bm : option (list Z)) (data : list A)
         (rows dim2 : nat) (nc NaNc : Z) : result (list (list A)) :=
  match rows with
  | O => Ok []
  | S rows' =>
      r ← fill_row placeholder bm data dim2 nc NaNc;
      rest ← fill_rows placeholder bm data rows' dim2 r.2.1 r.2.2;
      Ok (r.1 :: rest)
  end.

(** The outer loop of the 2-D path without nulls: [nc += dims[1]]. *)
Fixpoint copy_rows (data : list A) (rows dim2 : nat) (nc : nat)
  : result (list (list A)) :=
  match rows with
  | O => Ok []
  | S rows' =>
      r ← payload_region data nc dim2;
      rest ← copy_rows data rows' dim2 (nc + dim2)%nat;
      Ok (r :: rest)
  end.
End PrimitiveLoops.

(** [createArrayType(nElems, elemSize, elemType, withNulls)]: a zeroed 1-D
    array ([palloc0]) with lower bound 1.  The chunk is sized for one
    dimension, which is what the array has: the payload holds exactly
    [nElems] elements. *)
Definition createArrayType {A} (zero : A) (nElems : nat) (elemType : Oid)
           (withNulls : bool) : ArrayType A :=
  {| ARR_NDIM := 1;
     ARR_DIMS := [nElems];
     ARR_LBOUND := [1];
     ARR_NULLBITMAP :=
       if withNulls then Some (replicate ((nElems + 7) / 8)%nat 0) else None;
     ARR_ELEMTYPE := elemType;
     ARR_DATA := replicate nElems zero |}.

(** Modelled from the spec: the layout macros of the engine's arrays
    ([MAXALIGN] of [c.h], [ARR_OVERHEAD_NONULLS] and [ARR_OVERHEAD_WITHNULLS]
    of [utils/array.h]) are not among the sources, and the specification
    leaves the layout to the engine.  They are taken as the engine defines
    them, in bytes, for [sizeof(ArrayType) = 16], [sizeof(int) = 4] and
    [MAXIMUM_ALIGNOF = 8]: the header, then the extents and the lower bounds
    (an [int] each per dimension), then the null bitmap if there is one, and
    the payload at the next multiple of 8. *)
Definition MAXALIGN (len : nat) : nat := ((len + 7) / 8 * 8)%nat.

Definition ARR_OVERHEAD_NONULLS (ndims : nat) : nat :=
  MAXALIGN (16 + 2 * 4 * ndims).

Definition ARR_OVERHEAD_WITHNULLS (ndims nitems : nat) : nat :=
  MAXALIGN (16 + 2 * 4 * ndims + (nitems + 7) / 8).

(** [create2dArrayType(dim1, dim2, elemSize, elemType, withNulls)].  The
    chunk is sized with [dim1] where the macros expect the number of
    dimensions, while the array laid out in it has two: its extents and lower
    bounds end at byte 32, where the bitmap or the payload starts.  With
    fewer than 32 bytes the stores of [ARR_DIMS] and [ARR_LBOUND] leave the
    chunk; otherwise the payload is what is left of the chunk from its start
    on, which may be fewer or more than [dim1 * dim2] elements.  (With a null
    bitmap, for which the sources have no caller, a chunk in which the bitmap
    would share bytes with the payload is no array of this model and is
    raised as well.) *)
Definition create2dArrayType {A} (zero : A) (dim1 dim2 : nat) (elemSize : nat)
           (elemType : Oid) (withNulls : bool) : result (ArrayType A) :=
  let nElems := (dim1 * dim2)%nat in
  let dataoffset :=
    if withNulls then ARR_OVERHEAD_WITHNULLS dim1 nElems else 0%nat in
  let nBytes :=
    (nElems * elemSize
     + (if withNulls then dataoffset else ARR_OVERHEAD_NONULLS dim1))%nat in
  let bitmap := if withNulls then ((nElems + 7) / 8)%nat else 0%nat in
  let data_ptr := if withNulls then dataoffset else ARR_OVERHEAD_NONULLS 2 in
  if (nBytes <? 16 + 2 * 4 * 2)%nat then
    Raise (Undefined "ARR_DIMS and ARR_LBOUND stored past the end of the chunk")
  else if (data_ptr <? 16 + 2 * 4 * 2 + bitmap)%nat then
    Raise (Undefined "null bitmap laid over the payload")
  else
    Ok {| ARR_NDIM := 2;
          ARR_DIMS := [dim1; dim2];
          ARR_LBOUND := [1; 1];
          ARR_NULLBITMAP :=
            if withNulls then Some (replicate bitmap 0) else None;
          ARR_ELEMTYPE := elemType;
          ARR_DATA := replicate ((nBytes - data_ptr) / elemSize)%nat zero |}.

(** Writing [src] into the zeroed payload from the element [start] on; a
    write that reaches past the payload leaves the chunk. *)
Definition set_data {A} (v : ArrayType A) (start : nat) (src : list A)
  : result (ArrayType A) :=
  if (start + length src <=? length (ARR_DATA v))%nat then
    Ok {| ARR_NDIM := ARR_NDIM v;
          ARR_DIMS := ARR_DIMS v;
          ARR_LBOUND := ARR_LBOUND v;
          ARR_NULLBITMAP := ARR_NULLBITMAP v;
          ARR_ELEMTYPE := ARR_ELEMTYPE v;
          ARR_DATA := (take start (ARR_DATA v) ++ src
                       ++ drop (start + length src) (ARR_DATA v))%list |}
  else Raise (Undefined "write past the end of the array's chunk").

(** *** Reading an array with a null bitmap

    The engine's layout, against which the loops are judged: element [k] is
    null when bit [k] of the bitmap is clear, and the stored elements are the
    non-null ones in index order. *)

Definition is_null_at (bm : list Z) (k : nat) : bool :=
  negb (Z.testbit (nth (k / 8)%nat bm 0) (Z.of_nat k mod 8)).

(** The number of stored (non-null) elements among the first [k]. *)
Fixpoint stored_before (bm : list Z) (k : nat) : nat :=
  match k with
  | O => O
  | S k' => (stored_before bm k' + (if is_null_at bm k' then 0 else 1))%nat
  end.

(** Element [k] as the layout defines it, with [placeholder] for a null. *)
Definition element_at {A} (placeholder : A) (bm : list Z) (data : list A)
           (k : nat) : option A :=
  if is_null_at bm k then Some placeholder else data !! stored_before bm k.

(** A bitmap that covers [n] elements and a payload that holds every stored
    one of them. *)
Definition covers {A} (bm : list Z) (data : list A) (n : nat) : Prop :=
  (n <= 8 * length bm)%nat /\ (stored_before bm n <= length data)%nat.

(** *** [Float.c] and [Double.c] *)

Section PrimitiveCopy.
Context {A : Type}.
Variable getRegion : option jobject -> nat -> result (list A).

(** The "copy remaining" loop of the 2-D managed-to-native path:
    row [i] goes to [ARR_DATA_PTR(v) + i*dim2*sizeof(T)]. *)
Fixpoint copy_remaining (arrays : option jobject) (dim2 : nat)
         (i count : nat) (v : ArrayType A) : result (ArrayType A) :=
  match count with
  | O => Ok v
  | S count' =>
      unchecked (JNI_getObjectArrayElement arrays i) None (fun els =>
      unchecked (getRegion els dim2) [] (fun r =>
        v' ← set_data v (i * dim2) r;
        copy_remaining arrays dim2 (S i) count' v'))
  end.
End PrimitiveCopy.

Definition rows_of_floats (rows : list (list jfloat)) : jobject :=
  JObjectArray "[[F" (map (fun r => Some (JFloatArray r)) rows).

Definition rows_of_doubles (rows : list (list jdouble)) : jobject :=
  JObjectArray "[[D" (map (fun r => Some (JDoubleArray r)) rows).

(** [static jvalue _floatArray_coerceDatum(Type self, Datum arg)]. *)
Definition _floatArray_coerceDatum (v : ArrayType jfloat) : result jobject :=
  if negb (ARR_NDIM v =? 2)%nat then
    let nElems := ArrayGetNItems (ARR_NDIM v) (ARR_DIMS v) in
    if ARR_HASNULL v then
      elems ← fill_1d float_of_0 (ARR_NULLBITMAP v) (ARR_DATA v) 0 nElems;
      Ok (JFloatArray elems)
    else
      elems ← payload_region (ARR_DATA v) 0 nElems;
      Ok (JFloatArray elems)
  else
    dim1 ← dim_at v 0;
    dim2 ← dim_at v 1;
    if ARR_HASNULL v then
      rows ← fill_rows NAN (ARR_NULLBITMAP v) (ARR_DATA v) dim1 dim2 0 0;
      Ok (rows_of_floats rows)
    else
      rows ← copy_rows (ARR_DATA v) dim1 dim2 0;
      Ok (rows_of_floats rows).

(** [static Datum _floatArray_coerceObject(Type self, jobject floatArray)];
    [None] is the null reference, and the zero [Datum] on return. *)
Definition _floatArray_coerceObject (floatArray : option jobject)
  : result (option (ArrayType jfloat)) :=
  match floatArray with
  | None => Ok None
  | Some o =>
      let csig := PgObject_getClassName o in
      nElems ← JNI_getArrayLength floatArray;
      if negb (char_is csig 1 "[") then
        let v := createArrayType float_of_0 nElems FLOAT4OID false in
        unchecked (JNI_getFloatArrayRegion floatArray nElems) [] (fun r =>
          v' ← set_data v 0 r;
          Ok (Some v'))
      else if char_is csig 2 "[" then
        Raise (ElogError "Higher dimensional arrays not supported")
      else
        unchecked (JNI_getObjectArrayElement floatArray 0) None (fun arr =>
          d ← match arr with
              | None => Ok (0%nat, 1%nat)
              | Some _ => dim2 ← JNI_getArrayLength arr; Ok (dim2, nElems)
              end;
          let dim2 := d.1 in
          let nElems := d.2 in
          v ← create2dArrayType float_of_0 nElems dim2 4 FLOAT4OID false;
          if (0 <? dim2)%nat then
            unchecked (JNI_getFloatArrayRegion arr dim2) [] (fun r =>
              v0 ← set_data v 0 r;
              v' ← copy_remaining JNI_getFloatArrayRegion floatArray dim2 1
                     (nElems - 1) v0;
              Ok (Some v'))
          else Ok (Some v))
  end.

(** [static jvalue _doubleArray_coerceDatum(Type self, Datum arg)].  In the
    1-D branch with a null bitmap the C function fills the managed array and
    then runs off its end without a [return]: the value handed back is
    indeterminate. *)
Definition _doubleArray_coerceDatum (v : ArrayType jdouble) : result jobject :=
  if negb (ARR_NDIM v =? 2)%nat then
    let nElems := ArrayGetNItems (ARR_NDIM v) (ARR_DIMS v) in
    if ARR_HASNULL v then
      elems ← fill_1d float_of_0 (ARR_NULLBITMAP v) (ARR_DATA v) 0 nElems;
      Raise (Undefined "_doubleArray_coerceDatum: no return statement")
    else
      elems ← payload_region (ARR_DATA v) 0 nElems;
      Ok (JDoubleArray elems)
  else
    dim1 ← dim_at v 0;
    dim2 ← dim_at v 1;
    if ARR_HASNULL v then
      rows ← fill_rows NAN (ARR_NULLBITMAP v) (ARR_DATA v) dim1 dim2 0 0;
      Ok (rows_of_doubles rows)
    else
      rows ← copy_rows (ARR_DATA v) dim1 dim2 0;
      Ok (rows_of_doubles rows).

(** [static Datum _doubleArray_coerceObject(Type self, jobject doubleArray)]. *)
Definition _doubleArray_coerceObject (doubleArray : option jobject)
  : result (option (ArrayType jdouble)) :=
  match doubleArray with
  | None => Ok None
  | Some o =>
      let csig := PgObject_getClassName o in
      nElems ← JNI_getArrayLength doubleArray;
      if negb (char_is csig 1 "[") then
        let v := createArrayType float_of_0 nElems FLOAT8OID false in
        unchecked (JNI_getDoubleArrayRegion doubleArray nElems) [] (fun r =>
          v' ← set_data v 0 r;
          Ok (Some v'))
      else if char_is csig 2 "[" then
        Raise (ElogError "Higher dimensional arrays not supported")
      else
        unchecked (JNI_getObjectArrayElement doubleArray 0) None (fun arr =>
          dim2 ← JNI_getArrayLength arr;
          v ← create2dArrayType float_of_0 nElems dim2 8 FLOAT8OID false;
          unchecked (JNI_getDoubleArrayRegion arr dim2) [] (fun r =>
            v0 ← set_data v 0 r;
            v' ← copy_remaining JNI_getDoubleArrayRegion doubleArray dim2 1
                   (nElems - 1) v0;
            Ok (Some v')))
  end.

(** *** The object array coercers of [Array.c] *)

(** What [_Array_coerceDatum] and [_Array_coerceObject] use of the element
    [Type]: its two coercers (dispatched through [Type_coerceDatum] and
    [Type_coerceObject]), the class name of arrays of its managed class, and
    its type identifier.  [D] is the engine's [Datum] for one element. *)
Record ElemType (D : Type) : Type := mkElemType {
  Type_coerceDatum : D -> result (option jobject);
  Type_coerceObject : jobject -> result D;
  Type_getJavaArrayClassName : string;
  Type_getOid : Oid
}.
Arguments Type_coerceDatum {D}.
Arguments Type_coerceObject {D}.
Arguments Type_getJavaArrayClassName {D}.
Arguments Type_getOid {D}.

Section ObjectArrays.
Context {D : Type}.
Variable datum_0 : D.
Variable elemType : ElemType D.

(** The engine's [construct_md_array(values, nulls, ndims, dims, lbounds,
    elemtype, ...)]. *)
Variable construct_md_array :
  list D -> list bool -> nat -> list nat -> list Z -> Oid -> ArrayType D.

(** The loop of the 1-D path of [_Array_coerceDatum]; [values] advances
    past one stored element per non-null slot. *)
Fixpoint coerce_elems (bm : option (list Z)) (values : list D)
         (idx count : nat) : result (list (option jobject)) :=
  match count with
  | O => Ok []
  | S count' =>
      isnull ← arrayIsNull bm (Z.of_nat idx);
      if isnull : bool then
        rest ← coerce_elems bm values (S idx) count';
        Ok (None :: rest)
      else
        match values with
        | [] => Raise (Undefined "payload read")
        | value :: values' =>
            obj ← Type_coerceDatum elemType value;
            rest ← coerce_elems bm values' (S idx) count';
            Ok (obj :: rest)
        end
  end.

(** [static jvalue _Array_coerceDatum(Type self, Datum arg)].  A 2-D
    argument only logs a warning and hands back the freshly created array,
    all of whose slots are still null. *)
Definition _Array_coerceDatum (v : ArrayType D) : result jobject :=
  let nElems := ArrayGetNItems (ARR_NDIM v) (ARR_DIMS v) in
  let cls := Type_getJavaArrayClassName elemType in
  if negb (ARR_NDIM v =? 2)%nat then
    objs ← coerce_elems (ARR_NULLBITMAP v) (ARR_DATA v) 0 nElems;
    Ok (JObjectArray cls objs)
  else
    Ok (JObjectArray cls (replicate nElems None)).

(** [palloc(size)] as a place for [ints]: storing them where they need more
    than [size] bytes writes outside the chunk. *)
Definition palloc_ints (size : nat) (ints : list Z) : result (list Z) :=
  if (4 * length ints <=? size)%nat then Ok ints
  else Raise (Undefined "ints stored past the end of a palloc chunk").

(** A read through a pointer to an object of a block that has ended. *)
Definition after_its_block {T : Type} (value : T) : result T :=
  Raise (Undefined "object read after its lifetime has ended").

(** One slot of the managed array: [nulls[idx]] and [values[idx]]. *)
Definition coerce_slot (obj : option jobject) : result (D * bool) :=
  match obj with
  | None => Ok (datum_0, true)
  | Some o => d ← Type_coerceObject elemType o; Ok (d, false)
  end.

Fixpoint collect_slots (arr : option jobject) (idx count : nat)
  : result (list (D * bool)) :=
  match count with
  | O => Ok []
  | S count' =>
      unchecked (JNI_getObjectArrayElement arr idx) None (fun obj =>
        s ← coerce_slot obj;
        rest ← collect_slots arr (S idx) count';
        Ok (s :: rest))
  end.

Fixpoint collect_rows (objArray : option jobject) (dim2 : nat)
         (i count : nat) : result (list (D * bool)) :=
  match count with
  | O => Ok []
  | S count' =>
      unchecked (JNI_getObjectArrayElement objArray i) None (fun el =>
        row ← collect_slots el 0 dim2;
        rest ← collect_rows objArray dim2 (S i) count';
        Ok (row ++ rest)%list)
  end.

(** [_Array_coerceObject] up to its call of [construct_md_array]: the number
    of dimensions, the extents, the lower bounds as reading through the
    pointer [lbounds] gives them, and the slots ([values] and [nulls]).  On
    the 2-D path [lbounds] and [dims] point to chunks of [palloc(2)], into
    each of which two ints are stored; on the 1-D path [lbounds] points to
    [lb], a variable of the [else] block, which has ended when
    [construct_md_array] reads it. *)
Definition Array_coerceObject_arguments (objArray : option jobject)
  : result (nat * list nat * result (list Z) * list (D * bool)) :=
  match objArray with
  | None => Raise (Undefined "JNI_getObjectClass")
  | Some o =>
      let csig := PgObject_getClassName o in
      shape ←
        (if char_is csig 1 "[" then
           unchecked (JNI_getObjectArrayElement objArray 0) None (fun firstEl =>
             dim1 ← JNI_getArrayLength objArray;
             dim2 ← JNI_getArrayLength firstEl;
             lbounds ← palloc_ints 2 [1; 1];
             dims ← palloc_ints 2 [Z.of_nat dim1; Z.of_nat dim2];
             Ok (2%nat, dim1, dim2, Ok lbounds, [dim1; dim2]))
         else
           dim1 ← JNI_getArrayLength objArray;
           Ok (1%nat, dim1, 1%nat, after_its_block [1], [dim1]));
      let '(ndims, dim1, dim2, lbounds, dims) := shape in
      let nElems := (dim1 * dim2)%nat in
      slots ←
        (if (dim2 =? 1)%nat then collect_slots objArray 0 nElems
         else collect_rows objArray dim2 0 dim1);
      Ok (ndims, dims, lbounds, slots)
  end.

(** [static Datum _Array_coerceObject(Type self, jobject objArray)]. *)
Definition _Array_coerceObject (objArray : option jobject)
  : result (ArrayType D) :=
  a ← Array_coerceObject_arguments objArray;
  let '(ndims, dims, lbounds, slots) := a in
  lbounds ← lbounds;
  Ok (construct_md_array (map fst slots) (map snd slots)
        ndims dims lbounds (Type_getOid elemType)).

(** Each stored element survives the trip through the element type. *)
Definition elements_round_trip (data : list D) : Prop :=
  forall d, d ∈ data ->
    exists o, Type_coerceDatum elemType d = Ok (Some o)
              /\ Type_coerceObject elemType o = Ok d.

(** What a slot of the managed array gives back for element [k]. *)
Definition slot_for (bm : list Z) (data : list D) (k : nat)
           (ob : option jobject) : Prop :=
  exists d, element_at datum_0 bm data k = Some d
            /\ coerce_slot ob = Ok (d, is_null_at bm k).
End ObjectArrays.

(** ** Type descriptors ([Type_priv.h], the scalar type files, [Array.c]) *)

(** The functions the sources store in the [canReplaceType] slot of a
    [TypeClass]; [slot_Type_canReplaceType] is the slot a class is allocated
    with. *)
Inductive Replacer : Type :=
  | slot_Type_canReplaceType
  | slot_Boolean_canReplace
  | slot_Short_canReplace
  | slot_Integer_canReplace
  | slot_Long_canReplace
  | slot_Float_canReplace
  | slot_Double_canReplace
  | slot_Array_canReplaceType.

(** The [coerceObject] slot, for the scalar classes of the sources. *)
Inductive ObjectCoercer : Type :=
  | slot_Boolean_coerceObject
  | slot_Short_coerceObject
  | slot_Integer_coerceObject
  | slot_Long_coerceObject
  | slot_Float_coerceObject
  | slot_Double_coerceObject
  | slot_no_coerceObject.

(** The [invoke] slot: the primitive classes install their own invoker, every
    other class keeps the one it is allocated with. *)
Inductive Invoker : Type :=
  | slot_boolean_invoke
  | slot_short_invoke
  | slot_int_invoke
  | slot_long_invoke
  | slot_float_invoke
  | slot_double_invoke
  | slot_Type_invoke.

(** [struct TypeClass_]; [tc_addr] stands for the address of the class, which
    is what the C code compares. *)
Record TypeClass_ : Type := mkTypeClass {
  tc_addr : positive;
  tc_name : string;
  JNISignature : string;
  javaTypeName : string;
  canReplaceType : Replacer;
  coerceObject : ObjectCoercer;
  invoke : Invoker
}.

(** [struct Type_]; [t_addr] stands for the address of the descriptor. *)
Inductive Type_ : Type := mkType {
  t_addr : positive;
  m_class : TypeClass_;
  typeId : Oid;
  elementType : option Type_;
  objectType : option Type_
}.

Definition TypeClass_is (a b : TypeClass_) : bool :=
  Pos.eqb (tc_addr a) (tc_addr b).

(** [t == other] on descriptor pointers; [None] is the null pointer. *)
Definition Type_is (t : option Type_) (other : Type_) : bool :=
  match t with
  | Some t' => Pos.eqb (t_addr t') (t_addr other)
  | None => false
  end.

Definition Type_getClass (self : Type_) : TypeClass_ := m_class self.
Definition Type_getElementType (self : Type_) : option Type_ := elementType self.
Definition Type_getObjectType (self : Type_) : option Type_ := objectType self.
Definition Type_getJNISignature (self : Type_) : string := JNISignature (m_class self).
Definition Type_getJavaTypeName (self : Type_) : string := javaTypeName (m_class self).

(** Modelled from the spec: [Type_isPrimitive] of [Type.c], which is not
    among the sources.  "Boxed counterpart (non-null only for primitive
    descriptors)". *)
Definition Type_isPrimitive (self : Type_) : bool :=
  match objectType self with Some _ => true | None => false end.

(** *** The classes and descriptors set up by the type files *)

Definition class_alloc (a : positive) (name sig jname : string) : TypeClass_ :=
  mkTypeClass a name sig jname slot_Type_canReplaceType slot_no_coerceObject
              slot_Type_invoke.

(** [Boolean_initialize] *)
Definition s_BooleanClass : TypeClass_ :=
  mkTypeClass 1 "type.Boolean" "Ljava/lang/Boolean;" "java.lang.Boolean"
              slot_Boolean_canReplace slot_Boolean_coerceObject slot_Type_invoke.
Definition s_booleanClass : TypeClass_ :=
  mkTypeClass 2 "type.boolean" "Z" "boolean"
              slot_Type_canReplaceType slot_Boolean_coerceObject slot_boolean_invoke.
Definition t_Boolean : Type_ := mkType 1 s_BooleanClass BOOLOID None None.
Definition t_boolean : Type_ := mkType 2 s_booleanClass BOOLOID None (Some t_Boolean).

Definition s_shortClass : TypeClass_ :=
  mkTypeClass 4 "type.short" "S" "short"
              slot_Type_canReplaceType slot_Short_coerceObject slot_short_invoke.

(** [Integer_initialize] *)
Definition s_IntegerClass : TypeClass_ :=
  mkTypeClass 5 "type.Integer" "Ljava/lang/Integer;" "java.lang.Integer"
              slot_Integer_canReplace slot_Integer_coerceObject slot_Type_invoke.
Definition s_intClass : TypeClass_ :=
  mkTypeClass 6 "type.int" "I" "int"
              slot_Type_canReplaceType slot_Integer_coerceObject slot_int_invoke.
Definition t_Integer : Type_ := mkType 5 s_IntegerClass INT4OID None None.
Definition t_int : Type_ := mkType 6 s_intClass INT4OID None (Some t_Integer).

Definition s_longClass : TypeClass_ :=
  mkTypeClass 12 "type.long" "J" "long"
              slot_Type_canReplaceType slot_Long_coerceObject slot_long_invoke.

Definition s_floatClass : TypeClass_ :=
  mkTypeClass 8 "type.float" "F" "float"
              slot_Type_canReplaceType slot_Float_coerceObject slot_float_invoke.

(** [Double_initialize] *)
Definition s_DoubleClass : TypeClass_ :=
  mkTypeClass 9 "type.Double" "Ljava/lang/Double;" "java.lang.Double"
              slot_Double_canReplace slot_Double_coerceObject slot_Type_invoke.
Definition s_doubleClass : TypeClass_ :=
  mkTypeClass 10 "type.double" "D" "double"
              slot_Type_canReplaceType slot_Double_coerceObject slot_double_invoke.
Definition t_Double : Type_ := mkType 9 s_DoubleClass FLOAT8OID None None.
Definition t_double : Type_ := mkType 10 s_doubleClass FLOAT8OID None (Some t_Double).

(** *** Replacement *)

(** [_Double_canReplace] and its five siblings differ only in the static
    class variable they compare with. *)
Definition boxed_canReplace (s_primClass : TypeClass_) (self other : Type_) : bool :=
  let cls := Type_getClass other in
  TypeClass_is (Type_getClass self) cls || TypeClass_is cls s_primClass.

Definition _Boolean_canReplace := boxed_canReplace s_booleanClass.
Definition _Short_canReplace := boxed_canReplace s_shortClass.
Definition _Integer_canReplace := boxed_canReplace s_intClass.
Definition _Long_canReplace := boxed_canReplace s_longClass.
Definition _Float_canReplace := boxed_canReplace s_floatClass.
Definition _Double_canReplace := boxed_canReplace s_doubleClass.

(** Modelled from the spec: the replacement test a class is allocated with
    ([Type.c] is not among the sources).  "A boxed type may replace its
    primitive only in the boxed to primitive direction": a class without a
    test of its own accepts a descriptor of that same class only. *)
Definition _Type_canReplaceType (self other : Type_) : bool :=
  TypeClass_is (Type_getClass self) (Type_getClass other).

(** The body of [_Array_canReplaceType], with the dispatching
    [Type_canReplaceType] it calls on the element types passed in.  A null
    element type of [self] would be dereferenced by that call. *)
Definition Array_canReplaceType_body
           (Type_canReplaceType : Type_ -> Type_ -> result bool)
           (self other : Type_) : result bool :=
  match Type_getElementType other with
  | None => Ok false
  | Some oe =>
      match Type_getElementType self with
      | None => Raise (Undefined "null element type")
      | Some se =>
          r ← Type_canReplaceType se oe;
          if r : bool then Ok true
          else Ok (Type_is (Type_getObjectType self) other)
      end
  end.

(** Modelled from the spec: [Type_canReplaceType] of [Type.c] (not among the
    sources) dispatches through the [canReplaceType] slot of the class of
    [self] ("polymorphic dispatch via function-pointer struct fields"). *)
Fixpoint Type_canReplaceType (self other : Type_) {struct self} : result bool :=
  match canReplaceType (m_class self) with
  | slot_Type_canReplaceType => Ok (_Type_canReplaceType self other)
  | slot_Boolean_canReplace => Ok (_Boolean_canReplace self other)
  | slot_Short_canReplace => Ok (_Short_canReplace self other)
  | slot_Integer_canReplace => Ok (_Integer_canReplace self other)
  | slot_Long_canReplace => Ok (_Long_canReplace self other)
  | slot_Float_canReplace => Ok (_Float_canReplace self other)
  | slot_Double_canReplace => Ok (_Double_canReplace self other)
  | slot_Array_canReplaceType =>
      Array_canReplaceType_body Type_canReplaceType self other
  end.

(** [static bool _Array_canReplaceType(Type self, Type other)]. *)
Definition _Array_canReplaceType (self other : Type_) : result bool :=
  Array_canReplaceType_body Type_canReplaceType self other.

(** [Array_fromOid2(typeId, elementType, coerceDatum, coerceObject)], with
    [a] the first free address; [Array_fromOid] is the same function with the
    object coercers.  The boxed array is built when native arrays are
    disabled and the element type is primitive. *)
Fixpoint Array_fromOid2 (plJavaNativeArraysEnabled : bool) (a : positive)
         (typeId : Oid) (elemType : Type_) {struct elemType} : Type_ :=
  let elemClass := Type_getClass elemType in
  let arrayClass :=
    mkTypeClass a (tc_name elemClass ++ "[]")
                ("[" ++ JNISignature elemClass)
                (javaTypeName elemClass ++ "[]")
                slot_Array_canReplaceType slot_no_coerceObject slot_Type_invoke in
  mkType a arrayClass typeId (Some elemType)
         (match objectType elemType with
          | Some boxed =>
              if plJavaNativeArraysEnabled then None
              else Some (Array_fromOid2 plJavaNativeArraysEnabled (Pos.succ a)
                                        typeId boxed)
          | None => None
          end).

(** The claim's reading of the array rule, word for word: the element types
    are replaceable in both directions, or the candidate is the declared
    type's boxed-array counterpart. *)
Definition spec_array_canReplace (candidate declared : Type_) : Prop :=
  (exists ce de,
      Type_getElementType candidate = Some ce
      /\ Type_getElementType declared = Some de
      /\ Type_canReplaceType ce de = Ok true
      /\ Type_canReplaceType de ce = Ok true)
  \/ Type_is (Type_getObjectType declared) candidate = true.

(** [int[]] and [Integer[]] as [Array_fromOid2] builds them for the array
    type 1007 with native arrays disabled. *)
Definition t_intArray : Type_ := Array_fromOid2 false 100 1007 t_int.
Definition t_IntegerArray : Type_ :=
  match objectType t_intArray with Some t => t | None => t_intArray end.

(** Every array class on the way down the element types has an element
    type, as [Array_fromOid2] leaves it. *)
Fixpoint arrays_have_elements (t : Type_) : bool :=
  match canReplaceType (m_class t) with
  | slot_Array_canReplaceType =>
      match elementType t with
      | Some e => arrays_have_elements e
      | None => false
      end
  | _ => true
  end.

(** *** Sample arrays *)

Definition f_1 : spec_float := S754_finite false 1 0.
Definition f_2 : spec_float := S754_finite false 1 1.

(** The 1-D array {1, NULL, 2}: bits 0 and 2 of the bitmap are set. *)
Definition float_1d_with_null : ArrayType jfloat :=
  mkArrayType 1 [3%nat] [1] (Some [5]) FLOAT4OID [f_1; f_2].

Definition double_1d_with_null : ArrayType jdouble :=
  mkArrayType 1 [3%nat] [1] (Some [5]) FLOAT8OID [f_1; f_2].

(** The 3-D array {{{1, 2}}}. *)
Definition float_3d : ArrayType jfloat :=
  mkArrayType 3 [1%nat; 1%nat; 2%nat] [1; 1; 1] None FLOAT4OID [f_1; f_2].

(** The 2-D array {{1, NULL}, {2, 1}}. *)
Definition float_2d_with_null : ArrayType jfloat :=
  mkArrayType 2 [2%nat; 2%nat] [1; 1] (Some [13]) FLOAT4OID [f_1; f_2; f_1].

(** ** The function binder ([Function.c]) *)

(** *** What the binder consumes from its collaborators *)

(** The columns of [pg_proc] and [pg_type] that [Function_init] reads. *)
Record Form_pg_proc : Type := mkProc {
  prosrc : string;
  pronamespace : Oid;
  pronargs : nat;
  prorettype : Oid;
  proretset : bool;
  proargtypes : list Oid
}.

Record Form_pg_type : Type := mkPgType {
  typtype : ascii
}.

(** A call into the managed runtime either returns or leaves an exception
    pending; [elogErrorOccured] tells whether a non-local unwind of the
    engine is already in progress. *)
Inductive java_call (A : Type) : Type :=
  | Returned (a : A)
  | Threw (elogErrorOccured : bool).
Arguments Returned {A} a.
Arguments Threw {A} elogErrorOccured.

Definition jclass := positive.
Definition jmethodID := positive.

(** The [jvalue] union by the member written: a primitive member, the
    reference member [l], or the widest member [j] as [Function_invoke] writes
    it for a null argument (every member then reads as zero). *)
Inductive jvalue : Type :=
  | JV_scalar (v : jscalar)
  | JV_l (o : option jobject)
  | JV_j (z : Z).

(** The engine's [Datum], by the macro that makes it; [Datum_0] is the word
    0 handed back for "no value". *)
Inductive Datum : Type :=
  | Datum_0
  | BoolGetDatum (b : bool)
  | Int16GetDatum (z : Z)
  | Int32GetDatum (z : Z)
  | Int64GetDatum (z : Z)
  | Float4GetDatum (f : spec_float)
  | Float8GetDatum (f : spec_float)
  | PointerGetDatum (p : Z).

(** The catalog, the type registry of [Type.c] and the managed runtime, none
    of which is part of the sources. *)
Record Env : Type := mkEnv {
  pg_proc : Oid -> option Form_pg_proc;
  pg_namespace : Oid -> option string;
  pg_type : Oid -> option Form_pg_type;
  registry_fromJavaType : Oid -> string -> option Type_;
  registry_fromOid : Oid -> option Type_;
  registry_fromPgType : Oid -> Form_pg_type -> option Type_;
  Loader_getSchemaLoader : string -> java_call positive;
  ClassLoader_loadClass : positive -> string -> java_call jclass;
  GetStaticMethodID : jclass -> string -> string -> option jmethodID;
  CallStaticMethodA : jclass -> jmethodID -> list jvalue -> java_call jvalue;
  Type_coerceDatum_arg : Type_ -> Datum -> result jvalue
}.

(** [Type_fromJavaType], [Type_fromOid] and [Type_fromPgType] hand back the
    registered descriptor or raise the registry's own error. *)
Definition registry_result {A} (what : string) (r : option A) : result A :=
  match r with
  | Some a => Ok a
  | None => Raise (RegistryError what)
  end.

Definition Type_fromJavaType (E : Env) (typeId : Oid) (javaTypeName : string)
  : result Type_ :=
  registry_result javaTypeName (registry_fromJavaType E typeId javaTypeName).

Definition Type_fromOid (E : Env) (typeId : Oid) : result Type_ :=
  registry_result "Type_fromOid" (registry_fromOid E typeId).

Definition Type_fromPgType (E : Env) (typeId : Oid) (pgType : Form_pg_type)
  : result Type_ :=
  registry_result "Type_fromPgType" (registry_fromPgType E typeId pgType).

(** [PgObject_getValidTuple(cacheId, tupleId, tupleType)]. *)
Definition PgObject_getValidTuple {A} (cache : Oid -> option A) (tupleId : Oid)
           (tupleType : string) : result A :=
  match cache tupleId with
  | Some tuple => Ok tuple
  | None => Raise (CacheLookupFailed tupleType tupleId)
  end.

(** [PgObject_throwMemberError(memberName, signature, isMethod, isStatic)]. *)
Definition PgObject_throwMemberError {A} (memberName signature : string)
           (isMethod isStatic : bool) : result A :=
  Raise (MemberError memberName signature isMethod isStatic).

(** The check that follows each call into the runtime in [Function_init]. *)
Definition check_exception {A} (r : java_call A) (msg : string) : result A :=
  match r with
  | Returned a => Ok a
  | Threw true => Raise Unwind
  | Threw false => Raise (InternalError msg)
  end.

(** *** [struct Function_] *)

Record Function_ : Type := mkFunction {
  returnComplex : bool;
  numParams : nat;
  paramTypes : option (list Type_);
  returnType : option Type_;
  clazz : option jclass;
  method : option jmethodID
}.

(** [PgObjectClass_allocInstance] hands out zeroed memory. *)
Definition Function_zero : Function_ :=
  mkFunction false 0 None None None None.

Definition set_returnComplex (b : bool) (f : Function_) : Function_ :=
  mkFunction b (numParams f) (paramTypes f) (returnType f) (clazz f) (method f).
Definition set_numParams (n : nat) (f : Function_) : Function_ :=
  mkFunction (returnComplex f) n (paramTypes f) (returnType f) (clazz f) (method f).
Definition set_paramTypes (p : option (list Type_)) (f : Function_) : Function_ :=
  mkFunction (returnComplex f) (numParams f) p (returnType f) (clazz f) (method f).
Definition set_returnType (t : option Type_) (f : Function_) : Function_ :=
  mkFunction (returnComplex f) (numParams f) (paramTypes f) t (clazz f) (method f).
Definition set_clazz (c : option jclass) (f : Function_) : Function_ :=
  mkFunction (returnComplex f) (numParams f) (paramTypes f) (returnType f) c (method f).
Definition set_method (m : option jmethodID) (f : Function_) : Function_ :=
  mkFunction (returnComplex f) (numParams f) (paramTypes f) (returnType f) (clazz f) m.

(** [self->paramTypes[idx]]. *)
Definition param_at (self : Function_) (idx : nat) : result Type_ :=
  match paramTypes self with
  | None => Raise (Undefined "null paramTypes")
  | Some types =>
      match types !! idx with
      | Some t => Ok t
      | None => Raise (Undefined "paramTypes index")
      end
  end.

(** [Type_getJNISignature] of a possibly null descriptor. *)
Definition signature_of (t : option Type_) : result string :=
  match t with
  | Some t' => Ok (Type_getJNISignature t')
  | None => Raise (Undefined "null Type")
  end.

(** [static void Function_buildSignature(Function self, StringInfoData* sign,
    Type retType)]: the first [numParams] entries of [paramTypes] between
    parentheses, then the return type. *)
Definition Function_buildSignature (self : Function_) (retType : option Type_)
  : result string :=
  params ← match paramTypes self with
           | Some types =>
               if (numParams self <=? length types)%nat
               then Ok (take (numParams self) types)
               else Raise (Undefined "paramTypes index")
           | None =>
               if (numParams self =? 0)%nat then Ok []
               else Raise (Undefined "null paramTypes")
           end;
  ret ← signature_of retType;
  Ok ("(" ++ String.concat "" (map Type_getJNISignature params) ++ ")" ++ ret).

(** *** [Function_parseParameters] *)

Definition isspace (c : ascii) : bool :=
  let n := nat_of_ascii c in
  ((n =? 32) || ((9 <=? n) && (n <=? 13)))%nat.

Definition isalnum (c : ascii) : bool :=
  let n := nat_of_ascii c in
  (((48 <=? n) && (n <=? 57)) || ((65 <=? n) && (n <=? 90))
   || ((97 <=? n) && (n <=? 122)))%nat.

Definition is_char (x : ascii) (c : ascii) : bool := Ascii.eqb c x.

(** The body of the [if(c == ',' || c == ')')] branch up to [++idx]: the
    declared name in [sign] against the default at [idx]. *)
Definition replace_default (E : Env) (self : Function_) (dfltIds : list Oid)
           (idx : nat) (sign : string) : result Function_ :=
  deflt ← param_at self idx;
  let jtName := Type_getJavaTypeName deflt in
  if String.eqb jtName sign then Ok self
  else
    did ← (if returnComplex self && (idx =? numParams self - 1)%nat
           then Ok InvalidOid
           else match dfltIds !! idx with
                | Some d => Ok d
                | None => Raise (Undefined "dfltIds index")
                end);
    repl ← Type_fromJavaType E did sign;
    ok ← Type_canReplaceType repl deflt;
    if ok : bool then
      Ok (set_paramTypes (option_map (fun types => <[idx := repl]> types)
                                     (paramTypes self)) self)
    else
      Raise (SyntaxError (CannotReplaceDefault jtName (Type_getJavaTypeName repl))).

(** The [for(;;)] loop, one character of [paramDecl] per step.  Running out
    of characters before a [')'] is the case the C comment warns about: the
    terminating NUL is read as one more character of a type name, and the
    loop goes on past the end of the string. *)
Fixpoint parse_loop (E : Env) (dfltIds : list Oid) (top : nat)
         (paramDecl : list ascii) (self : Function_)
         (idx : nat) (spaceSeen : bool) (sign : string) : result Function_ :=
  match paramDecl with
  | [] =>
      if (top <=? idx)%nat then Raise (SyntaxError (TooManyParameters top))
      else if spaceSeen then Raise (SyntaxError ExpectedCommaOrParen)
      else Raise (Undefined "paramDecl without closing parenthesis")
  | c :: rest =>
      if isspace c then
        parse_loop E dfltIds top rest self idx
                   (if (0 <? String.length sign)%nat then true else spaceSeen) sign
      else if (top <=? idx)%nat then
        Raise (SyntaxError (TooManyParameters top))
      else if is_char "," c || is_char ")" c then
        self' ← replace_default E self dfltIds idx sign;
        let idx' := S idx in
        if is_char ")" c then
          if negb (idx' =? top)%nat
          then Raise (SyntaxError (TooFewParameters top))
          else Ok self'
        else parse_loop E dfltIds top rest self' idx' false ""
      else if spaceSeen then
        Raise (SyntaxError ExpectedCommaOrParen)
      else
        parse_loop E dfltIds top rest self idx spaceSeen
                   (sign ++ String c "")
  end.

(** [static void Function_parseParameters(Function self, Oid* dfltIds,
    const char* paramDecl)]; the result is [self] after the call. *)
Definition Function_parseParameters (E : Env) (self : Function_)
           (dfltIds : list Oid) (paramDecl : list ascii) : result Function_ :=
  parse_loop E dfltIds (numParams self) paramDecl self 0 false "".

(** The number of comma-separated entries of a declaration: one more than
    the commas in front of its closing parenthesis. *)
Fixpoint commas_before_close (paramDecl : list ascii) : nat :=
  match paramDecl with
  | [] => O
  | c :: rest =>
      if is_char ")" c then O
      else if is_char "," c then S (commas_before_close rest)
      else commas_before_close rest
  end.

Definition declared_entries (paramDecl : list ascii) : nat :=
  S (commas_before_close paramDecl).

(** *** [Function_init]: scanning the source text *)

(** [*p] for a pointer [p] into the text, by its index. *)
Definition char_at (src : list ascii) (i : Z) : option ascii :=
  if i <? 0 then None else src !! Z.to_nat i.

Definition test_at (p : ascii -> bool) (src : list ascii) (i : Z) : bool :=
  match char_at src i with
  | Some c => p c
  | None => false
  end.

(** [while(bp < ep && isspace( *bp)) ++bp;] *)
Fixpoint trim_leading (src : list ascii) (bp ep : Z) (fuel : nat) : Z :=
  match fuel with
  | O => bp
  | S fuel' =>
      if (bp <? ep) && test_at isspace src bp
      then trim_leading src (bp + 1) ep fuel'
      else bp
  end.

(** [while(ep > bp && isspace( *(ep-1))) --ep;] *)
Fixpoint trim_trailing (src : list ascii) (bp ep : Z) (fuel : nat) : Z :=
  match fuel with
  | O => ep
  | S fuel' =>
      if (bp <? ep) && test_at isspace src (ep - 1)
      then trim_trailing src bp (ep - 1) fuel'
      else ep
  end.

(** A backward scan over the [n] positions [bp .. bp + n - 1]: the highest
    one whose character satisfies [p], or [bp - 1] when the pointer has run
    below [bp]. *)
Fixpoint scan_back (p : ascii -> bool) (src : list ascii) (bp : Z) (n : nat) : Z :=
  match n with
  | O => bp - 1
  | S n' =>
      if test_at p src (bp + Z.of_nat n') then bp + Z.of_nat n'
      else scan_back p src bp n'
  end.

(** The positions found by the backward scan of [Function_init]. *)
Record scan_result : Type := mkScan {
  scan_bp : Z;
  scan_ip : Z;
  scan_nameEp : Z;
  scan_paramDecl : option Z
}.

(** Lines 223-270: trim, look for a closing parenthesis and its opening one,
    then for the last dot. *)
Definition scan_source (src : list ascii) : result scan_result :=
  let len := Z.of_nat (length src) in
  let bp := trim_leading src 0 len (length src) in
  let ep := trim_trailing src bp len (length src) in
  last ← match char_at src (ep - 1) with
         | Some c => Ok c
         | None => Raise (Undefined "read before the source text")
         end;
  let found :=
    if is_char ")" last then
      let open := scan_back (is_char "(") src bp (Z.to_nat (ep - 1 - bp)) in
      if bp <=? open then
        let ip := scan_back (fun c => negb (isspace c)) src bp
                            (Z.to_nat (open - bp)) in
        (ip, ip + 1, Some (open + 1))
      else (open, ep, None)
    else (ep - 1, ep, None) in
  let '(ip, nameEp, paramDecl) := found in
  let ip := scan_back (is_char ".") src bp (Z.to_nat (ip - bp + 1)) in
  if ip <=? bp then Raise (SyntaxError BadAsClause)
  else Ok (mkScan bp ip nameEp paramDecl).

Definition string_of_chars (l : list ascii) : string :=
  string_of_list_ascii l.

(** Lines 279-289: the class name, with ['.'] replaced by ['/']. *)
Definition class_name (src : list ascii) (sc : scan_result) : string :=
  string_of_chars
    (map (fun c => if is_char "." c then "/"%char else c)
         (take (Z.to_nat (scan_ip sc - scan_bp sc))
               (drop (Z.to_nat (scan_bp sc)) src))).

(** Lines 343-351: [while(bp < nameEp) { c = *bp++; if(!isalnum(c)) break;
    *cp++ = c; }], giving the name and [bp] after the loop. *)
Fixpoint scan_method_name (src : list ascii) (bp nameEp : Z) (fuel : nat)
         (acc : list ascii) : list ascii * Z :=
  match fuel with
  | O => (acc, bp)
  | S fuel' =>
      if bp <? nameEp then
        match char_at src bp with
        | Some c =>
            if isalnum c
            then scan_method_name src (bp + 1) nameEp fuel' (acc ++ [c])
            else (acc, bp + 1)
        | None => (acc, bp + 1)
        end
      else (acc, bp)
  end.

Definition method_name (src : list ascii) (sc : scan_result) : result string :=
  let r := scan_method_name src (scan_ip sc + 1) (scan_nameEp sc)
                            (length src) [] in
  if r.2 <? scan_nameEp sc
  then Raise (SyntaxError (ExtraneousCharacters (string_of_chars r.1)))
  else Ok (string_of_chars r.1).

(** The characters [paramDecl] points at. *)
Definition param_decl_text (src : list ascii) (sc : scan_result)
  : option (list ascii) :=
  option_map (fun i => drop (Z.to_nat i) src) (scan_paramDecl sc).

(** *** [Function_init]: parameter and return types *)

(** The [for(idx = 0; idx < top; ++idx)] loop over the catalog's argument
    types. *)
Fixpoint catalog_params (E : Env) (typeIds : list Oid) (idx count : nat)
  : result (list Type_) :=
  match count with
  | O => Ok []
  | S count' =>
      typeId ← match typeIds !! idx with
               | Some t => Ok t
               | None => Raise (Undefined "proargtypes index")
               end;
      pgType ← PgObject_getValidTuple (pg_type E) typeId "type";
      t ← (if is_char "c" (typtype pgType)
           then Type_fromJavaType E InvalidOid
                                  "org.postgresql.pljava.jdbc.SingleRowReader"
           else Type_fromPgType E typeId pgType);
      rest ← catalog_params E typeIds (S idx) count';
      Ok (t :: rest)
  end.

(** Lines 380-417: the return type of a routine that is not a trigger,
    with the row writer descriptor ([complex]) when the routine returns a
    composite type. *)
Definition Function_init_return (E : Env) (procStruct : Form_pg_proc)
           (self : Function_) : result (option Type_ * Function_) :=
  let self := set_numParams (pronargs procStruct) self in
  let retTypeId := prorettype procStruct in
  if proretset procStruct then
    ret ← Type_fromJavaType E retTypeId
            "org.postgresql.pljava.ResultSetProvider";
    Ok (None, set_returnType (Some ret) self)
  else
    pgType ← PgObject_getValidTuple (pg_type E) retTypeId "type";
    if is_char "c" (typtype pgType) then
      complex ← Type_fromJavaType E retTypeId
                  "org.postgresql.pljava.jdbc.SingleRowWriter";
      ret ← Type_fromOid E BOOLOID;
      Ok (Some complex,
          set_returnComplex true
            (set_numParams (S (numParams self))
               (set_returnType (Some ret) self)))
    else
      ret ← Type_fromPgType E retTypeId pgType;
      Ok (None, set_returnType (Some ret) self).

(** Lines 419-452: the parameter types of a routine that is not a trigger,
    and the explicit declaration when there is one. *)
Definition Function_init_params (E : Env) (procStruct : Form_pg_proc)
           (paramDecl : option (list ascii)) (complex : option Type_)
           (self : Function_) : result Function_ :=
  let top := numParams self in
  if (0 <? top)%nat then
    let typeIds := proargtypes procStruct in
    let top := match complex with Some _ => (top - 1)%nat | None => top end in
    params ← catalog_params E typeIds 0 top;
    let params := match complex with
                  | Some c => (params ++ [c])%list
                  | None => params
                  end in
    let self := set_paramTypes (Some params) self in
    match paramDecl with
    | Some decl => Function_parseParameters E self typeIds decl
    | None => Ok self
    end
  else Ok (set_paramTypes None self).

(** Lines 361-453. *)
Definition Function_init_types (E : Env) (procStruct : Form_pg_proc)
           (isTrigger : bool) (paramDecl : option (list ascii))
           (self : Function_) : result Function_ :=
  if isTrigger then
    match paramDecl with
    | Some _ => Raise (SyntaxError TriggerParamDecl)
    | None =>
        ret ← Type_fromJavaType E InvalidOid "void";
        arg ← Type_fromJavaType E InvalidOid "org.postgresql.pljava.TriggerData";
        Ok (set_paramTypes (Some [arg])
              (set_numParams 1 (set_returnType (Some ret) self)))
    end
  else
    r ← Function_init_return E procStruct self;
    Function_init_params E procStruct paramDecl r.1 r.2.

(** *** [Function_init]: resolving the method *)

(** Lines 455-494, together with the list of the [GetStaticMethodID] lookups
    made, each by method name and signature. *)
Definition Function_init_resolve (E : Env) (methodName : string)
           (self : Function_) : list (string * string) * result Function_ :=
  match Function_buildSignature self (returnType self), clazz self with
  | Raise e, _ => ([], Raise e)
  | Ok _, None => ([], Raise (Undefined "null class"))
  | Ok sign, Some cls =>
      match GetStaticMethodID E cls methodName sign with
      | Some m => ([(methodName, sign)], Ok (set_method (Some m) self))
      | None =>
          let origSign := sign in
          match returnType self with
          | Some rt =>
              if Type_isPrimitive rt then
                let objType := Type_getObjectType rt in
                match Function_buildSignature self objType with
                | Raise e => ([(methodName, origSign)], Raise e)
                | Ok sign' =>
                    ([(methodName, origSign); (methodName, sign')],
                     match GetStaticMethodID E cls methodName sign' with
                     | Some m =>
                         Ok (set_returnType objType (set_method (Some m) self))
                     | None =>
                         PgObject_throwMemberError methodName origSign true true
                     end)
                end
              else
                ([(methodName, origSign)],
                 PgObject_throwMemberError methodName origSign true true)
          | None => ([(methodName, origSign)], Raise (Undefined "null Type"))
          end
      end
  end.

(** [static void Function_init(Function self, JNIEnv* env, Oid functionId,
    bool isTrigger)], from the zeroed [self]. *)
Definition Function_init (E : Env) (functionId : Oid) (isTrigger : bool)
  : result Function_ :=
  procStruct ← PgObject_getValidTuple (pg_proc E) functionId "function";
  let src := list_ascii_of_string (prosrc procStruct) in
  sc ← scan_source src;
  let className := class_name src sc in
  schemaName ← PgObject_getValidTuple (pg_namespace E)
                 (pronamespace procStruct) "namespace";
  loader ← check_exception (Loader_getSchemaLoader E schemaName)
             "Failed to obtain class loader";
  loaded ← check_exception (ClassLoader_loadClass E loader className)
             ("Failed to load class " ++ className);
  let self := set_clazz (Some loaded) (set_returnComplex false Function_zero) in
  methodName ← method_name src sc;
  self ← Function_init_types E procStruct isTrigger (param_decl_text src sc) self;
  (Function_init_resolve E methodName self).2.

(** *** Invocation *)

(** The [coerceObject] functions of the boxed scalar classes: a null
    reference gives zero, any other the value the box holds. *)
Definition unbox (o : jobject) : result jscalar :=
  match o with
  | JObject _ v => Ok v
  | _ => Raise (Undefined "JNI_call<T>Method on an object of another class")
  end.

Definition _Boolean_coerceObject (booleanObj : option jobject) : result Datum :=
  match booleanObj with
  | None => Ok (BoolGetDatum false)
  | Some o =>
      v ← unbox o;
      match v with
      | J_boolean b => Ok (BoolGetDatum b)
      | _ => Raise (Undefined "JNI_callBooleanMethod")
      end
  end.

Definition _Short_coerceObject (shortObj : option jobject) : result Datum :=
  match shortObj with
  | None => Ok (Int16GetDatum 0)
  | Some o =>
      v ← unbox o;
      match v with
      | J_short z => Ok (Int16GetDatum z)
      | _ => Raise (Undefined "JNI_callShortMethod")
      end
  end.

Definition _Integer_coerceObject (intObj : option jobject) : result Datum :=
  match intObj with
  | None => Ok (Int32GetDatum 0)
  | Some o =>
      v ← unbox o;
      match v with
      | J_int z => Ok (Int32GetDatum z)
      | _ => Raise (Undefined "JNI_callIntMethod")
      end
  end.

Definition _Long_coerceObject (longObj : option jobject) : result Datum :=
  match longObj with
  | None => Ok (Int64GetDatum 0)
  | Some o =>
      v ← unbox o;
      match v with
      | J_long z => Ok (Int64GetDatum z)
      | _ => Raise (Undefined "JNI_callLongMethod")
      end
  end.

Definition _Float_coerceObject (floatObj : option jobject) : result Datum :=
  match floatObj with
  | None => Ok (Float4GetDatum float_of_0)
  | Some o =>
      v ← unbox o;
      match v with
      | J_float f => Ok (Float4GetDatum f)
      | _ => Raise (Undefined "JNI_callFloatMethod")
      end
  end.

Definition _Double_coerceObject (doubleObj : option jobject) : result Datum :=
  match doubleObj with
  | None => Ok (Float8GetDatum float_of_0)
  | Some o =>
      v ← unbox o;
      match v with
      | J_double f => Ok (Float8GetDatum f)
      | _ => Raise (Undefined "JNI_callDoubleMethod")
      end
  end.

(** Modelled from the spec: [Type_coerceObject] of [Type.c] (not among the
    sources) dispatches through the [coerceObject] slot of the class. *)
Definition Type_coerceObject_ret (self : Type_) (o : option jobject)
  : result Datum :=
  match coerceObject (m_class self) with
  | slot_Boolean_coerceObject => _Boolean_coerceObject o
  | slot_Short_coerceObject => _Short_coerceObject o
  | slot_Integer_coerceObject => _Integer_coerceObject o
  | slot_Long_coerceObject => _Long_coerceObject o
  | slot_Float_coerceObject => _Float_coerceObject o
  | slot_Double_coerceObject => _Double_coerceObject o
  | slot_no_coerceObject => Raise (Undefined "coerceObject outside the sources")
  end.

(** The [Datum] the primitive invokers ([_int_invoke] and its siblings) make
    of the value the managed method returned. *)
Definition primitive_datum (i : Invoker) (v : jvalue) : result Datum :=
  match i, v with
  | slot_boolean_invoke, JV_scalar (J_boolean b) => Ok (BoolGetDatum b)
  | slot_short_invoke, JV_scalar (J_short z) => Ok (Int16GetDatum z)
  | slot_int_invoke, JV_scalar (J_int z) => Ok (Int32GetDatum z)
  | slot_long_invoke, JV_scalar (J_long z) => Ok (Int64GetDatum z)
  | slot_float_invoke, JV_scalar (J_float f) => Ok (Float4GetDatum f)
  | slot_double_invoke, JV_scalar (J_double f) => Ok (Float8GetDatum f)
  | _, _ => Raise (Undefined "return value of another kind")
  end.

(** Modelled from the spec: [Type_invoke] of [Type.c] (not among the
    sources).  "Dispatch to the resolved callable target with the assembled
    argument list; the return is coerced through the applicable Type
    Descriptor back to a native value"; the null-result flag is "only re-set
    by the coercion layer if the callable legitimately produces no value";
    an exception raised during the call is "propagated to the engine as a
    null/no-result outcome".  The result is the [Datum] and
    [fcinfo->isnull]. *)
Definition Type_invoke (E : Env) (self : Type_) (cls : jclass) (m : jmethodID)
           (args : list jvalue) : result (Datum * bool) :=
  match CallStaticMethodA E cls m args with
  | Threw _ => Ok (Datum_0, true)
  | Returned v =>
      match invoke (m_class self) with
      | slot_Type_invoke =>
          match v with
          | JV_l None => Ok (Datum_0, true)
          | JV_l (Some o) =>
              d ← Type_coerceObject_ret self (Some o); Ok (d, false)
          | _ => Raise (Undefined "return value of another kind")
          end
      | i => d ← primitive_datum i v; Ok (d, false)
      end
  end.

(** The loop of [Function_invoke] over the arguments of the call; [None] is
    an argument the engine marks null. *)
Fixpoint coerce_args (E : Env) (types : list Type_) (fcargs : list (option Datum))
         (idx count : nat) : result (list jvalue) :=
  match count with
  | O => Ok []
  | S count' =>
      type ← match types !! idx with
             | Some t => Ok t
             | None => Raise (Undefined "paramTypes index")
             end;
      arg ← match fcargs !! idx with
            | Some a => Ok a
            | None => Raise (Undefined "fcinfo argument index")
            end;
      v ← match arg with
          | None => Ok (JV_j 0)
          | Some d => Type_coerceDatum_arg E type d
          end;
      rest ← coerce_args E types fcargs (S idx) count';
      Ok (v :: rest)
  end.

(** [Datum Function_invoke(Function self, JNIEnv* env, PG_FUNCTION_ARGS)]. *)
Definition Function_invoke (E : Env) (self : Function_)
           (fcargs : list (option Datum)) : result (Datum * bool) :=
  let types := default [] (paramTypes self) in
  let top := numParams self in
  let top := if returnComplex self then (top - 1)%nat else top in
  args ← coerce_args E types fcargs 0 top;
  invokerType ← (if returnComplex self then
                   match types !! top with
                   | Some t => Ok t
                   | None => Raise (Undefined "paramTypes index")
                   end
                 else match returnType self with
                      | Some t => Ok t
                      | None => Raise (Undefined "null Type")
                      end);
  cls ← match clazz self with
        | Some c => Ok c
        | None => Raise (Undefined "null class")
        end;
  m ← match method self with
      | Some m => Ok m
      | None => Raise (Undefined "null method")
      end;
  Type_invoke E invokerType cls m args.

(** Whether the catalog makes the routine a complex-return one: not
    set-returning, and the return type is of type ['c']. *)
Definition returns_complex (E : Env) (procStruct : Form_pg_proc) : bool :=
  negb (proretset procStruct)
  && match pg_type E (prorettype procStruct) with
     | Some pgType => is_char "c" (typtype pgType)
     | None => false
     end.

(** The number of entries [Function_parseParameters] is run against. *)
Definition expected_entries (E : Env) (procStruct : Form_pg_proc) : nat :=
  (pronargs procStruct + (if returns_complex E procStruct then 1 else 0))%nat.

Definition is_count_error (e : error) : bool :=
  match e with
  | SyntaxError (TooManyParameters _) => true
  | SyntaxError (TooFewParameters _) => true
  | _ => false
  end.

(** *** A sample installation

    Descriptors outside the type files shown (void, the trigger context, the
    row reader and writer, the result-set provider) are given sample
    classes. *)

Definition t_void : Type_ :=
  mkType 20 (class_alloc 20 "type.void" "V" "void") InvalidOid None None.
Definition t_TriggerData : Type_ :=
  mkType 21 (class_alloc 21 "type.TriggerData"
                         "Lorg/postgresql/pljava/TriggerData;"
                         "org.postgresql.pljava.TriggerData")
         InvalidOid None None.
Definition t_SingleRowReader : Type_ :=
  mkType 22 (class_alloc 22 "type.SingleRowReader" "Ljava/sql/ResultSet;"
                         "java.sql.ResultSet")
         InvalidOid None None.
Definition t_SingleRowWriter : Type_ :=
  mkType 23 (class_alloc 23 "type.SingleRowWriter" "Ljava/sql/ResultSet;"
                         "java.sql.ResultSet")
         InvalidOid None None.
Definition t_ResultSetProvider : Type_ :=
  mkType 24 (class_alloc 24 "type.ResultSetProvider"
                         "Lorg/postgresql/pljava/ResultSetProvider;"
                         "org.postgresql.pljava.ResultSetProvider")
         InvalidOid None None.

Definition ROWTYPEOID : Oid := 5000.

Definition sample_fromJavaType (typeId : Oid) (name : string) : option Type_ :=
  if String.eqb name "void" then Some t_void
  else if String.eqb name "org.postgresql.pljava.TriggerData" then Some t_TriggerData
  else if String.eqb name "org.postgresql.pljava.jdbc.SingleRowReader" then Some t_SingleRowReader
  else if String.eqb name "org.postgresql.pljava.jdbc.SingleRowWriter" then Some t_SingleRowWriter
  else if String.eqb name "org.postgresql.pljava.ResultSetProvider" then Some t_ResultSetProvider
  else if String.eqb name "boolean" then Some t_boolean
  else if String.eqb name "java.lang.Boolean" then Some t_Boolean
  else if String.eqb name "int" then Some t_int
  else if String.eqb name "java.lang.Integer" then Some t_Integer
  else if String.eqb name "double" then Some t_double
  else if String.eqb name "java.lang.Double" then Some t_Double
  else None.

Definition sample_fromOid (typeId : Oid) : option Type_ :=
  if typeId =? BOOLOID then Some t_boolean
  else if typeId =? INT4OID then Some t_int
  else if typeId =? FLOAT8OID then Some t_double
  else None.

Definition sample_pg_type (typeId : Oid) : option Form_pg_type :=
  if typeId =? ROWTYPEOID then Some (mkPgType "c")
  else if (typeId =? BOOLOID) || (typeId =? INT4OID) || (typeId =? FLOAT8OID)
       then Some (mkPgType "b")
       else None.

(** The routines of the sample catalog. *)
Definition sample_pg_proc (functionId : Oid) : option Form_pg_proc :=
  if functionId =? 1001 then
    Some (mkProc "pkg.Util.addOne(int)" 2200 1 INT4OID false [INT4OID])
  else if functionId =? 1002 then
    Some (mkProc "pkg.Rows.make(int)" 2200 1 ROWTYPEOID false [INT4OID])
  else if functionId =? 1003 then
    Some (mkProc "pkg.Rows.make(int, java.sql.ResultSet)" 2200 1 ROWTYPEOID
                 false [INT4OID])
  else if functionId =? 1004 then
    Some (mkProc "pkg.Util.addOne(int, int)" 2200 1 INT4OID false [INT4OID])
  else if functionId =? 1005 then
    Some (mkProc " pkg.Util.boxed " 2200 1 INT4OID false [INT4OID])
  else if functionId =? 1006 then
    Some (mkProc "pkg.Util.missing" 2200 1 INT4OID false [INT4OID])
  else if functionId =? 1007 then
    Some (mkProc "pkg.Util.fire" 2200 0 INT4OID false [])
  else if functionId =? 1008 then
    Some (mkProc "pkg.Util.fire(int)" 2200 0 INT4OID false [])
  else None.

Definition sample_loadClass (loader : positive) (name : string)
  : java_call jclass :=
  if String.eqb name "pkg/Util" then Returned 10%positive
  else if String.eqb name "pkg/Rows" then Returned 11%positive
  else Threw false.

(** The static methods of the sample classes:
    [int Util.addOne(int)], [Integer Util.boxed(int)],
    [void Util.fire(TriggerData)], [int Util.fire()] and
    [Boolean Rows.make(int, ResultSet)]. *)
Definition sample_methods (cls : jclass) (name sign : string) : option jmethodID :=
  if Pos.eqb cls 10 && String.eqb name "addOne" && String.eqb sign "(I)I"
  then Some 100%positive
  else if Pos.eqb cls 10 && String.eqb name "boxed"
          && String.eqb sign "(I)Ljava/lang/Integer;"
  then Some 101%positive
  else if Pos.eqb cls 10 && String.eqb name "fire"
          && String.eqb sign "(Lorg/postgresql/pljava/TriggerData;)V"
  then Some 102%positive
  else if Pos.eqb cls 10 && String.eqb name "fire" && String.eqb sign "()I"
  then Some 103%positive
  else if Pos.eqb cls 11 && String.eqb name "make"
          && String.eqb sign "(ILjava/sql/ResultSet;)Ljava/lang/Boolean;"
  then Some 104%positive
  else None.

(** Java's [int] addition wraps at 32 bits. *)
Definition jint_add (a b : Z) : Z :=
  (a + b + 2 ^ 31) mod 2 ^ 32 - 2 ^ 31.

Definition sample_call (cls : jclass) (m : jmethodID) (args : list jvalue)
  : java_call jvalue :=
  match args with
  | [JV_scalar (J_int z)] =>
      if Pos.eqb m 100 then Returned (JV_scalar (J_int (jint_add z 1)))
      else if Pos.eqb m 101
           then Returned (JV_l (Some (JObject "java.lang.Integer"
                                              (J_int (jint_add z 1)))))
           else Threw false
  | _ => Threw false
  end.

(** [_int_coerceDatum]: [result.i = DatumGetInt32(arg)]. *)
Definition sample_coerceDatum (t : Type_) (d : Datum) : result jvalue :=
  match d with
  | Int32GetDatum z => Ok (JV_scalar (J_int z))
  | _ => Raise (Undefined "Datum of another kind")
  end.

Definition sample_env : Env :=
  mkEnv sample_pg_proc
        (fun ns => if ns =? 2200 then Some "public" else None)
        sample_pg_type
        sample_fromJavaType
        sample_fromOid
        (fun typeId _ => sample_fromOid typeId)
        (fun _ => Returned 1%positive)
        sample_loadClass
        sample_methods
        sample_call
        sample_coerceDatum.



(** Binding gets as far as the explicit declaration: the schema's class
    loader is found, the class is loaded, the method name is read and the
    return and parameter types of the catalog are found; [self] is the
    descriptor the declaration is then parsed against. *)
Definition reaches_declaration (E : Env) (procStruct : Form_pg_proc)
           (sc : scan_result) (self : Function_) : Prop :=
  let src := list_ascii_of_string (prosrc procStruct) in
  let className := class_name src sc in
  exists schemaName loader loaded methodName,
    PgObject_getValidTuple (pg_namespace E) (pronamespace procStruct)
                           "namespace" = Ok schemaName
    /\ check_exception (Loader_getSchemaLoader E schemaName)
                       "Failed to obtain class loader" = Ok loader
    /\ check_exception (ClassLoader_loadClass E loader className)
                       ("Failed to load class " ++ className) = Ok loaded
    /\ method_name src sc = Ok methodName
    /\ Function_init_types E procStruct false None
         (set_clazz (Some loaded) (set_returnComplex false Function_zero))
       = Ok self.

(** How the outcome [r] of binding stands to the number of declared entries:
    success needs exactly [expected] entries, and the two count errors report
    [expected] and occur on the matching side only. *)
Definition counts_agree (declared expected : nat) (r : result Function_) : Prop :=
  (forall f, r = Ok f -> declared = expected)
  /\ (forall n, r = Raise (SyntaxError (TooManyParameters n)) ->
        n = expected /\ (expected < declared)%nat)
  /\ (forall n, r = Raise (SyntaxError (TooFewParameters n)) ->
        n = expected /\ (declared < expected)%nat).

(** ** The function cache and the release of descriptors *)

(** The memory the cache works on: the chunks that are allocated, the
    function descriptors by address (each with the address of its
    [paramTypes] array), and [s_funcMap].  A Type descriptor lives in the
    chunk at its [t_addr]. *)
Record Memory : Type := mkMemory {
  chunks : gset positive;
  functions : gmap positive (Function_ * positive);
  s_funcMap : gmap Z positive
}.

Definition set_chunks (c : gset positive) (M : Memory) : Memory :=
  mkMemory c (functions M) (s_funcMap M).

(** [pfree(p)]; freeing what is not allocated is undefined. *)
Definition pfree (p : positive) (M : Memory) : result Memory :=
  if decide (p ∈ chunks M) then Ok (set_chunks (chunks M ∖ {[p]}) M)
  else Raise (Undefined "pfree of a chunk that is not allocated").

(** [void PgObject_free(PgObject object)], with the finalizer found in the
    class of [object]; reading the class of a freed object is undefined. *)
Definition PgObject_free (finalize : option (positive -> Memory -> result Memory))
           (object : positive) (M : Memory) : result Memory :=
  if decide (object ∈ chunks M) then
    M' ← match finalize with
         | Some finalizer => finalizer object M
         | None => Ok M
         end;
    pfree object M'
  else Raise (Undefined "object used after it was freed").

(** The finalizer of the class of a Type descriptor: the type files install
    none on the classes they allocate ([TypeClass_alloc] itself is not among
    the sources). *)
Definition Type_finalize : option (positive -> Memory -> result Memory) := None.

(** [while(tp < ep) PgObject_free((PgObject)*tp++);] *)
Fixpoint free_each (types : list Type_) (M : Memory) : result Memory :=
  match types with
  | [] => Ok M
  | t :: rest =>
      M' ← PgObject_free Type_finalize (t_addr t) M;
      free_each rest M'
  end.

(** [static void _Function_finalize(PgObject self)]. *)
Definition _Function_finalize (self : positive) (M : Memory) : result Memory :=
  match functions M !! self with
  | None => Raise (Undefined "not a Function")
  | Some (f, bp) =>
      match paramTypes f with
      | None => Ok M
      | Some types =>
          if (numParams f <=? length types)%nat then
            M' ← free_each (take (numParams f) types) M;
            pfree bp M'
          else Raise (Undefined "paramTypes index")
      end
  end.

(** [s_FunctionClass] is created with [_Function_finalize]. *)
Definition Function_finalize : option (positive -> Memory -> result Memory) :=
  Some _Function_finalize.

(** [MemoryContextAlloc]: a chunk that was not allocated before. *)
Definition alloc (M : Memory) : positive * Memory :=
  let p := fresh (chunks M) in (p, set_chunks ({[p]} ∪ chunks M) M).

(** [static Function Function_create(JNIEnv* env, Oid functionId, bool
    isTrigger)]: the instance, then inside [Function_init] the parameter
    array when there are parameters. *)
Definition Function_create (E : Env) (functionId : Oid) (isTrigger : bool)
           (M : Memory) : result (positive * Memory) :=
  let (self, M1) := alloc M in
  f ← Function_init E functionId isTrigger;
  let (bp, M2) := match paramTypes f with
                  | Some _ => alloc M1
                  | None => (self, M1)
                  end in
  Ok (self, mkMemory (chunks M2) (<[self := (f, bp)]> (functions M2))
                     (s_funcMap M2)).

(** Modelled from the spec: [HashMap_getByOid] and [HashMap_putByOid] of
    [HashMap.c], which is not among the sources.  "Function Cache: mapping
    from routine identifier to Function Descriptor, insertion-order
    irrelevant, keys unique"; the put hands back the entry it replaces. *)
Definition HashMap_getByOid (M : Memory) (functionId : Oid) : option positive :=
  s_funcMap M !! functionId.

Definition HashMap_putByOid (functionId : Oid) (func : positive) (M : Memory)
  : option positive * Memory :=
  (s_funcMap M !! functionId,
   mkMemory (chunks M) (functions M) (<[functionId := func]> (s_funcMap M))).

(** Lines 510-518 of [Function_getFunction]: the new descriptor goes into
    the map and the entry it replaces, if any, is freed. *)
Definition Function_getFunction_insert (functionId : Oid) (func : positive)
           (M : Memory) : result (positive * Memory) :=
  let (old, M1) := HashMap_putByOid functionId func M in
  match old with
  | Some o => M2 ← PgObject_free Function_finalize o M1; Ok (func, M2)
  | None => Ok (func, M1)
  end.

(** [Function Function_getFunction(JNIEnv* env, Oid functionId, bool
    isTrigger)]. *)
Definition Function_getFunction (E : Env) (functionId : Oid) (isTrigger : bool)
           (M : Memory) : result (positive * Memory) :=
  match HashMap_getByOid M functionId with
  | Some func => Ok (func, M)
  | None =>
      r ← Function_create E functionId isTrigger M;
      Function_getFunction_insert functionId r.1 r.2
  end.

(** Two callers that both miss the lookup on [M] before either has
    inserted: the first creates and inserts, then the second does. *)
Definition racing_creations (E : Env) (functionId : Oid)
           (isTrigger1 isTrigger2 : bool) (M : Memory)
  : result (positive * positive * Memory) :=
  a ← Function_create E functionId isTrigger1 M;
  a' ← Function_getFunction_insert functionId a.1 a.2;
  b ← Function_create E functionId isTrigger2 a'.2;
  b' ← Function_getFunction_insert functionId b.1 b.2;
  Ok (a'.1, b'.1, b'.2).

(** The addresses [_Function_finalize] and [PgObject_free] release for a
    descriptor at [self] with parameter array [types] at [bp]. *)
Definition released (self bp : positive) (types : list Type_) : list positive :=
  (map t_addr types ++ [bp; self])%list.

(** The memory of the sample installation before any routine is bound: the
    registered descriptors are allocated, the cache is empty. *)
Definition sample_memory : Memory :=
  mkMemory (list_to_set (map t_addr
              [t_Boolean; t_boolean; t_Integer; t_int; t_Double; t_double;
               t_void; t_TriggerData; t_SingleRowReader; t_SingleRowWriter;
               t_ResultSetProvider]))
           ∅ ∅.

(** The sample memory once routine 1001 is bound: its descriptor at 25, the
    parameter array at 26. *)
Definition sample_descriptor : Function_ :=
  mkFunction false 1 (Some [t_int]) (Some t_int) (Some 10%positive)
             (Some 100%positive).

Definition sample_memory_bound : Memory :=
  mkMemory ({[25%positive; 26%positive]} ∪ chunks sample_memory)
           {[25%positive := (sample_descriptor, 26%positive)]}
           {[1001 := 25%positive]}.



(** Two descriptors that differ in their parameter types at most. *)
Definition same_but_params (f g : Function_) : Prop :=
  returnComplex f = returnComplex g
  /\ numParams f = numParams g
  /\ returnType f = returnType g
  /\ clazz f = clazz g
  /\ method f = method g.

(** [t] is the default [t0] itself or a declared type that may replace it. *)
Definition kept_or_replaced (t0 t : Type_) : Prop :=
  t = t0 \/ Type_canReplaceType t t0 = Ok true.

(** *** Well-formed declarations

    The reference for the parser: a declaration is a sequence of entries,
    each a type name between optional white space, with a comma after every
    entry but the last and a closing parenthesis after the last. *)

Record decl_entry : Type := mkEntry {
  entry_lead : list ascii;
  entry_name : string;
  entry_trail : list ascii
}.

(** A character of a type name: no white space, no delimiter, no NUL. *)
Definition name_char (c : ascii) : bool :=
  negb (isspace c || is_char "," c || is_char ")" c || is_char "000" c).

Definition entry_ok (e : decl_entry) : Prop :=
  Forall (fun c => isspace c = true) (entry_lead e)
  /\ Forall (fun c => name_char c = true) (list_ascii_of_string (entry_name e))
  /\ Forall (fun c => isspace c = true) (entry_trail e).

Fixpoint render_entries (entries : list decl_entry) : list ascii :=
  match entries with
  | [] => []
  | e :: rest =>
      (entry_lead e ++ list_ascii_of_string (entry_name e) ++ entry_trail e
       ++ (match rest with [] => ")"%char | _ => ","%char end)
       :: render_entries rest)%list
  end.

(** What the parser is to do with the names, one entry after the other:
    the body of the delimiter branch at the positions [idx], [idx + 1], ... *)
Fixpoint replace_defaults (E : Env) (dfltIds : list Oid) (names : list string)
         (idx : nat) (self : Function_) : result Function_ :=
  match names with
  | [] => Ok self
  | name :: rest =>
      self' ← replace_default E self dfltIds idx name;
      replace_defaults E dfltIds rest (S idx) self'
  end.

(** *** A sample element type and array constructor

    [java.lang.Integer] as the element type of an object array:
    [_Integer_coerceDatum] ([Integer.c]) boxes the [int32] of the [Datum],
    [_Integer_coerceObject] unboxes it. *)
Definition _Integer_coerceDatum (arg : Datum) : result (option jobject) :=
  match arg with
  | Int32GetDatum z => Ok (Some (JObject "java.lang.Integer" (J_int z)))
  | _ => Raise (Undefined "Datum of another kind")
  end.

Definition Integer_elemType : ElemType Datum :=
  mkElemType Datum _Integer_coerceDatum
             (fun o => _Integer_coerceObject (Some o))
             "[Ljava.lang.Integer;" INT4OID.


(** The 1-D [int4] array {7, NULL, 9}. *)
Definition Integer_1d_with_null : ArrayType Datum :=
  mkArrayType 1 [3%nat] [1] (Some [5]) INT4OID [Int32GetDatum 7; Int32GetDatum 9].

(** A stand-in for the engine's [construct_md_array] in the examples: the
    header as given, the values of the slots that are not null, and a null
    bitmap (one bit per slot, set for a value) when some slot is null. *)
Fixpoint stored_values {D} (values : list D) (nulls : list bool) : list D :=
  match values, nulls with
  | v :: values', n :: nulls' =>
      if n then stored_values values' nulls'
      else v :: stored_values values' nulls'
  | _, _ => []
  end.

Definition null_byte (nulls : list bool) (k : nat) : Z :=
  foldr (fun j acc =>
           acc + (if nth (8 * k + j)%nat nulls true then 0 else 2 ^ Z.of_nat j))
        0 (seq 0 8).

Definition bitmap_of (nulls : list bool) : option (list Z) :=
  if existsb (fun n => n) nulls
  then Some (map (null_byte nulls) (seq 0 ((length nulls + 7) / 8)%nat))
  else None.

Definition sample_construct_md_array {D} (values : list D) (nulls : list bool)
           (ndims : nat) (dims : list nat) (lbounds : list Z) (elmtype : Oid)
  : ArrayType D :=
  mkArrayType ndims dims lbounds (bitmap_of nulls) elmtype
              (stored_values values nulls).

(** ** The constants read from the native side ([ModelConstants.java])

    The indices into the array of statics, as the class declares them. *)

Definition IDX_PG_VERSION_NUM : Z := 0.
Definition IDX_SIZEOF_DATUM : Z := 1.
Definition IDX_SIZEOF_SIZE : Z := 2.
Definition IDX_ALIGNOF_SHORT : Z := 3.
Definition IDX_ALIGNOF_INT : Z := 4.
Definition IDX_ALIGNOF_DOUBLE : Z := 5.
Definition IDX_MAXIMUM_ALIGNOF : Z := 6.
Definition IDX_NAMEDATALEN : Z := 7.
Definition IDX_SIZEOF_varatt_indirect : Z := 8.
Definition IDX_SIZEOF_varatt_expanded : Z := 9.
Definition IDX_SIZEOF_varatt_external : Z := 10.
Definition IDX_OFFSET_TTS_NVALID : Z := 11.
Definition IDX_SIZEOF_TTS_NVALID : Z := 12.
Definition IDX_TTS_FLAG_EMPTY : Z := 13.
Definition IDX_TTS_FLAG_FIXED : Z := 14.
Definition IDX_OFFSET_TTS_FLAGS : Z := 15.
Definition IDX_OFFSET_TTS_EMPTY : Z := 16.
Definition IDX_OFFSET_TTS_FIXED : Z := 17.
Definition IDX_OFFSET_TTS_TABLEOID : Z := 18.
Definition IDX_SIZEOF_FORM_PG_ATTRIBUTE : Z := 19.
Definition IDX_ATTRIBUTE_FIXED_PART_SIZE : Z := 20.
Definition IDX_CLASS_TUPLE_SIZE : Z := 21.
Definition IDX_HEAPTUPLESIZE : Z := 22.
Definition IDX_OFFSET_TUPLEDESC_ATTRS : Z := 23.
Definition IDX_OFFSET_TUPLEDESC_TDREFCOUNT : Z := 24.
Definition IDX_SIZEOF_TUPLEDESC_TDREFCOUNT : Z := 25.
Definition IDX_OFFSET_TUPLEDESC_TDTYPEID : Z := 26.
Definition IDX_OFFSET_TUPLEDESC_TDTYPMOD : Z := 27.
Definition IDX_OFFSET_pg_attribute_atttypid : Z := 28.
Definition IDX_OFFSET_pg_attribute_attlen : Z := 29.
Definition IDX_OFFSET_pg_attribute_attcacheoff : Z := 30.
Definition IDX_OFFSET_pg_attribute_atttypmod : Z := 31.
Definition IDX_OFFSET_pg_attribute_attbyval : Z := 32.
Definition IDX_OFFSET_pg_attribute_attalign : Z := 33.
Definition IDX_OFFSET_pg_attribute_attnotnull : Z := 34.
Definition IDX_OFFSET_pg_attribute_attisdropped : Z := 35.
Definition IDX_Anum_pg_class_reltype : Z := 36.
Definition IDX_SIZEOF_MCTX : Z := 37.
Definition IDX_OFFSET_MCTX_isReset : Z := 38.
Definition IDX_OFFSET_MCTX_mem_allocated : Z := 39.
Definition IDX_OFFSET_MCTX_parent : Z := 40.
Definition IDX_OFFSET_MCTX_firstchild : Z := 41.
Definition IDX_OFFSET_MCTX_prevchild : Z := 42.
Definition IDX_OFFSET_MCTX_nextchild : Z := 43.
Definition IDX_OFFSET_MCTX_name : Z := 44.
Definition IDX_OFFSET_MCTX_ident : Z := 45.
Definition IDX_ATTNUM : Z := 46.
Definition IDX_AUTHMEMMEMROLE : Z := 47.
Definition IDX_AUTHMEMROLEMEM : Z := 48.
Definition IDX_AUTHOID : Z := 49.
Definition IDX_COLLOID : Z := 50.
Definition IDX_DATABASEOID : Z := 51.
Definition IDX_LANGOID : Z := 52.
Definition IDX_NAMESPACEOID : Z := 53.
Definition IDX_OPEROID : Z := 54.
Definition IDX_PROCOID : Z := 55.
Definition IDX_RELOID : Z := 56.
Definition IDX_TSCONFIGOID : Z := 57.
Definition IDX_TSDICTOID : Z := 58.
Definition IDX_TYPEOID : Z := 59.
Definition IDX_N_ACL_RIGHTS : Z := 60.
Definition IDX_SIZEOF_INT : Z := 61.
Definition IDX_OFFSET_HeapTupleHeaderData_t_infomask : Z := 62.
Definition IDX_OFFSET_HeapTupleHeaderData_t_infomask2 : Z := 63.
Definition IDX_OFFSET_HeapTupleHeaderData_t_hoff : Z := 64.
Definition IDX_OFFSET_HeapTupleHeaderData_t_bits : Z := 65.

(** The indices in the order in which the static initializer reads them: up
    to [NAMEDATALEN], which is narrowed to [short], and after it. *)
Definition statics_before_NAMEDATALEN : list Z :=
  [IDX_PG_VERSION_NUM; IDX_SIZEOF_DATUM; IDX_SIZEOF_SIZE; IDX_ALIGNOF_SHORT;
   IDX_ALIGNOF_INT; IDX_ALIGNOF_DOUBLE; IDX_MAXIMUM_ALIGNOF].

Definition statics_after_NAMEDATALEN : list Z :=
  [IDX_SIZEOF_varatt_indirect; IDX_SIZEOF_varatt_expanded;
   IDX_SIZEOF_varatt_external; IDX_OFFSET_TTS_NVALID;
   IDX_SIZEOF_TTS_NVALID; IDX_TTS_FLAG_EMPTY; IDX_TTS_FLAG_FIXED;
   IDX_OFFSET_TTS_FLAGS; IDX_OFFSET_TTS_EMPTY; IDX_OFFSET_TTS_FIXED;
   IDX_OFFSET_TTS_TABLEOID; IDX_SIZEOF_FORM_PG_ATTRIBUTE;
   IDX_ATTRIBUTE_FIXED_PART_SIZE; IDX_CLASS_TUPLE_SIZE;
   IDX_HEAPTUPLESIZE; IDX_OFFSET_TUPLEDESC_ATTRS;
   IDX_OFFSET_TUPLEDESC_TDREFCOUNT; IDX_SIZEOF_TUPLEDESC_TDREFCOUNT;
   IDX_OFFSET_TUPLEDESC_TDTYPEID; IDX_OFFSET_TUPLEDESC_TDTYPMOD;
   IDX_OFFSET_pg_attribute_atttypid; IDX_OFFSET_pg_attribute_attlen;
   IDX_OFFSET_pg_attribute_attcacheoff;
   IDX_OFFSET_pg_attribute_atttypmod; IDX_OFFSET_pg_attribute_attbyval;
   IDX_OFFSET_pg_attribute_attalign; IDX_OFFSET_pg_attribute_attnotnull;
   IDX_OFFSET_pg_attribute_attisdropped; IDX_Anum_pg_class_reltype;
   IDX_SIZEOF_MCTX; IDX_OFFSET_MCTX_isReset;
   IDX_OFFSET_MCTX_mem_allocated; IDX_OFFSET_MCTX_parent;
   IDX_OFFSET_MCTX_firstchild; IDX_OFFSET_MCTX_prevchild;
   IDX_OFFSET_MCTX_nextchild; IDX_OFFSET_MCTX_name;
   IDX_OFFSET_MCTX_ident; IDX_ATTNUM; IDX_AUTHMEMMEMROLE;
   IDX_AUTHMEMROLEMEM; IDX_AUTHOID; IDX_COLLOID; IDX_DATABASEOID;
   IDX_LANGOID; IDX_NAMESPACEOID; IDX_OPEROID; IDX_PROCOID; IDX_RELOID;
   IDX_TSCONFIGOID; IDX_TSDICTOID; IDX_TYPEOID; IDX_N_ACL_RIGHTS;
   IDX_SIZEOF_INT; IDX_OFFSET_HeapTupleHeaderData_t_infomask;
   IDX_OFFSET_HeapTupleHeaderData_t_infomask2;
   IDX_OFFSET_HeapTupleHeaderData_t_hoff;
   IDX_OFFSET_HeapTupleHeaderData_t_bits].

(** [java.nio.IntBuffer] as the initializer uses it: the ints of the native
    array and the position of the next relative [get]. *)
Record IntBuffer : Type := mkIntBuffer {
  ib_content : list Z;
  ib_position : nat
}.

Definition IntBuffer_remaining (b : IntBuffer) : nat :=
  (length (ib_content b) - ib_position b)%nat.

(** [b.get()]: the int at the position, which it advances. *)
Definition IntBuffer_get (b : IntBuffer) : result (Z * IntBuffer) :=
  match ib_content b !! ib_position b with
  | Some x => Ok (x, mkIntBuffer (ib_content b) (S (ib_position b)))
  | None => Raise (JavaException "java.nio.BufferUnderflowException")
  end.

(** Java's [int] keeps 32 bits; [(short) n] keeps 16. *)
Definition jint_wrap (z : Z) : Z := (z + 2 ^ 31) mod 2 ^ 32 - 2 ^ 31.
Definition to_short (z : Z) : Z := (z + 2 ^ 15) mod 2 ^ 16 - 2 ^ 15.

Definition ConstantsError : error :=
  JavaException "org.postgresql.pljava.pg.ModelConstants$ConstantsError".

(** [private static int checked(IntBuffer b, int index)]:
    [if ( b.position() != index << 1  ||  index != b.get() ) throw ...;
     return b.get();], an exception of the buffer being rethrown as a
    [ConstantsError]. *)
Definition checked (b : IntBuffer) (index : Z) : result (Z * IntBuffer) :=
  if negb (Z.of_nat (ib_position b) =? jint_wrap (Z.shiftl index 1))
  then Raise ConstantsError
  else match IntBuffer_get b with
       | Raise _ => Raise ConstantsError
       | Ok (x, b1) =>
           if negb (index =? x) then Raise ConstantsError
           else match IntBuffer_get b1 with
                | Raise _ => Raise ConstantsError
                | Ok r => Ok r
                end
       end.

(** A run of [X = checked(b, IDX_X);] assignments. *)
Fixpoint read_statics (indices : list Z) (b : IntBuffer)
  : result (list Z * IntBuffer) :=
  match indices with
  | [] => Ok ([], b)
  | index :: rest =>
      r ← checked b index;
      rs ← read_statics rest r.2;
      Ok (r.1 :: rs.1, rs.2)
  end.

(** The static initializer of [ModelConstants], from the int view [b] of the
    native array: the values of the public statics in the order of their
    assignment.  [assertions] tells whether the class runs with assertions
    enabled ([assert n == NAMEDATALEN;]). *)
Definition ModelConstants_clinit (assertions : bool) (b : IntBuffer)
  : result (list Z) :=
  r1 ← read_statics statics_before_NAMEDATALEN b;
  n ← checked r1.2 IDX_NAMEDATALEN;
  let NAMEDATALEN := to_short n.1 in
  if assertions && negb (n.1 =? NAMEDATALEN)
  then Raise (JavaException "java.lang.AssertionError")
  else
    r2 ← read_statics statics_after_NAMEDATALEN n.2;
    if negb (IntBuffer_remaining r2.2 =? 0)%nat then Raise ConstantsError
    else Ok (r1.1 ++ NAMEDATALEN :: r2.1)%list.

(** The layout the class comment asks of the native side: "alternating
    indices and values", from the index [i] on. *)
Fixpoint paired (i : nat) (vals : list Z) : list Z :=
  match vals with
  | [] => []
  | v :: vs => Z.of_nat i :: v :: paired (S i) vs
  end.

(** ** Time differences ([Tuple.c]) *)

(** [struct timespec]: seconds and nanoseconds, both signed. *)
Record timespec : Type := mkTimespec {
  tv_sec : Z;
  tv_nsec : Z
}.

Definition NS_PER_SECOND : Z := 1000000000.

(** The result of a signed operation of the width [w]: leaving the range is
    undefined in C. *)
Definition signed_result (w : Z) (z : Z) : result Z :=
  if (- 2 ^ (w - 1) <=? z) && (z <? 2 ^ (w - 1)) then Ok z
  else Raise (Undefined "signed overflow").

(** [void sub_timespec(struct timespec t1, struct timespec t2,
    struct timespec *td)]; [wsec] and [wnsec] are the widths of [time_t] and
    of [long], the result is [*td] after the call. *)
Definition sub_timespec (wsec wnsec : Z) (t1 t2 : timespec) : result timespec :=
  nsec ← signed_result wnsec (tv_nsec t2 - tv_nsec t1);
  sec ← signed_result wsec (tv_sec t2 - tv_sec t1);
  if (0 <? sec) && (nsec <? 0) then
    nsec' ← signed_result wnsec (nsec + NS_PER_SECOND);
    sec' ← signed_result wsec (sec - 1);
    Ok (mkTimespec sec' nsec')
  else if (sec <? 0) && (0 <? nsec) then
    nsec' ← signed_result wnsec (nsec - NS_PER_SECOND);
    sec' ← signed_result wsec (sec + 1);
    Ok (mkTimespec sec' nsec')
  else Ok (mkTimespec sec nsec).

(** * Theorems *)

(** ** The error monad *)

Lemma bind_Ok {A B} (a : A) (f : A -> result B) : Ok a ≫= f = f a.
Proof. reflexivity. Qed.

Lemma bind_Raise {A B} (e : error) (f : A -> result B) : Raise e ≫= f = Raise e.
Proof. reflexivity. Qed.

Lemma unchecked_Ok {A B} (a null : A) (k : A -> result B) :
  unchecked (Ok a) null k = k a.
Proof. reflexivity. Qed.

Lemma bind_Ok_inv {A B} (m : result A) (f : A -> result B) (b : B) :
  m ≫= f = Ok b -> exists a, m = Ok a /\ f a = Ok b.
Proof. destruct m as [a|e]; [eauto|discriminate]. Qed.

Lemma bind_Raise_inv {A B} (m : result A) (f : A -> result B) (e : error) :
  m ≫= f = Raise e -> m = Raise e \/ exists a, m = Ok a /\ f a = Raise e.
Proof.
  destruct m as [a|e']; [eauto|]. intros H. left.
  cbn in H. injection H as ->. reflexivity.
Qed.

(** ** Null bitmaps *)

Lemma bit_mask_nonneg (offset : Z) :
  0 <= offset -> bit_mask offset = Ok (2 ^ (offset mod 8)).
Proof.
  intros H. unfold bit_mask.
  rewrite Z.rem_mod_nonneg by lia.
  destruct (Z.ltb_spec (offset mod 8) 0) as [Hneg|_].
  - pose proof (Z.mod_pos_bound offset 8). lia.
  - f_equal. rewrite Z.shiftl_1_l. reflexivity.
Qed.

Lemma land_pow2_eqb (b k : Z) :
  0 <= k -> (Z.land b (2 ^ k) =? 0) = negb (Z.testbit b k).
Proof.
  intros Hk.
  destruct (Z.testbit b k) eqn:Hb; simpl.
  - apply Z.eqb_neq. intros Hz.
    assert (Z.testbit (Z.land b (2 ^ k)) k = true) as Ht.
    { rewrite Z.land_spec, Hb, Z.pow2_bits_true by lia. reflexivity. }
    rewrite Hz, Z.bits_0 in Ht. discriminate.
  - apply Z.eqb_eq. apply Z.bits_inj'. intros n Hn.
    rewrite Z.land_spec, Z.bits_0.
    destruct (Z.eq_dec n k) as [->|Hne].
    + rewrite Hb. reflexivity.
    + rewrite Z.pow2_bits_false by lia. apply andb_false_r.
Qed.

Lemma testbit_to_bits8 (x k : Z) :
  0 <= k < 8 -> Z.testbit (to_bits8 x) k = Z.testbit x k.
Proof.
  intros Hk. unfold to_bits8. change 256 with (2 ^ 8).
  apply Z.mod_pow2_bits_low. lia.
Qed.



(** [arraySetNull] leaves the flag of every other element as it was. *)
Lemma arraySetNull_other_offsets (bm bm' : list Z) (offset offset' : Z)
      (flag : bool) :
  0 <= offset < 8 * Z.of_nat (length bm) ->
  0 <= offset' < 8 * Z.of_nat (length bm) ->
  offset' <> offset ->
  arraySetNull (Some bm) offset flag = Ok (Some bm') ->
  arrayIsNull (Some bm') offset' = arrayIsNull (Some bm) offset'.
Proof.
  intros Hr Hr' Hne Hset.
  assert (Hq : Z.quot offset 8 = offset / 8) by (apply Z.quot_div_nonneg; lia).
  assert (Hq' : Z.quot offset' 8 = offset' / 8) by (apply Z.quot_div_nonneg; lia).
  pose proof (Z.mod_pos_bound offset 8 ltac:(lia)) as Hk.
  pose proof (Z.mod_pos_bound offset' 8 ltac:(lia)) as Hk'.
  assert (Hi : (Z.to_nat (offset / 8) < length bm)%nat).
  { assert (offset / 8 < Z.of_nat (length bm)) by (apply Z.div_lt_upper_bound; lia).
    assert (0 <= offset / 8) by (apply Z.div_pos; lia). lia. }
  assert (Hpos : 0 <= offset / 8) by (apply Z.div_pos; lia).
  assert (Hpos' : 0 <= offset' / 8) by (apply Z.div_pos; lia).
  destruct (lookup_lt_is_Some_2 bm _ Hi) as [b Hb].
  unfold arraySetNull in Hset. rewrite bit_mask_nonneg, bind_Ok in Hset by lia.
  unfold byte_at in Hset. rewrite Hq in Hset.
  destruct (Z.ltb_spec (offset / 8) 0) as [|_]; [lia|].
  rewrite Hb, bind_Ok in Hset. injection Hset as <-.
  unfold arrayIsNull. rewrite bit_mask_nonneg, !bind_Ok by lia.
  unfold byte_at. rewrite Hq'.
  destruct (Z.ltb_spec (offset' / 8) 0) as [|_]; [lia|].
  destruct (Z.eq_dec (offset' / 8) (offset / 8)) as [Heq|Hdiff].
  - rewrite Heq, list_lookup_insert_eq, Hb, !bind_Ok by exact Hi.
    rewrite !land_pow2_eqb by lia. f_equal. f_equal.
    assert (Hbit : offset' mod 8 <> offset mod 8).
    { intros Hm. apply Hne.
      rewrite (Z.div_mod offset' 8), (Z.div_mod offset 8) by lia. lia. }
    rewrite testbit_to_bits8 by lia.
    destruct flag.
    + rewrite Z.land_spec, Z.lnot_spec, Z.pow2_bits_false by lia.
      apply andb_true_r.
    + rewrite Z.lor_spec, Z.pow2_bits_false by lia. apply orb_false_r.
  - rewrite list_lookup_insert_ne by lia. reflexivity.
Qed.

(** ** The loops of the primitive coercers against the array layout *)

#[local] Arguments arrayIsNull : simpl never.
#[local] Arguments payload_at : simpl never.
#[local] Arguments payload_region : simpl never.

Lemma arrayIsNull_is_null_at (bm : list Z) (k : nat) :
  (k < 8 * length bm)%nat ->
  arrayIsNull (Some bm) (Z.of_nat k) = Ok (is_null_at bm k).
Proof.
  intros Hk. unfold arrayIsNull, is_null_at.
  rewrite bit_mask_nonneg, bind_Ok by lia.
  assert (Hq : Z.quot (Z.of_nat k) 8 = Z.of_nat (k / 8)).
  { rewrite Z.quot_div_nonneg by lia. rewrite (Nat2Z.inj_div k 8). reflexivity. }
  unfold byte_at. rewrite Hq.
  destruct (Z.ltb_spec (Z.of_nat (k / 8)) 0) as [Hneg|_]; [lia|].
  rewrite Nat2Z.id.
  assert (Hi : (k / 8 < length bm)%nat) by (apply Nat.Div0.div_lt_upper_bound; lia).
  destruct (lookup_lt_is_Some_2 bm _ Hi) as [b Hb].
  rewrite (nth_lookup_Some _ _ 0 _ Hb), Hb, bind_Ok.
  rewrite land_pow2_eqb by (apply Z.mod_pos_bound; lia).
  reflexivity.
Qed.

Lemma stored_before_mono (bm : list Z) (k n : nat) :
  (k <= n)%nat -> (stored_before bm k <= stored_before bm n)%nat.
Proof.
  induction 1 as [|n Hle IH]; [lia|]. simpl. lia.
Qed.

Lemma stored_before_le (bm : list Z) (k : nat) :
  (stored_before bm k <= k)%nat.
Proof.
  induction k as [|k IH]; simpl; [lia|]. destruct (is_null_at bm k); lia.
Qed.

Lemma fill_1d_layout {A} (zero : A) (bm : list Z) (data : list A)
      (count idx : nat) :
  covers bm data (idx + count) ->
  exists elems,
    fill_1d zero (Some bm) (drop (stored_before bm idx) data) idx count = Ok elems
    /\ length elems = count
    /\ forall k, (k < count)%nat ->
                 elems !! k = element_at zero bm data (idx + k).
Proof.
  revert idx. induction count as [|count IH]; intros idx [Hbm Hdata].
  - exists []. simpl. split; [reflexivity|split; [reflexivity|]]. intros k Hk. lia.
  - simpl fill_1d.
    rewrite arrayIsNull_is_null_at, bind_Ok by lia.
    assert (Hcov : covers bm data (S idx + count)).
    { split; [lia|]. replace (S idx + count)%nat with (idx + S count)%nat by lia.
      exact Hdata. }
    destruct (is_null_at bm idx) eqn:Hnull.
    + destruct (IH (S idx) Hcov) as (elems & Hfill & Hlen & Hel).
      simpl stored_before in Hfill. rewrite Hnull, Nat.add_0_r in Hfill.
      rewrite Hfill. simpl.
      exists (zero :: elems). repeat split; [simpl; lia|].
      intros [|k] Hk.
      * simpl. unfold element_at. rewrite Nat.add_0_r, Hnull. reflexivity.
      * simpl. rewrite Hel by lia. f_equal. lia.
    + assert (Hlt : (stored_before bm idx < length data)%nat).
      { pose proof (stored_before_mono bm (S idx) (idx + S count) ltac:(lia)) as Hm.
        simpl in Hm. rewrite Hnull in Hm. lia. }
      destruct (lookup_lt_is_Some_2 data _ Hlt) as [x Hx].
      rewrite (drop_S _ _ _ Hx).
      destruct (IH (S idx) Hcov) as (elems & Hfill & Hlen & Hel).
      simpl stored_before in Hfill. rewrite Hnull in Hfill.
      replace (stored_before bm idx + 1)%nat with (S (stored_before bm idx)) in Hfill by lia.
      rewrite Hfill. simpl.
      exists (x :: elems). repeat split; [simpl; lia|].
      intros [|k] Hk.
      * simpl. unfold element_at. rewrite Nat.add_0_r, Hnull. symmetry. exact Hx.
      * simpl. rewrite Hel by lia. f_equal. lia.
Qed.

Lemma payload_at_lookup {A} (data : list A) (i : nat) (x : A) :
  data !! i = Some x -> payload_at data (Z.of_nat i) = Ok x.
Proof.
  intros Hx. unfold payload_at.
  destruct (Z.ltb_spec (Z.of_nat i) 0) as [Hneg|_]; [lia|].
  rewrite Nat2Z.id, Hx. reflexivity.
Qed.

Lemma fill_row_layout {A} (ph : A) (bm : list Z) (data : list A)
      (count nc0 : nat) (nc NaNc : Z) :
  covers bm data (nc0 + count) ->
  nc = Z.of_nat nc0 ->
  NaNc = Z.of_nat (nc0 - stored_before bm nc0) ->
  exists row,
    fill_row ph (Some bm) data count nc NaNc
    = Ok (row, (Z.of_nat (nc0 + count),
                Z.of_nat (nc0 + count - stored_before bm (nc0 + count))))
    /\ length row = count
    /\ forall k, (k < count)%nat -> row !! k = element_at ph bm data (nc0 + k).
Proof.
  revert nc0 nc NaNc.
  induction count as [|count IH]; intros nc0 nc NaNc [Hbm Hdata] Hnc HNaNc.
  - exists []. simpl. rewrite Nat.add_0_r. subst.
    split; [reflexivity|split; [reflexivity|]]. intros k Hk. lia.
  - simpl fill_row. subst nc.
    rewrite arrayIsNull_is_null_at, bind_Ok by lia.
    pose proof (stored_before_le bm nc0) as Hle.
    assert (Hcov : covers bm data (S nc0 + count)).
    { split; [lia|]. replace (S nc0 + count)%nat with (nc0 + S count)%nat by lia.
      exact Hdata. }
    replace (nc0 + S count)%nat with (S nc0 + count)%nat by lia.
    destruct (is_null_at bm nc0) eqn:Hnull.
    + destruct (IH (S nc0) (Z.of_nat nc0 + 1) (NaNc + 1) Hcov) as (row & Hrow & Hlen & Hel).
      { lia. }
      { simpl stored_before. rewrite Hnull. lia. }
      rewrite Hrow, bind_Ok. simpl.
      exists (ph :: row). split; [reflexivity|split; [simpl; lia|]].
      intros [|k] Hk.
      * simpl. unfold element_at. rewrite Nat.add_0_r, Hnull. reflexivity.
      * simpl. rewrite Hel by lia. f_equal. lia.
    + assert (Hlt : (stored_before bm nc0 < length data)%nat).
      { pose proof (stored_before_mono bm (S nc0) (nc0 + S count) ltac:(lia)) as Hm.
        simpl in Hm. rewrite Hnull in Hm. lia. }
      destruct (lookup_lt_is_Some_2 data _ Hlt) as [x Hx].
      replace (Z.of_nat nc0 - NaNc) with (Z.of_nat (stored_before bm nc0)) by lia.
      rewrite (payload_at_lookup _ _ _ Hx), bind_Ok.
      destruct (IH (S nc0) (Z.of_nat nc0 + 1) NaNc Hcov) as (row & Hrow & Hlen & Hel).
      { lia. }
      { simpl stored_before. rewrite Hnull. lia. }
      rewrite Hrow, bind_Ok. simpl.
      exists (x :: row). split; [reflexivity|split; [simpl; lia|]].
      intros [|k] Hk.
      * simpl. unfold element_at. rewrite Nat.add_0_r, Hnull. symmetry. exact Hx.
      * simpl. rewrite Hel by lia. f_equal. lia.
Qed.

Lemma fill_rows_layout {A} (ph : A) (bm : list Z) (data : list A)
      (dim2 rows nc0 : nat) (nc NaNc : Z) :
  covers bm data (nc0 + rows * dim2) ->
  nc = Z.of_nat nc0 ->
  NaNc = Z.of_nat (nc0 - stored_before bm nc0) ->
  exists rs,
    fill_rows ph (Some bm) data rows dim2 nc NaNc = Ok rs
    /\ length rs = rows
    /\ forall i, (i < rows)%nat ->
         exists row, rs !! i = Some row /\ length row = dim2
           /\ forall j, (j < dim2)%nat ->
                row !! j = element_at ph bm data (nc0 + i * dim2 + j).
Proof.
  revert nc0 nc NaNc.
  induction rows as [|rows IH]; intros nc0 nc NaNc [Hbm Hdata] Hnc HNaNc.
  - exists []. simpl. split; [reflexivity|split; [reflexivity|]]. intros i Hi. lia.
  - simpl fill_rows.
    assert (Hrowcov : covers bm data (nc0 + dim2)).
    { split; [simpl in Hbm; lia|].
      etransitivity; [|exact Hdata]. apply stored_before_mono. simpl. lia. }
    destruct (fill_row_layout ph bm data dim2 nc0 nc NaNc Hrowcov Hnc HNaNc)
      as (row & Hrow & Hlen & Hel).
    rewrite Hrow, bind_Ok. cbn [fst snd].
    destruct (IH (nc0 + dim2)%nat (Z.of_nat (nc0 + dim2))
                 (Z.of_nat (nc0 + dim2 - stored_before bm (nc0 + dim2))))
      as (rs & Hrs & Hrlen & Hrel); [|reflexivity|reflexivity|].
    { split.
      - simpl in Hbm. lia.
      - replace (nc0 + dim2 + rows * dim2)%nat with (nc0 + S rows * dim2)%nat
          by (simpl; lia). exact Hdata. }
    rewrite Hrs, bind_Ok.
    exists (row :: rs). split; [reflexivity|split; [simpl; lia|]].
    intros [|i] Hi.
    + exists row. split; [reflexivity|split; [exact Hlen|]].
      intros j Hj. rewrite Hel by exact Hj. f_equal. simpl. lia.
    + destruct (Hrel i ltac:(lia)) as (r & Hr & Hrl & Hre).
      exists r. split; [exact Hr|split; [exact Hrl|]].
      intros j Hj. rewrite Hre by exact Hj. f_equal. simpl. lia.
Qed.

(** ** [Float.c] and [Double.c]: native to managed *)

Lemma payload_region_0 {A} (data : list A) (n : nat) :
  (n <= length data)%nat -> payload_region data 0 n = Ok (take n data).
Proof.
  intros Hn. unfold payload_region. simpl.
  destruct (Nat.leb_spec n (length data)); [reflexivity|lia].
Qed.

(** An array whose dimensionality is not two (one, three, ...) comes out of
    the float coercer as one flat managed array of all its items. *)
Lemma floatArray_coerceDatum_flat (v : ArrayType jfloat) :
  ARR_NDIM v <> 2%nat ->
  let n := ArrayGetNItems (ARR_NDIM v) (ARR_DIMS v) in
  (forall bm, ARR_NULLBITMAP v = Some bm -> covers bm (ARR_DATA v) n ->
     exists elems,
       _floatArray_coerceDatum v = Ok (JFloatArray elems)
       /\ length elems = n
       /\ forall k, (k < n)%nat ->
            elems !! k = element_at float_of_0 bm (ARR_DATA v) k)
  /\ (ARR_NULLBITMAP v = None -> (n <= length (ARR_DATA v))%nat ->
      _floatArray_coerceDatum v = Ok (JFloatArray (take n (ARR_DATA v)))).
Proof.
  intros Hdim n. unfold _floatArray_coerceDatum, ARR_HASNULL.
  destruct (Nat.eqb_spec (ARR_NDIM v) 2) as [Heq|_]; [contradiction|].
  cbn [negb]. fold n. split.
  - intros bm Hbm Hcov. rewrite Hbm.
    destruct (fill_1d_layout float_of_0 bm (ARR_DATA v) n 0 Hcov)
      as (elems & Hfill & Hlen & Hel).
    simpl stored_before in Hfill. rewrite drop_0 in Hfill.
    rewrite Hfill, bind_Ok. exists elems. auto.
  - intros Hbm Hlen. rewrite Hbm, payload_region_0, bind_Ok by exact Hlen.
    reflexivity.
Qed.

(** The 2-D path with a null bitmap: row [i], column [j] is element
    [i * dim2 + j] of the layout, with [NAN] standing in for a null. *)
Lemma floatArray_coerceDatum_2d_nulls (v : ArrayType jfloat)
      (dim1 dim2 : nat) (bm : list Z) :
  ARR_NDIM v = 2%nat ->
  ARR_DIMS v = [dim1; dim2] ->
  ARR_NULLBITMAP v = Some bm ->
  covers bm (ARR_DATA v) (dim1 * dim2) ->
  exists rows,
    _floatArray_coerceDatum v = Ok (rows_of_floats rows)
    /\ length rows = dim1
    /\ forall i, (i < dim1)%nat ->
         exists row, rows !! i = Some row /\ length row = dim2
           /\ forall j, (j < dim2)%nat ->
                row !! j = element_at NAN bm (ARR_DATA v) (i * dim2 + j).
Proof.
  intros Hnd Hdims Hbm Hcov.
  unfold _floatArray_coerceDatum, ARR_HASNULL, dim_at.
  rewrite Hnd, Hdims, Hbm. cbn [Nat.eqb negb lookup list_lookup].
  rewrite !bind_Ok.
  destruct (fill_rows_layout NAN bm (ARR_DATA v) dim2 dim1 0 0 0 Hcov)
    as (rows & Hrows & Hlen & Hel); [reflexivity|reflexivity|].
  rewrite Hrows, bind_Ok. exists rows. auto.
Qed.

Lemma doubleArray_coerceDatum_2d_nulls (v : ArrayType jdouble)
      (dim1 dim2 : nat) (bm : list Z) :
  ARR_NDIM v = 2%nat ->
  ARR_DIMS v = [dim1; dim2] ->
  ARR_NULLBITMAP v = Some bm ->
  covers bm (ARR_DATA v) (dim1 * dim2) ->
  exists rows,
    _doubleArray_coerceDatum v = Ok (rows_of_doubles rows)
    /\ length rows = dim1
    /\ forall i, (i < dim1)%nat ->
         exists row, rows !! i = Some row /\ length row = dim2
           /\ forall j, (j < dim2)%nat ->
                row !! j = element_at NAN bm (ARR_DATA v) (i * dim2 + j).
Proof.
  intros Hnd Hdims Hbm Hcov.
  unfold _doubleArray_coerceDatum, ARR_HASNULL, dim_at.
  rewrite Hnd, Hdims, Hbm. cbn [Nat.eqb negb lookup list_lookup].
  rewrite !bind_Ok.
  destruct (fill_rows_layout NAN bm (ARR_DATA v) dim2 dim1 0 0 0 Hcov)
    as (rows & Hrows & Hlen & Hel); [reflexivity|reflexivity|].
  rewrite Hrows, bind_Ok. exists rows. auto.
Qed.

(** The 1-D branch of the double coercer with a null bitmap never reaches a
    [return]. *)
Lemma doubleArray_coerceDatum_1d_nulls (v : ArrayType jdouble) :
  ARR_NDIM v <> 2%nat -> ARR_HASNULL v = true ->
  forall o, _doubleArray_coerceDatum v <> Ok o.
Proof.
  intros Hdim Hnull o. unfold _doubleArray_coerceDatum.
  destruct (Nat.eqb_spec (ARR_NDIM v) 2) as [Heq|_]; [contradiction|].
  cbn [negb]. rewrite Hnull.
  destruct (fill_1d _ _ _ _ _); discriminate.
Qed.

(** ** [Float.c]: managed to native *)

Lemma set_data_in_range {A} (v : ArrayType A) (start : nat) (src : list A) :
  (start + length src <= length (ARR_DATA v))%nat ->
  set_data v start src
  = Ok (mkArrayType (ARR_NDIM v) (ARR_DIMS v) (ARR_LBOUND v)
                    (ARR_NULLBITMAP v) (ARR_ELEMTYPE v)
                    (take start (ARR_DATA v) ++ src
                     ++ drop (start + length src) (ARR_DATA v))%list).
Proof.
  intros Hlen. unfold set_data.
  destruct (Nat.leb_spec (start + length src) (length (ARR_DATA v))) as [_|];
    [reflexivity|lia].
Qed.

Lemma set_data_past_the_end {A} (v : ArrayType A) (start : nat) (src : list A) :
  (length (ARR_DATA v) < start + length src)%nat ->
  set_data v start src
  = Raise (Undefined "write past the end of the array's chunk").
Proof.
  intros Hlen. unfold set_data.
  destruct (Nat.leb_spec (start + length src) (length (ARR_DATA v))) as [|_];
    [lia|reflexivity].
Qed.

Lemma set_data_all {A} (v : ArrayType A) (src : list A) :
  length (ARR_DATA v) = length src ->
  set_data v 0 src
  = Ok (mkArrayType (ARR_NDIM v) (ARR_DIMS v) (ARR_LBOUND v)
                    (ARR_NULLBITMAP v) (ARR_ELEMTYPE v) src).
Proof.
  intros Hlen. rewrite set_data_in_range by (simpl; lia).
  rewrite take_0, app_nil_l, Nat.add_0_l.
  rewrite drop_ge by lia. rewrite app_nil_r. reflexivity.
Qed.

Lemma floatArray_coerceObject_1d (elems : list jfloat) :
  _floatArray_coerceObject (Some (JFloatArray elems))
  = Ok (Some (mkArrayType 1 [length elems] [1] None FLOAT4OID elems)).
Proof.
  unfold _floatArray_coerceObject. cbn [PgObject_getClassName JNI_getArrayLength].
  rewrite bind_Ok. change (char_is "[F" 1 "[") with false. cbn [negb].
  unfold JNI_getFloatArrayRegion, region.
  rewrite Nat.leb_refl, firstn_all. cbn [unchecked].
  rewrite set_data_all by (cbn [createArrayType ARR_DATA];
                           apply length_replicate).
  rewrite bind_Ok. reflexivity.
Qed.

(** ** [Array.c]: the object array coercers *)

Lemma ArrayGetNItems_1d (n : nat) : ArrayGetNItems 1 [n] = n.
Proof. unfold ArrayGetNItems. simpl. lia. Qed.

Section ObjectArrayFacts.
Context {D : Type}.
Variable datum_0 : D.
Variable elemType : ElemType D.
Variable construct_md_array :
  list D -> list bool -> nat -> list nat -> list Z -> Oid -> ArrayType D.

Lemma coerce_elems_layout (bm : list Z) (data : list D) (count idx : nat) :
  covers bm data (idx + count) ->
  elements_round_trip elemType data ->
  exists objs,
    coerce_elems elemType (Some bm) (drop (stored_before bm idx) data) idx count
    = Ok objs
    /\ length objs = count
    /\ forall k, (k < count)%nat ->
         exists ob, objs !! k = Some ob /\ slot_for datum_0 elemType bm data (idx + k) ob.
Proof.
  intros Hcov Hrt. revert idx Hcov.
  induction count as [|count IH]; intros idx [Hbm Hdata].
  - exists []. simpl. split; [reflexivity|split; [reflexivity|]]. intros k Hk. lia.
  - simpl coerce_elems.
    rewrite arrayIsNull_is_null_at, bind_Ok by lia.
    assert (Hcov : covers bm data (S idx + count)).
    { split; [lia|]. replace (S idx + count)%nat with (idx + S count)%nat by lia.
      exact Hdata. }
    destruct (is_null_at bm idx) eqn:Hnull.
    + destruct (IH (S idx) Hcov) as (objs & Hobjs & Hlen & Hel).
      simpl stored_before in Hobjs. rewrite Hnull, Nat.add_0_r in Hobjs.
      rewrite Hobjs, bind_Ok.
      exists (None :: objs). split; [reflexivity|split; [simpl; lia|]].
      intros [|k] Hk.
      * exists None. split; [reflexivity|]. exists datum_0.
        unfold element_at. rewrite Nat.add_0_r, Hnull. split; reflexivity.
      * destruct (Hel k ltac:(lia)) as (ob & Hob & Hslot).
        exists ob. split; [exact Hob|].
        replace (idx + S k)%nat with (S idx + k)%nat by lia. exact Hslot.
    + assert (Hlt : (stored_before bm idx < length data)%nat).
      { pose proof (stored_before_mono bm (S idx) (idx + S count) ltac:(lia)) as Hm.
        simpl in Hm. rewrite Hnull in Hm. lia. }
      destruct (lookup_lt_is_Some_2 data _ Hlt) as [x Hx].
      rewrite (drop_S _ _ _ Hx).
      destruct (Hrt x) as (o & Hto & Hfrom).
      { apply list_elem_of_lookup. eauto. }
      rewrite Hto, bind_Ok.
      destruct (IH (S idx) Hcov) as (objs & Hobjs & Hlen & Hel).
      simpl stored_before in Hobjs. rewrite Hnull in Hobjs.
      replace (stored_before bm idx + 1)%nat with (S (stored_before bm idx))
        in Hobjs by lia.
      rewrite Hobjs, bind_Ok.
      exists (Some o :: objs). split; [reflexivity|split; [simpl; lia|]].
      intros [|k] Hk.
      * exists (Some o). split; [reflexivity|]. exists x.
        unfold element_at. rewrite Nat.add_0_r, Hnull. split; [exact Hx|].
        simpl. rewrite Hfrom. reflexivity.
      * destruct (Hel k ltac:(lia)) as (ob & Hob & Hslot).
        exists ob. split; [exact Hob|].
        replace (idx + S k)%nat with (S idx + k)%nat by lia. exact Hslot.
Qed.

Lemma collect_slots_layout (cls : string) (objs : list (option jobject))
      (bm : list Z) (data : list D) (count idx : nat) :
  (forall k, (k < count)%nat ->
     exists ob, objs !! (idx + k)%nat = Some ob /\ slot_for datum_0 elemType bm data (idx + k) ob) ->
  exists slots,
    collect_slots datum_0 elemType (Some (JObjectArray cls objs)) idx count
    = Ok slots
    /\ length slots = count
    /\ forall k, (k < count)%nat ->
         (fst <$> slots !! k) = element_at datum_0 bm data (idx + k)
         /\ (snd <$> slots !! k) = Some (is_null_at bm (idx + k)).
Proof.
  revert idx. induction count as [|count IH]; intros idx Hobjs.
  - exists []. simpl. split; [reflexivity|split; [reflexivity|]]. intros k Hk. lia.
  - simpl collect_slots.
    destruct (Hobjs 0%nat ltac:(lia)) as (ob & Hob & d & Hd & Hslot).
    rewrite Nat.add_0_r in Hob, Hd, Hslot.
    rewrite Hob, unchecked_Ok, Hslot, bind_Ok.
    destruct (IH (S idx)) as (slots & Hslots & Hlen & Hel).
    { intros k Hk. destruct (Hobjs (S k) ltac:(lia)) as (ob' & Hob' & Hs').
      exists ob'. replace (S idx + k)%nat with (idx + S k)%nat by lia. auto. }
    rewrite Hslots, bind_Ok.
    exists ((d, is_null_at bm idx) :: slots).
    split; [reflexivity|split; [simpl; lia|]].
    intros [|k] Hk.
    + rewrite Nat.add_0_r. simpl. auto.
    + replace (idx + S k)%nat with (S idx + k)%nat by lia.
      simpl. apply Hel. lia.
Qed.

(** A 1-D array with a null bitmap, sent to the managed side and back by
    the object coercers: what the way back has assembled when it calls the
    array construction are the original null flags and the original stored
    values. *)
Lemma Array_round_trip_1d (v : ArrayType D) (bm : list Z) (n : nat) :
  ARR_NDIM v = 1%nat ->
  ARR_DIMS v = [n] ->
  ARR_NULLBITMAP v = Some bm ->
  covers bm (ARR_DATA v) n ->
  char_is (Type_getJavaArrayClassName elemType) 1 "[" = false ->
  elements_round_trip elemType (ARR_DATA v) ->
  exists slots,
    (o ← _Array_coerceDatum elemType v;
     Array_coerceObject_arguments datum_0 elemType (Some o))
    = Ok (1%nat, [n], after_its_block [1], slots)
    /\ length slots = n
    /\ forall k, (k < n)%nat ->
         (snd <$> slots !! k) = Some (is_null_at bm k)
         /\ (fst <$> slots !! k) = element_at datum_0 bm (ARR_DATA v) k.
Proof.
  intros Hnd Hdims Hbm Hcov Hcls Hrt.
  unfold _Array_coerceDatum. rewrite Hnd, Hdims, Hbm, ArrayGetNItems_1d.
  cbn [Nat.eqb negb].
  destruct (coerce_elems_layout bm (ARR_DATA v) n 0 Hcov Hrt)
    as (objs & Hobjs & Hlen & Hel).
  simpl stored_before in Hobjs. rewrite drop_0 in Hobjs.
  rewrite Hobjs, !bind_Ok.
  unfold Array_coerceObject_arguments. cbn [PgObject_getClassName].
  rewrite Hcls. cbn [JNI_getArrayLength]. rewrite !bind_Ok.
  cbn [Nat.eqb]. rewrite Hlen, Nat.mul_1_r.
  destruct (collect_slots_layout (Type_getJavaArrayClassName elemType)
              objs bm (ARR_DATA v) n 0 Hel) as (slots & Hslots & Hslen & Hsel).
  rewrite Hslots, bind_Ok.
  exists slots. split; [reflexivity|]. split; [exact Hslen|].
  intros k Hk. destruct (Hsel k Hk) as [Hv Hn]. auto.
Qed.
End ObjectArrayFacts.

(** ** Replacement of array types *)

Lemma Type__ind_elem (P : Type_ -> Prop)
      (H : forall a cls tid elem obj,
          (forall e, elem = Some e -> P e) ->
          (forall o, obj = Some o -> P o) ->
          P (mkType a cls tid elem obj)) :
  forall t, P t.
Proof.
  fix IH 1. intros [a cls tid elem obj]. apply H.
  - destruct elem as [e|]; intros e' He; [|discriminate].
    injection He as <-. apply IH.
  - destruct obj as [o|]; intros o' Ho; [|discriminate].
    injection Ho as <-. apply IH.
Qed.

Lemma Type_canReplaceType_defined (self other : Type_) :
  arrays_have_elements self = true ->
  exists b, Type_canReplaceType self other = Ok b.
Proof.
  revert other.
  induction self as [a cls tid elem obj IH _] using Type__ind_elem.
  intros other Hwf. destruct cls as [ca cn sig jn slot co inv].
  destruct slot; simpl in *; try (eexists; reflexivity).
  unfold Array_canReplaceType_body, Type_getElementType. simpl.
  destruct (elementType other) as [oe|]; [|eexists; reflexivity].
  destruct elem as [se|]; [|discriminate].
  destruct (IH se eq_refl oe Hwf) as [b Hb]. rewrite Hb, bind_Ok.
  destruct b; eexists; reflexivity.
Qed.

Lemma Array_canReplaceType_eq (self other se : Type_) :
  Type_getElementType self = Some se ->
  arrays_have_elements se = true ->
  exists r,
    _Array_canReplaceType self other = Ok r
    /\ (r = true <->
        exists oe, Type_getElementType other = Some oe
                   /\ (Type_canReplaceType se oe = Ok true
                       \/ Type_is (Type_getObjectType self) other = true)).
Proof.
  intros Hse Hwf. unfold _Array_canReplaceType, Array_canReplaceType_body.
  rewrite Hse.
  destruct (Type_getElementType other) as [oe|].
  - destruct (Type_canReplaceType_defined se oe Hwf) as [b Hb].
    rewrite Hb, bind_Ok. destruct b.
    + exists true. split; [reflexivity|]. split; [|reflexivity].
      intros _. exists oe. auto.
    + exists (Type_is (Type_getObjectType self) other). split; [reflexivity|].
      split.
      * intros Hr. exists oe. auto.
      * intros (oe' & Heq & [Hc|Ho]); [|exact Ho].
        injection Heq as <-. rewrite Hb in Hc. discriminate Hc.
  - exists false. split; [reflexivity|]. split; [discriminate|].
    intros (oe & Hoe & _). discriminate.
Qed.

(** C7, as amended.  A candidate array type [self] replaces the declared
    array type [other] exactly when [other] has an element type and either
    the candidate's element type can replace it (one direction, decided by
    the candidate element's own class) or the declared type is the boxed-array
    counterpart of the candidate, [Type_getObjectType(self) == other]; a
    declared type without an element type is never replaced. *)
Theorem Array_canReplaceType_rule (self other se : Type_)
  (Hse : Type_getElementType self = Some se)
  (Hwf : arrays_have_elements se = true) :
  (exists r,
      _Array_canReplaceType self other = Ok r
      /\ (r = true <->
          exists oe, Type_getElementType other = Some oe
                     /\ (Type_canReplaceType se oe = Ok true
                         \/ Type_is (Type_getObjectType self) other = true)))
  /\ (Type_getElementType other = None ->
      _Array_canReplaceType self other = Ok false).
Proof.
  split; [exact (Array_canReplaceType_eq self other se Hse Hwf)|].
  intros Hnone. unfold _Array_canReplaceType, Array_canReplaceType_body.
  rewrite Hnone. reflexivity.
Qed.

Lemma Array_canReplaceType_rule_witness :
  (exists r,
      _Array_canReplaceType t_intArray t_IntegerArray = Ok r
      /\ (r = true <->
          exists oe, Type_getElementType t_IntegerArray = Some oe
                     /\ (Type_canReplaceType t_int oe = Ok true
                         \/ Type_is (Type_getObjectType t_intArray) t_IntegerArray = true)))
  /\ (Type_getElementType t_IntegerArray = None ->
      _Array_canReplaceType t_intArray t_IntegerArray = Ok false).
Proof.
  apply (Array_canReplaceType_rule t_intArray t_IntegerArray t_int);
    reflexivity.
Defined.

(** C7, the claim as worded fails: [int[]] replaces [Integer[]] because
    [Integer[]] is the boxed-array counterpart of the candidate [int[]],
    although [int] cannot replace [Integer] and [int[]] is not the
    boxed-array counterpart of the declared [Integer[]]. *)
Lemma Array_canReplaceType_not_as_worded :
  _Array_canReplaceType t_intArray t_IntegerArray = Ok true
  /\ Type_canReplaceType t_int t_Integer = Ok false
  /\ Type_is (Type_getObjectType t_IntegerArray) t_intArray = false
  /\ ~ spec_array_canReplace t_intArray t_IntegerArray.
Proof.
  split; [reflexivity|]. split; [reflexivity|]. split; [reflexivity|].
  intros [(ce & de & Hce & Hde & Hfwd & _)|Hbox].
  - injection Hce as <-. injection Hde as <-. discriminate Hfwd.
  - discriminate Hbox.
Qed.

(** The two directions the source comment describes. *)
Lemma boxed_array_replaces_primitive_array :
  _Array_canReplaceType t_IntegerArray t_intArray = Ok true.
Proof. reflexivity. Qed.

Lemma primitive_array_replaces_boxed_array :
  _Array_canReplaceType t_intArray t_IntegerArray = Ok true.
Proof. reflexivity. Qed.

Lemma Double_replaces_double_only_one_way :
  Type_canReplaceType t_Double t_double = Ok true
  /\ Type_canReplaceType t_double t_Double = Ok false.
Proof. split; reflexivity. Qed.

(** ** Dimensions beyond two *)

Lemma doubleArray_coerceDatum_flat_no_nulls (v : ArrayType jdouble) :
  ARR_NDIM v <> 2%nat ->
  ARR_NULLBITMAP v = None ->
  let n := ArrayGetNItems (ARR_NDIM v) (ARR_DIMS v) in
  (n <= length (ARR_DATA v))%nat ->
  _doubleArray_coerceDatum v = Ok (JDoubleArray (take n (ARR_DATA v))).
Proof.
  intros Hdim Hbm n Hlen. unfold _doubleArray_coerceDatum, ARR_HASNULL.
  destruct (Nat.eqb_spec (ARR_NDIM v) 2) as [Heq|_]; [contradiction|].
  cbn [negb]. fold n. rewrite Hbm, payload_region_0, bind_Ok by exact Hlen.
  reflexivity.
Qed.

Lemma coerceObject_higher_dimensions (cls : string)
      (elems : list (option jobject)) :
  char_is cls 1 "[" = true ->
  char_is cls 2 "[" = true ->
  _floatArray_coerceObject (Some (JObjectArray cls elems))
  = Raise (ElogError "Higher dimensional arrays not supported")
  /\ _doubleArray_coerceObject (Some (JObjectArray cls elems))
     = Raise (ElogError "Higher dimensional arrays not supported").
Proof.
  intros H1 H2.
  unfold _floatArray_coerceObject, _doubleArray_coerceObject.
  cbn [PgObject_getClassName JNI_getArrayLength]. rewrite !bind_Ok, H1, H2.
  split; reflexivity.
Qed.

(** C4, as amended.  Managed to native, the float and double array coercers
    refuse an array of arrays of arrays with the error "Higher dimensional
    arrays not supported".  Native to managed, an array of more than two
    dimensions is not refused: the float coercer (and the double coercer, for
    an array without null bitmap) delivers all its items as one flat 1-D
    managed array. *)
Theorem higher_dimensions_by_direction :
  (forall cls elems,
      char_is cls 1 "[" = true -> char_is cls 2 "[" = true ->
      _floatArray_coerceObject (Some (JObjectArray cls elems))
      = Raise (ElogError "Higher dimensional arrays not supported")
      /\ _doubleArray_coerceObject (Some (JObjectArray cls elems))
         = Raise (ElogError "Higher dimensional arrays not supported"))
  /\ (forall v : ArrayType jfloat,
         (2 < ARR_NDIM v)%nat ->
         let n := ArrayGetNItems (ARR_NDIM v) (ARR_DIMS v) in
         (forall bm, ARR_NULLBITMAP v = Some bm -> covers bm (ARR_DATA v) n ->
            exists elems,
              _floatArray_coerceDatum v = Ok (JFloatArray elems)
              /\ length elems = n
              /\ forall k, (k < n)%nat ->
                   elems !! k = element_at float_of_0 bm (ARR_DATA v) k)
         /\ (ARR_NULLBITMAP v = None -> (n <= length (ARR_DATA v))%nat ->
             _floatArray_coerceDatum v = Ok (JFloatArray (take n (ARR_DATA v)))))
  /\ (forall v : ArrayType jdouble,
         (2 < ARR_NDIM v)%nat ->
         ARR_NULLBITMAP v = None ->
         let n := ArrayGetNItems (ARR_NDIM v) (ARR_DIMS v) in
         (n <= length (ARR_DATA v))%nat ->
         _doubleArray_coerceDatum v = Ok (JDoubleArray (take n (ARR_DATA v)))).
Proof.
  split; [exact coerceObject_higher_dimensions|]. split.
  - intros v Hdim. apply floatArray_coerceDatum_flat. lia.
  - intros v Hdim. apply doubleArray_coerceDatum_flat_no_nulls. lia.
Qed.

Lemma higher_dimensions_by_direction_witness :
  _floatArray_coerceObject (Some (JObjectArray "[[[F" []))
  = Raise (ElogError "Higher dimensional arrays not supported")
  /\ _floatArray_coerceDatum float_3d = Ok (JFloatArray [f_1; f_2]).
Proof.
  split.
  - apply (proj1 (proj1 higher_dimensions_by_direction "[[[F" [] eq_refl eq_refl)).
  - apply (proj2 (proj1 (proj2 higher_dimensions_by_direction) float_3d
                    ltac:(simpl; lia)) eq_refl).
    simpl. lia.
Defined.

(** C4, the claim as worded fails in the native to managed direction: the
    3-D array {{{1, 2}}} raises no error and comes out flattened. *)
Lemma three_dimensions_are_flattened :
  ARR_NDIM float_3d = 3%nat
  /\ _floatArray_coerceDatum float_3d = Ok (JFloatArray [f_1; f_2]).
Proof. split; reflexivity. Qed.

(** ** Round trips of 1-D arrays with a null bitmap *)

(** C5, as amended.  For a 1-D native array with a null bitmap:
    through the float coercers the array comes back WITHOUT a null bitmap,
    with zero stored for every element that was null and every other element
    unchanged at its index; through the object coercers, what the way back
    has assembled for the array construction when it calls it are one
    dimension of the original extent, the original null flags and the
    original stored values, provided the stored elements survive the element
    type's own round trip and the managed array class is one-dimensional.
    (Nothing is said of the lower bound passed along, which
    [_Array_coerceObject] reads through a pointer to a variable whose block
    has ended.) *)
Theorem round_trip_1d_with_null_bitmap :
  (forall (v : ArrayType jfloat) (bm : list Z) (n : nat),
      ARR_NDIM v = 1%nat -> ARR_DIMS v = [n] ->
      ARR_NULLBITMAP v = Some bm -> covers bm (ARR_DATA v) n ->
      exists elems,
        (o ← _floatArray_coerceDatum v; _floatArray_coerceObject (Some o))
        = Ok (Some (mkArrayType 1 [n] [1] None FLOAT4OID elems))
        /\ length elems = n
        /\ forall k, (k < n)%nat ->
             elems !! k = element_at float_of_0 bm (ARR_DATA v) k)
  /\ (forall (D : Type) (datum_0 : D) (elemType : ElemType D)
             (v : ArrayType D) (bm : list Z) (n : nat),
         ARR_NDIM v = 1%nat -> ARR_DIMS v = [n] ->
         ARR_NULLBITMAP v = Some bm -> covers bm (ARR_DATA v) n ->
         char_is (Type_getJavaArrayClassName elemType) 1 "[" = false ->
         elements_round_trip elemType (ARR_DATA v) ->
         exists lbounds slots,
           (o ← _Array_coerceDatum elemType v;
            Array_coerceObject_arguments datum_0 elemType (Some o))
           = Ok (1%nat, [n], lbounds, slots)
           /\ length slots = n
           /\ forall k, (k < n)%nat ->
                (snd <$> slots !! k) = Some (is_null_at bm k)
                /\ (fst <$> slots !! k)
                   = element_at datum_0 bm (ARR_DATA v) k).
Proof.
  split.
  - intros v bm n Hnd Hdims Hbm Hcov.
    destruct (floatArray_coerceDatum_flat v) as [Hnull _].
    { rewrite Hnd. discriminate. }
    rewrite Hnd, Hdims, ArrayGetNItems_1d in Hnull.
    destruct (Hnull bm Hbm Hcov) as (elems & Hto & Hlen & Hel).
    rewrite Hto, bind_Ok, floatArray_coerceObject_1d, Hlen.
    exists elems. auto.
  - intros D datum_0 elemType v bm n Hnd Hdims Hbm Hcov Hcls Hrt.
    destruct (Array_round_trip_1d datum_0 elemType v bm n
                Hnd Hdims Hbm Hcov Hcls Hrt) as (slots & Heq & Hlen & Hel).
    exists (after_its_block [1]), slots. auto.
Qed.

Lemma covers_float_1d_with_null :
  covers [5] (ARR_DATA float_1d_with_null) 3.
Proof. split; simpl; lia. Qed.

Lemma covers_Integer_1d_with_null :
  covers [5] (ARR_DATA Integer_1d_with_null) 3.
Proof. split; simpl; lia. Qed.

Lemma Integer_1d_with_null_elements :
  elements_round_trip Integer_elemType (ARR_DATA Integer_1d_with_null).
Proof.
  intros d Hd. apply list_elem_of_In in Hd. simpl in Hd.
  destruct Hd as [<-|[<-|[]]]; eexists; split; reflexivity.
Qed.

Lemma round_trip_1d_with_null_bitmap_witness :
  (exists elems,
      (o ← _floatArray_coerceDatum float_1d_with_null;
       _floatArray_coerceObject (Some o))
      = Ok (Some (mkArrayType 1 [3%nat] [1] None FLOAT4OID elems))
      /\ length elems = 3%nat
      /\ forall k, (k < 3)%nat ->
           elems !! k
           = element_at float_of_0 [5] (ARR_DATA float_1d_with_null) k)
  /\ (exists lbounds slots,
         (o ← _Array_coerceDatum Integer_elemType Integer_1d_with_null;
          Array_coerceObject_arguments Datum_0 Integer_elemType (Some o))
         = Ok (1%nat, [3%nat], lbounds, slots)
         /\ length slots = 3%nat
         /\ forall k, (k < 3)%nat ->
              (snd <$> slots !! k) = Some (is_null_at [5] k)
              /\ (fst <$> slots !! k)
                 = element_at Datum_0 [5] (ARR_DATA Integer_1d_with_null) k).
Proof.
  split.
  - apply (proj1 round_trip_1d_with_null_bitmap float_1d_with_null [5] 3%nat
             eq_refl eq_refl eq_refl covers_float_1d_with_null).
  - apply (proj2 round_trip_1d_with_null_bitmap Datum Datum_0 Integer_elemType
             Integer_1d_with_null [5] 3%nat
             eq_refl eq_refl eq_refl covers_Integer_1d_with_null eq_refl
             Integer_1d_with_null_elements).
Defined.

(** C5, the claim as worded fails: {1, NULL, 2} comes back from the float
    coercers as {1, 0, 2} with no null bitmap at all. *)
Lemma float_round_trip_loses_null_bitmap :
  ARR_NULLBITMAP float_1d_with_null = Some [5]
  /\ (o ← _floatArray_coerceDatum float_1d_with_null;
      _floatArray_coerceObject (Some o))
     = Ok (Some (mkArrayType 1 [3%nat] [1] None FLOAT4OID
                             [f_1; float_of_0; f_2])).
Proof. split; reflexivity. Qed.

(** ** Null placeholders *)

(** What C6 says of the float coercer holds: zero stands in for a null on
    the 1-D path, NaN on the 2-D path, and on both every non-null element is
    read from the payload offset that skips the nulls before it. *)
Lemma float_null_placeholders (v : ArrayType jfloat) (bm : list Z) :
  ARR_NULLBITMAP v = Some bm ->
  (forall n,
      ARR_NDIM v = 1%nat -> ARR_DIMS v = [n] -> covers bm (ARR_DATA v) n ->
      exists elems,
        _floatArray_coerceDatum v = Ok (JFloatArray elems)
        /\ length elems = n
        /\ forall k, (k < n)%nat ->
             elems !! k = element_at float_of_0 bm (ARR_DATA v) k)
  /\ (forall dim1 dim2,
         ARR_NDIM v = 2%nat -> ARR_DIMS v = [dim1; dim2] ->
         covers bm (ARR_DATA v) (dim1 * dim2) ->
         exists rows,
           _floatArray_coerceDatum v = Ok (rows_of_floats rows)
           /\ length rows = dim1
           /\ forall i, (i < dim1)%nat ->
                exists row, rows !! i = Some row /\ length row = dim2
                  /\ forall j, (j < dim2)%nat ->
                       row !! j = element_at NAN bm (ARR_DATA v) (i * dim2 + j)).
Proof.
  intros Hbm. split.
  - intros n Hnd Hdims Hcov.
    destruct (floatArray_coerceDatum_flat v) as [Hnull _].
    { rewrite Hnd. discriminate. }
    rewrite Hnd, Hdims, ArrayGetNItems_1d in Hnull. exact (Hnull bm Hbm Hcov).
  - intros dim1 dim2 Hnd Hdims Hcov.
    exact (floatArray_coerceDatum_2d_nulls v dim1 dim2 bm Hnd Hdims Hbm Hcov).
Qed.

(** C6 at the failing input: for the 1-D double array {1, NULL, 2} the
    coercer fills a managed array and then leaves the function without
    returning it, where the float coercer returns {1, 0, 2}. *)
Theorem doubleArray_1d_null_is_not_returned :
  _doubleArray_coerceDatum double_1d_with_null
  = Raise (Undefined "_doubleArray_coerceDatum: no return statement")
  /\ _floatArray_coerceDatum float_1d_with_null
     = Ok (JFloatArray [f_1; float_of_0; f_2]).
Proof. split; reflexivity. Qed.

(** ** The explicit parameter declaration *)

Lemma Type_canReplaceType_error (self other : Type_) (e : error) :
  Type_canReplaceType self other = Raise e -> is_count_error e = false.
Proof.
  revert other.
  induction self as [a cls tid elem obj IH _] using Type__ind_elem.
  intros other. destruct cls as [ca cn sig jn slot co inv].
  destruct slot; simpl; try discriminate.
  unfold Array_canReplaceType_body, Type_getElementType. simpl.
  destruct (elementType other) as [oe|]; [|discriminate].
  destruct elem as [se|].
  - intros H. apply bind_Raise_inv in H as [H|(r & _ & H)].
    + exact (IH se eq_refl oe H).
    + destruct r; discriminate.
  - intros H. injection H as <-. reflexivity.
Qed.

Lemma registry_result_error {A} (what : string) (r : option A) (e : error) :
  registry_result what r = Raise e -> is_count_error e = false.
Proof. destruct r; [discriminate|]. intros H. injection H as <-. reflexivity. Qed.

Lemma replace_default_error (E : Env) (self : Function_) (dfltIds : list Oid)
      (idx : nat) (sign : string) (e : error) :
  replace_default E self dfltIds idx sign = Raise e -> is_count_error e = false.
Proof.
  unfold replace_default, param_at. intros H.
  apply bind_Raise_inv in H as [H|(deflt & _ & H)].
  { destruct (paramTypes self) as [types|].
    - destruct (types !! idx); [discriminate|]. injection H as <-. reflexivity.
    - injection H as <-. reflexivity. }
  destruct (String.eqb _ sign); [discriminate|].
  apply bind_Raise_inv in H as [H|(did & _ & H)].
  { destruct (returnComplex self && _); [discriminate|].
    destruct (dfltIds !! idx); [discriminate|]. injection H as <-. reflexivity. }
  apply bind_Raise_inv in H as [H|(repl & _ & H)].
  { exact (registry_result_error _ _ _ H). }
  apply bind_Raise_inv in H as [H|(ok & _ & H)].
  { exact (Type_canReplaceType_error _ _ _ H). }
  destruct ok; [discriminate|]. injection H as <-. reflexivity.
Qed.

Ltac other_error He :=
  split; [intros ? H; discriminate H
         |split; intros ? H; injection H as ->; discriminate He].

(** The entries counted by [idx] when the loop stops, against [top]. *)
Lemma parse_loop_entries (E : Env) (dfltIds : list Oid) (top : nat)
      (paramDecl : list ascii) (self : Function_) (idx : nat)
      (spaceSeen : bool) (sign : string) :
  let r := parse_loop E dfltIds top paramDecl self idx spaceSeen sign in
  (forall f, r = Ok f -> (idx + declared_entries paramDecl = top)%nat)
  /\ (forall n, r = Raise (SyntaxError (TooManyParameters n)) ->
        n = top /\ (top < idx + declared_entries paramDecl)%nat)
  /\ (forall n, r = Raise (SyntaxError (TooFewParameters n)) ->
        n = top /\ (idx + declared_entries paramDecl < top)%nat).
Proof.
  revert self idx spaceSeen sign.
  induction paramDecl as [|c rest IH]; intros self idx spaceSeen sign r.
  - subst r. unfold declared_entries. cbn [parse_loop commas_before_close].
    destruct (Nat.leb_spec top idx) as [Hle|Hlt].
    { split; [intros f H; discriminate H|split; intros n H].
      - injection H as <-. split; [reflexivity|lia].
      - discriminate H. }
    destruct spaceSeen; (split; [|split]); intros ? H; discriminate H.
  - subst r. unfold declared_entries in *. cbn [parse_loop commas_before_close].
    destruct (isspace c) eqn:Hsp.
    { assert (Hc1 : is_char ")" c = false).
      { unfold is_char. destruct (Ascii.eqb_spec c ")") as [->|]; [discriminate|reflexivity]. }
      assert (Hc2 : is_char "," c = false).
      { unfold is_char. destruct (Ascii.eqb_spec c ",") as [->|]; [discriminate|reflexivity]. }
      rewrite Hc1, Hc2. apply IH. }
    destruct (Nat.leb_spec top idx) as [Hle|Hlt].
    { split; [intros f H; discriminate H|split; intros n H].
      - injection H as <-. split; [reflexivity|lia].
      - discriminate H. }
    destruct (is_char ")" c) eqn:Hclose.
    { rewrite orb_true_r.
      destruct (replace_default E self dfltIds idx sign) as [self'|e] eqn:Hrep.
      - rewrite bind_Ok. destruct (Nat.eqb_spec (S idx) top) as [Heq|Hne]; cbn [negb].
        + split; [intros f _; lia|split; intros n H; discriminate H].
        + split; [intros f H; discriminate H|split; intros n H].
          * discriminate H.
          * injection H as <-. split; [reflexivity|lia].
      - rewrite bind_Raise.
        pose proof (replace_default_error _ _ _ _ _ _ Hrep) as He.
        other_error He. }
    destruct (is_char "," c) eqn:Hcomma.
    { cbn [orb].
      destruct (replace_default E self dfltIds idx sign) as [self'|e] eqn:Hrep.
      - rewrite bind_Ok.
        destruct (IH self' (S idx) false "") as (H1 & H2 & H3).
        split; [intros f H|split; intros n H].
        + specialize (H1 f H). lia.
        + destruct (H2 n H). split; [assumption|lia].
        + destruct (H3 n H). split; [assumption|lia].
      - rewrite bind_Raise.
        pose proof (replace_default_error _ _ _ _ _ _ Hrep) as He.
        other_error He. }
    cbn [orb]. destruct spaceSeen.
    { split; [|split]; intros ? H; discriminate H. }
    apply IH.
Qed.

Lemma counts_agree_error (declared expected : nat) (e : error) :
  is_count_error e = false -> counts_agree declared expected (Raise e).
Proof. intros He. other_error He. Qed.

Lemma counts_agree_bind {A} (declared expected : nat) (m : result A)
      (f : A -> result Function_) :
  (forall e, m = Raise e -> is_count_error e = false) ->
  (forall a, m = Ok a -> counts_agree declared expected (f a)) ->
  counts_agree declared expected (m ≫= f).
Proof.
  intros Herr Hok. destruct m as [a|e].
  - rewrite bind_Ok. apply Hok. reflexivity.
  - rewrite bind_Raise. apply counts_agree_error. apply Herr. reflexivity.
Qed.

Lemma getValidTuple_error {A} (cache : Oid -> option A) (id : Oid)
      (what : string) (e : error) :
  PgObject_getValidTuple cache id what = Raise e -> is_count_error e = false.
Proof.
  unfold PgObject_getValidTuple. destruct (cache id); [discriminate|].
  intros H. injection H as <-. reflexivity.
Qed.

Lemma getValidTuple_Some {A} (cache : Oid -> option A) (id : Oid)
      (what : string) (a : A) :
  cache id = Some a -> PgObject_getValidTuple cache id what = Ok a.
Proof. unfold PgObject_getValidTuple. intros ->. reflexivity. Qed.

Lemma check_exception_error {A} (r : java_call A) (msg : string) (e : error) :
  check_exception r msg = Raise e -> is_count_error e = false.
Proof.
  destruct r as [a|[|]]; simpl; [discriminate| |];
    intros H; injection H as <-; reflexivity.
Qed.

Lemma scan_source_error (src : list ascii) (e : error) :
  scan_source src = Raise e -> is_count_error e = false.
Proof.
  unfold scan_source. intros H.
  apply bind_Raise_inv in H as [H|(last & _ & H)].
  - destruct (char_at _ _); [discriminate|]. injection H as <-. reflexivity.
  - destruct (if is_char ")" last then _ else _) as [[ip nameEp] paramDecl].
    destruct (_ <=? _); [|discriminate]. injection H as <-. reflexivity.
Qed.

Lemma method_name_error (src : list ascii) (sc : scan_result) (e : error) :
  method_name src sc = Raise e -> is_count_error e = false.
Proof.
  unfold method_name. destruct (_ <? _); [|discriminate].
  intros H. injection H as <-. reflexivity.
Qed.

Lemma Function_buildSignature_error (self : Function_) (t : option Type_)
      (e : error) :
  Function_buildSignature self t = Raise e -> is_count_error e = false.
Proof.
  unfold Function_buildSignature. intros H.
  apply bind_Raise_inv in H as [H|(params & _ & H)].
  - destruct (paramTypes self).
    + destruct (_ <=? _)%nat; [discriminate|]. injection H as <-. reflexivity.
    + destruct (_ =? _)%nat; [discriminate|]. injection H as <-. reflexivity.
  - apply bind_Raise_inv in H as [H|(ret & _ & H)]; [|discriminate].
    destruct t; [discriminate|]. injection H as <-. reflexivity.
Qed.

Lemma Function_init_resolve_error (E : Env) (methodName : string)
      (self : Function_) (e : error) :
  (Function_init_resolve E methodName self).2 = Raise e ->
  is_count_error e = false.
Proof.
  unfold Function_init_resolve, PgObject_throwMemberError.
  destruct (Function_buildSignature self (returnType self)) as [sign|e0] eqn:Hs.
  2:{ simpl. intros H. injection H as <-.
      exact (Function_buildSignature_error _ _ _ Hs). }
  destruct (clazz self) as [cls|].
  2:{ simpl. intros H. injection H as <-. reflexivity. }
  destruct (GetStaticMethodID E cls methodName sign); [discriminate|].
  destruct (returnType self) as [rt|].
  2:{ simpl. intros H. injection H as <-. reflexivity. }
  destruct (Type_isPrimitive rt).
  - destruct (Function_buildSignature self (Type_getObjectType rt)) as [s'|e1] eqn:Hs'.
    + simpl. destruct (GetStaticMethodID E cls methodName s'); [discriminate|].
      intros H. injection H as <-. reflexivity.
    + simpl. intros H. injection H as <-.
      exact (Function_buildSignature_error _ _ _ Hs').
  - simpl. intros H. injection H as <-. reflexivity.
Qed.

Lemma catalog_params_error (E : Env) (typeIds : list Oid) (count idx : nat)
      (e : error) :
  catalog_params E typeIds idx count = Raise e -> is_count_error e = false.
Proof.
  revert idx. induction count as [|count IH]; intros idx; simpl; [discriminate|].
  intros H.
  apply bind_Raise_inv in H as [H|(typeId & _ & H)].
  { destruct (typeIds !! idx); [discriminate|]. injection H as <-. reflexivity. }
  apply bind_Raise_inv in H as [H|(pgType & _ & H)].
  { exact (getValidTuple_error _ _ _ _ H). }
  apply bind_Raise_inv in H as [H|(t & _ & H)].
  { destruct (is_char "c" _); exact (registry_result_error _ _ _ H). }
  apply bind_Raise_inv in H as [H|(rest & _ & H)]; [|discriminate].
  exact (IH _ H).
Qed.

Lemma Function_init_return_error (E : Env) (p : Form_pg_proc)
      (self : Function_) (e : error) :
  Function_init_return E p self = Raise e -> is_count_error e = false.
Proof.
  unfold Function_init_return. destruct (proretset p).
  - intros H. apply bind_Raise_inv in H as [H|(ret & _ & H)]; [|discriminate].
    exact (registry_result_error _ _ _ H).
  - intros H. apply bind_Raise_inv in H as [H|(pgType & _ & H)].
    { exact (getValidTuple_error _ _ _ _ H). }
    destruct (is_char "c" (typtype pgType)).
    + apply bind_Raise_inv in H as [H|(c & _ & H)].
      { exact (registry_result_error _ _ _ H). }
      apply bind_Raise_inv in H as [H|(ret & _ & H)]; [|discriminate].
      exact (registry_result_error _ _ _ H).
    + apply bind_Raise_inv in H as [H|(ret & _ & H)]; [|discriminate].
      exact (registry_result_error _ _ _ H).
Qed.

(** What lines 380-417 leave in the descriptor. *)
Lemma Function_init_return_shape (E : Env) (p : Form_pg_proc)
      (self : Function_) (r : option Type_ * Function_) :
  returnComplex self = false ->
  Function_init_return E p self = Ok r ->
  numParams r.2 = expected_entries E p
  /\ returnComplex r.2 = returns_complex E p
  /\ clazz r.2 = clazz self
  /\ (if returns_complex E p
      then exists writer boolean,
          Type_fromJavaType E (prorettype p)
                            "org.postgresql.pljava.jdbc.SingleRowWriter"
          = Ok writer
          /\ Type_fromOid E BOOLOID = Ok boolean
          /\ r.1 = Some writer /\ returnType r.2 = Some boolean
      else r.1 = None).
Proof.
  intros Hrc. unfold Function_init_return, expected_entries, returns_complex.
  destruct (proretset p); cbn [negb andb].
  - intros H. apply bind_Ok_inv in H as (ret & _ & H). injection H as <-.
    simpl. rewrite Nat.add_0_r. auto.
  - intros H. apply bind_Ok_inv in H as (pgType & Hty & H).
    unfold PgObject_getValidTuple in Hty.
    destruct (pg_type E (prorettype p)) as [ty|]; [|discriminate].
    injection Hty as ->.
    destruct (is_char "c" (typtype pgType)).
    + apply bind_Ok_inv in H as (c & Hc & H).
      apply bind_Ok_inv in H as (ret & Hret & H). injection H as <-.
      simpl. split; [lia|]. split; [reflexivity|]. split; [reflexivity|].
      exists c, ret. auto.
    + apply bind_Ok_inv in H as (ret & _ & H). injection H as <-.
      simpl. rewrite Nat.add_0_r. auto.
Qed.

Lemma Function_init_params_counts (E : Env) (p : Form_pg_proc)
      (decl : list ascii) (complex : option Type_) (self : Function_) :
  (0 < numParams self)%nat ->
  counts_agree (declared_entries decl) (numParams self)
               (Function_init_params E p (Some decl) complex self).
Proof.
  intros Hpos. unfold Function_init_params.
  destruct (Nat.ltb_spec 0 (numParams self)) as [_|]; [|lia].
  apply counts_agree_bind.
  - intros e. apply catalog_params_error.
  - intros params _. unfold Function_parseParameters.
    apply (parse_loop_entries E (proargtypes p) (numParams self) decl).
Qed.

Lemma Function_init_counts (E : Env) (functionId : Oid) (p : Form_pg_proc)
      (sc : scan_result) (decl : list ascii) :
  pg_proc E functionId = Some p ->
  scan_source (list_ascii_of_string (prosrc p)) = Ok sc ->
  param_decl_text (list_ascii_of_string (prosrc p)) sc = Some decl ->
  (0 < expected_entries E p)%nat ->
  counts_agree (declared_entries decl) (expected_entries E p)
               (Function_init E functionId false).
Proof.
  intros Hp Hsc Hdecl Hpos. unfold Function_init.
  rewrite (getValidTuple_Some _ _ _ _ Hp), bind_Ok, Hsc, bind_Ok.
  apply counts_agree_bind; [intros e; apply getValidTuple_error|].
  intros schemaName _.
  apply counts_agree_bind; [intros e; apply check_exception_error|].
  intros loader _.
  apply counts_agree_bind; [intros e; apply check_exception_error|].
  intros loaded _.
  apply counts_agree_bind; [intros e; apply method_name_error|].
  intros methodName _. rewrite Hdecl.
  unfold Function_init_types.
  set (self0 := set_clazz (Some loaded) (set_returnComplex false Function_zero)).
  destruct (Function_init_return E p self0) as [r|e] eqn:Hret.
  2:{ rewrite !bind_Raise. apply counts_agree_error.
      exact (Function_init_return_error _ _ _ _ Hret). }
  rewrite bind_Ok.
  destruct (Function_init_return_shape E p self0 r eq_refl Hret) as (Hn & _).
  pose proof (Function_init_params_counts E p decl r.1 r.2 ltac:(lia)) as Hc.
  rewrite Hn in Hc.
  destruct (Function_init_params E p (Some decl) r.1 r.2) as [self1|e] eqn:Hpar.
  - rewrite bind_Ok. destruct Hc as (Hok & _ & _).
    specialize (Hok self1 eq_refl).
    split; [intros f _; exact Hok|].
    split; intros n H;
      pose proof (Function_init_resolve_error _ _ _ _ H) as He; discriminate He.
  - rewrite bind_Raise. exact Hc.
Qed.

(** ** The function cache *)

Lemma pfree_allocated (p : positive) (M : Memory) :
  p ∈ chunks M ->
  pfree p M = Ok (set_chunks (chunks M ∖ {[p]}) M).
Proof. intros Hp. unfold pfree. rewrite decide_True by exact Hp. reflexivity. Qed.

Lemma pfree_keeps_maps (p : positive) (M M' : Memory) :
  pfree p M = Ok M' ->
  functions M' = functions M /\ s_funcMap M' = s_funcMap M.
Proof.
  unfold pfree. destruct (decide _); [|discriminate].
  intros H. injection H as <-. split; reflexivity.
Qed.

Lemma free_each_keeps_maps (types : list Type_) (M M' : Memory) :
  free_each types M = Ok M' ->
  functions M' = functions M /\ s_funcMap M' = s_funcMap M.
Proof.
  revert M. induction types as [|t rest IH]; intros M; simpl.
  - intros H. injection H as <-. split; reflexivity.
  - intros H. apply bind_Ok_inv in H as (M1 & H1 & H).
    unfold PgObject_free, Type_finalize in H1.
    destruct (decide _); [|discriminate]. rewrite bind_Ok in H1.
    destruct (pfree_keeps_maps _ _ _ H1) as [Hf Hs].
    destruct (IH _ H) as [Hf' Hs']. split; congruence.
Qed.

Lemma Function_finalize_keeps_maps (self : positive) (M M' : Memory) :
  _Function_finalize self M = Ok M' ->
  functions M' = functions M /\ s_funcMap M' = s_funcMap M.
Proof.
  unfold _Function_finalize.
  destruct (functions M !! self) as [[f bp]|]; [|discriminate].
  destruct (paramTypes f) as [types|].
  - destruct (_ <=? _)%nat; [|discriminate].
    intros H. apply bind_Ok_inv in H as (M1 & H1 & H).
    destruct (free_each_keeps_maps _ _ _ H1) as [Hf Hs].
    destruct (pfree_keeps_maps _ _ _ H) as [Hf' Hs']. split; congruence.
  - intros H. injection H as <-. split; reflexivity.
Qed.

Lemma insert_maps (functionId : Oid) (func : positive) (M : Memory)
      (func' : positive) (M' : Memory) :
  Function_getFunction_insert functionId func M = Ok (func', M') ->
  func' = func
  /\ s_funcMap M' = <[functionId := func]> (s_funcMap M)
  /\ functions M' = functions M.
Proof.
  unfold Function_getFunction_insert, HashMap_putByOid.
  destruct (s_funcMap M !! functionId) as [old|].
  - intros H. apply bind_Ok_inv in H as (M2 & H2 & H). injection H as <- <-.
    unfold PgObject_free, Function_finalize in H2.
    destruct (decide _); [|discriminate].
    apply bind_Ok_inv in H2 as (M3 & H3 & H2).
    destruct (Function_finalize_keeps_maps _ _ _ H3) as [Hf Hs].
    destruct (pfree_keeps_maps _ _ _ H2) as [Hf' Hs'].
    simpl in Hf, Hs. split; [reflexivity|]. split; congruence.
  - intros H. injection H as <- <-. simpl. auto.
Qed.

(** C10.  Once [s_funcMap] holds a descriptor for a routine identifier,
    [Function_getFunction] returns that descriptor, and changes nothing,
    whatever [isTrigger] it is passed; so after any call that returned a
    descriptor (found or just created), every later call for the identifier
    returns the same one, with the shape its creator gave it. *)
Theorem getFunction_returns_the_cached_descriptor
        (E : Env) (functionId : Oid) (M : Memory) :
  (forall func, HashMap_getByOid M functionId = Some func ->
     forall isTrigger,
       Function_getFunction E functionId isTrigger M = Ok (func, M))
  /\ (forall isTrigger func M',
         Function_getFunction E functionId isTrigger M = Ok (func, M') ->
         HashMap_getByOid M' functionId = Some func
         /\ forall isTrigger',
              Function_getFunction E functionId isTrigger' M' = Ok (func, M')).
Proof.
  assert (Hcached : forall M0 func, HashMap_getByOid M0 functionId = Some func ->
            forall isTrigger,
              Function_getFunction E functionId isTrigger M0 = Ok (func, M0)).
  { intros M0 func Hget isTrigger. unfold Function_getFunction.
    rewrite Hget. reflexivity. }
  split; [exact (Hcached M)|].
  intros isTrigger func M' Hcall.
  assert (Hget : HashMap_getByOid M' functionId = Some func).
  { unfold Function_getFunction in Hcall.
    destruct (HashMap_getByOid M functionId) as [cached|] eqn:Hlook.
    - injection Hcall as <- <-. exact Hlook.
    - apply bind_Ok_inv in Hcall as (r & _ & Hins).
      destruct (insert_maps _ _ _ _ _ Hins) as (-> & Hmap & _).
      unfold HashMap_getByOid. rewrite Hmap. apply lookup_insert_eq. }
  split; [exact Hget|]. exact (Hcached M' func Hget).
Qed.

Lemma getFunction_returns_the_cached_descriptor_witness :
  exists func M',
    Function_getFunction sample_env 1007 true sample_memory = Ok (func, M')
    /\ HashMap_getByOid M' 1007 = Some func
    /\ forall isTrigger',
         Function_getFunction sample_env 1007 isTrigger' M' = Ok (func, M').
Proof.
  destruct (Function_getFunction sample_env 1007 true sample_memory)
    as [[func M']|e] eqn:Hcall; [|vm_compute in Hcall; discriminate Hcall].
  exists func, M'. split; [reflexivity|].
  exact (proj2 (getFunction_returns_the_cached_descriptor
                  sample_env 1007 sample_memory) true func M' Hcall).
Defined.

(** The routine 1007 bound first as a trigger keeps the trigger shape (one
    parameter) when it is later asked for as an ordinary function, which on
    its own would be bound with no parameter. *)
Lemma trigger_shape_is_kept :
  (r ← Function_getFunction sample_env 1007 true sample_memory;
   r' ← Function_getFunction sample_env 1007 false r.2;
   Ok ((fun x => numParams x.1) <$> functions r'.2 !! r'.1))
  = Ok (Some 1%nat)
  /\ (f ← Function_init sample_env 1007 false; Ok (numParams f)) = Ok 0%nat.
Proof. split; vm_compute; reflexivity. Qed.

(** ** What discarding a descriptor releases *)

Lemma free_each_releases (types : list Type_) (M : Memory) :
  NoDup (map t_addr types) ->
  (forall p, p ∈ map t_addr types -> p ∈ chunks M) ->
  free_each types M
  = Ok (set_chunks (chunks M ∖ list_to_set (map t_addr types)) M).
Proof.
  revert M. induction types as [|t rest IH]; intros M Hnd Hin.
  - simpl. f_equal. destruct M as [c f s]. unfold set_chunks. simpl.
    f_equal. set_solver.
  - simpl in Hnd. apply NoDup_cons in Hnd as [Hnotin Hnd].
    simpl free_each. unfold PgObject_free, Type_finalize.
    rewrite decide_True by (apply Hin; simpl; set_solver).
    rewrite bind_Ok, pfree_allocated by (apply Hin; simpl; set_solver).
    rewrite bind_Ok, IH.
    + f_equal. destruct M as [c f s]. unfold set_chunks. simpl.
      f_equal. set_solver.
    + exact Hnd.
    + intros p Hp. simpl. apply elem_of_difference. split.
      * apply Hin. simpl. set_solver.
      * intros Heq. apply elem_of_singleton in Heq. subst p. contradiction.
Qed.

(** What [PgObject_free(old)] of [Function_getFunction] releases when the
    insertion finds a descriptor [old] already in the map, the Type
    descriptors of its parameter array being distinct live objects: every
    one of these Type descriptors, then the array, then the descriptor
    itself, and nothing else; the map is left holding the new descriptor. *)
Theorem discarding_releases_the_parameter_types
        (functionId : Oid) (func old bp : positive) (f : Function_)
        (types : list Type_) (M : Memory)
  (Hold : HashMap_getByOid M functionId = Some old)
  (Hobj : functions M !! old = Some (f, bp))
  (Hparams : paramTypes f = Some types)
  (Hnum : numParams f = length types)
  (Hdistinct : NoDup (released old bp types))
  (Hlive : forall p, p ∈ released old bp types -> p ∈ chunks M) :
  exists M',
    Function_getFunction_insert functionId func M = Ok (func, M')
    /\ chunks M' = chunks M ∖ list_to_set (released old bp types)
    /\ (forall t, t ∈ types -> t_addr t ∉ chunks M')
    /\ s_funcMap M' = <[functionId := func]> (s_funcMap M)
    /\ functions M' = functions M.
Proof.
  unfold released in *.
  apply NoDup_app in Hdistinct as (Hnd & Hdisj & Hnd2).
  apply NoDup_cons in Hnd2 as [Hbp _].
  assert (Hbp' : bp <> old) by set_solver.
  assert (Hold_live : old ∈ chunks M) by (apply Hlive; set_solver).
  assert (Hbp_live : bp ∈ chunks M) by (apply Hlive; set_solver).
  assert (Hty_live : forall p, p ∈ map t_addr types -> p ∈ chunks M)
    by (intros p Hp; apply Hlive; set_solver).
  assert (Hty_bp : bp ∉ map t_addr types) by (intros Hin; apply (Hdisj bp Hin); set_solver).
  assert (Hty_old : old ∉ map t_addr types) by (intros Hin; apply (Hdisj old Hin); set_solver).
  unfold Function_getFunction_insert, HashMap_putByOid.
  unfold HashMap_getByOid in Hold. rewrite Hold.
  unfold PgObject_free, Function_finalize. cbn [chunks].
  rewrite decide_True by exact Hold_live.
  unfold _Function_finalize. cbn [functions]. rewrite Hobj, Hparams, Hnum.
  rewrite Nat.leb_refl, firstn_all.
  rewrite free_each_releases; [|exact Hnd|exact Hty_live].
  rewrite bind_Ok, pfree_allocated by (cbn; set_solver).
  rewrite bind_Ok, pfree_allocated by (cbn; set_solver).
  rewrite bind_Ok. eexists. split; [reflexivity|]. cbn.
  split; [set_solver|]. split; [|split; reflexivity].
  intros t Ht. assert (t_addr t ∈ map t_addr types) by (apply list_elem_of_fmap; eauto).
  set_solver.
Qed.

Lemma discarding_releases_the_parameter_types_witness :
  exists M',
    Function_getFunction_insert 1001 27 sample_memory_bound = Ok (27%positive, M')
    /\ chunks M' = chunks sample_memory_bound
                   ∖ list_to_set (released 25 26 [t_int])
    /\ (forall t, t ∈ [t_int] -> t_addr t ∉ chunks M')
    /\ s_funcMap M' = <[1001 := 27%positive]> (s_funcMap sample_memory_bound)
    /\ functions M' = functions sample_memory_bound.
Proof.
  apply (discarding_releases_the_parameter_types
           1001 27 25 26 sample_descriptor [t_int] sample_memory_bound).
  - reflexivity.
  - reflexivity.
  - reflexivity.
  - reflexivity.
  - apply (bool_decide_unpack _). vm_compute. exact I.
  - intros p Hp. apply (bool_decide_unpack _).
    apply list_elem_of_In in Hp. simpl in Hp.
    destruct Hp as [<-|[<-|[<-|[]]]]; vm_compute; exact I.
Defined.

(** The condition that the parameter types are distinct objects matters: a
    descriptor with two [int] parameters refers to the one [int] descriptor
    twice, and the loop of [_Function_finalize] hands it to [PgObject_free] a
    second time after it was freed. *)
Lemma repeated_parameter_type_is_freed_twice :
  Function_getFunction_insert 1001 27
    (mkMemory ({[25%positive; 26%positive]} ∪ chunks sample_memory)
              {[25%positive :=
                  (mkFunction false 2 (Some [t_int; t_int]) (Some t_int)
                              (Some 10%positive) (Some 100%positive),
                   26%positive)]}
              {[1001 := 25%positive]})
  = Raise (Undefined "object used after it was freed").
Proof. vm_compute. reflexivity. Qed.

(** C8.  The code at two racing creations of routine 1001, which has one
    [int] parameter: the descriptor inserted first is discarded, and with it
    the chunk of the shared [int] Type descriptor is freed by the loop of
    [_Function_finalize], while the descriptor that stays in the map still
    refers to it.  The claim has only the private parameter array released
    on this path. *)
Lemma race_frees_a_shared_type :
  exists loser winner M f bp,
    (racing_creations sample_env 1001 false false sample_memory
     = Ok (loser, winner, M))
    /\ (loser <> winner)
    /\ (t_addr t_int ∈ chunks sample_memory)
    /\ (t_addr t_int ∉ chunks M)
    /\ (HashMap_getByOid M 1001 = Some winner)
    /\ (functions M !! winner = Some (f, bp))
    /\ (paramTypes f = Some [t_int]).
Proof.
  destruct (racing_creations sample_env 1001 false false sample_memory)
    as [[[loser winner] M]|e] eqn:Hrace;
    vm_compute in Hrace; [|discriminate Hrace].
  injection Hrace as <- <- <-.
  eexists _, _, _, sample_descriptor, 28%positive.
  split; [reflexivity|]. split; [discriminate|].
  split; [apply (bool_decide_unpack _); vm_compute; exact I|].
  split.
  { intros Hin. apply (bool_decide_pack _) in Hin. vm_compute in Hin. exact Hin. }
  split; [vm_compute; reflexivity|].
  split; [vm_compute; reflexivity|reflexivity].
Qed.

(** ** C1: the declared entries against the parameters *)

Lemma expected_entries_complex (E : Env) (p : Form_pg_proc) :
  expected_entries E p
  = if returns_complex E p then S (pronargs p) else pronargs p.
Proof. unfold expected_entries. destruct (returns_complex E p); lia. Qed.

(** C1, the claim as worded fails both ways on complex-return routines.
    Routine 1002 has one catalog parameter and declares one entry, "(int)":
    binding fails with "To few parameters - expected 2".  Routine 1003 has
    one catalog parameter and declares two entries, the second for the row
    writer: binding succeeds. *)
Lemma writer_is_an_entry_of_the_declaration :
  (pronargs <$> sample_pg_proc 1002 = Some 1%nat
   /\ declared_entries (list_ascii_of_string "int)") = 1%nat
   /\ Function_init sample_env 1002 false
      = Raise (SyntaxError (TooFewParameters 2)))
  /\ (pronargs <$> sample_pg_proc 1003 = Some 1%nat
      /\ declared_entries (list_ascii_of_string "int, java.sql.ResultSet)")
         = 2%nat
      /\ is_Ok (Function_init sample_env 1003 false) = true).
Proof. repeat split; vm_compute; reflexivity. Qed.

(** Without any parameter to bind the declaration is not parsed at all. *)
Lemma declaration_is_not_parsed_without_parameters
      (E : Env) (functionId : Oid) (p : Form_pg_proc) (e : error) :
  pg_proc E functionId = Some p ->
  expected_entries E p = 0%nat ->
  Function_init E functionId false = Raise e ->
  is_count_error e = false.
Proof.
  intros Hp Hzero. unfold Function_init.
  rewrite (getValidTuple_Some _ _ _ _ Hp), bind_Ok. intros H.
  apply bind_Raise_inv in H as [H|(sc & _ & H)];
    [exact (scan_source_error _ _ H)|].
  apply bind_Raise_inv in H as [H|(ns & _ & H)];
    [exact (getValidTuple_error _ _ _ _ H)|].
  apply bind_Raise_inv in H as [H|(loader & _ & H)];
    [exact (check_exception_error _ _ _ H)|].
  apply bind_Raise_inv in H as [H|(loaded & _ & H)];
    [exact (check_exception_error _ _ _ H)|].
  apply bind_Raise_inv in H as [H|(methodName & _ & H)];
    [exact (method_name_error _ _ _ H)|].
  apply bind_Raise_inv in H as [H|(self & _ & H)];
    [|exact (Function_init_resolve_error _ _ _ _ H)].
  unfold Function_init_types in H.
  apply bind_Raise_inv in H as [H|(r & Hr & H)];
    [exact (Function_init_return_error _ _ _ _ H)|].
  destruct (Function_init_return_shape E p
              (set_clazz (Some loaded) (set_returnComplex false Function_zero))
              r eq_refl Hr) as (Hn & _).
  unfold Function_init_params in H. rewrite Hn, Hzero in H.
  discriminate H.
Qed.

Lemma declaration_ignored_example :
  pronargs <$> sample_pg_proc 1008 = Some 0%nat
  /\ prosrc <$> sample_pg_proc 1008 = Some "pkg.Util.fire(int)"
  /\ is_Ok (Function_init sample_env 1008 false) = true.
Proof. repeat split; vm_compute; reflexivity. Qed.

(** ** C2: the boxed-return fallback *)






(** The scenarios of the specification on the sample installation: routine
    1001, [pkg.Util.addOne(int)], adds one to 41; routine 1005, whose method
    exists only with the boxed return type, binds by fallback and returns
    the same value; routine 1006, whose method does not exist, reports the
    original signature. *)
Lemma fallback_scenarios :
  (f ← Function_init sample_env 1001 false;
   Function_invoke sample_env f [Some (Int32GetDatum 41)])
  = Ok (Int32GetDatum 42, false)
  /\ (f ← Function_init sample_env 1005 false;
      Function_invoke sample_env f [Some (Int32GetDatum 41)])
     = Ok (Int32GetDatum 42, false)
  /\ (f ← Function_init sample_env 1005 false; Ok (returnType f))
     = Ok (Some t_Integer)
  /\ Function_init sample_env 1006 false
     = Raise (MemberError "missing" "(I)I" true true).
Proof. repeat split; vm_compute; reflexivity. Qed.

(** ** C3: the descriptor of a complex-return routine *)

Lemma same_but_params_refl (f : Function_) : same_but_params f f.
Proof. repeat split. Qed.

Lemma same_but_params_trans (f g h : Function_) :
  same_but_params f g -> same_but_params g h -> same_but_params f h.
Proof.
  intros (A1 & A2 & A3 & A4 & A5) (B1 & B2 & B3 & B4 & B5).
  repeat split; congruence.
Qed.

Lemma replace_default_shape (E : Env) (self self' : Function_)
      (dfltIds : list Oid) (idx : nat) (sign : string) (types : list Type_) :
  replace_default E self dfltIds idx sign = Ok self' ->
  paramTypes self = Some types ->
  same_but_params self' self
  /\ exists types',
      paramTypes self' = Some types'
      /\ length types' = length types
      /\ (forall i, i <> idx -> types' !! i = types !! i)
      /\ exists t0 t, types !! idx = Some t0 /\ types' !! idx = Some t
                      /\ kept_or_replaced t0 t.
Proof.
  unfold replace_default, param_at. intros H Htypes. rewrite Htypes in H.
  destruct (types !! idx) as [deflt|] eqn:Hdeflt; [|discriminate].
  rewrite bind_Ok in H.
  destruct (String.eqb _ sign).
  - injection H as <-. split; [apply same_but_params_refl|].
    exists types. split; [exact Htypes|]. split; [reflexivity|].
    split; [reflexivity|]. exists deflt, deflt. split; [reflexivity|].
    split; [exact Hdeflt|]. left. reflexivity.
  - apply bind_Ok_inv in H as (did & _ & H).
    apply bind_Ok_inv in H as (repl & _ & H).
    apply bind_Ok_inv in H as (ok & Hok & H).
    destruct ok; [|discriminate]. injection H as <-.
    split; [repeat split|].
    exists (<[idx := repl]> types).
    split; [reflexivity|]. split; [apply length_insert|].
    split; [intros i Hi; apply list_lookup_insert_ne; congruence|].
    exists deflt, repl. split; [reflexivity|]. split.
    + apply list_lookup_insert_eq. apply lookup_lt_Some in Hdeflt. exact Hdeflt.
    + right. exact Hok.
Qed.

Lemma parse_loop_shape (E : Env) (dfltIds : list Oid) (top : nat)
      (paramDecl : list ascii) (self : Function_) (idx : nat)
      (spaceSeen : bool) (sign : string) (f : Function_) (types : list Type_) :
  parse_loop E dfltIds top paramDecl self idx spaceSeen sign = Ok f ->
  paramTypes self = Some types ->
  same_but_params f self
  /\ exists types',
      paramTypes f = Some types'
      /\ length types' = length types
      /\ forall i t0, types !! i = Some t0 ->
           exists t, types' !! i = Some t
                     /\ ((i < idx)%nat -> t = t0)
                     /\ kept_or_replaced t0 t.
Proof.
  revert self idx spaceSeen sign types.
  induction paramDecl as [|c rest IH]; intros self idx spaceSeen sign types;
    cbn [parse_loop].
  { destruct (top <=? idx)%nat; [discriminate|].
    destruct spaceSeen; discriminate. }
  destruct (isspace c); [apply IH|].
  destruct (top <=? idx)%nat; [discriminate|].
  destruct (is_char "," c || is_char ")" c).
  - intros H Htypes. apply bind_Ok_inv in H as (self' & Hrep & H).
    destruct (replace_default_shape _ _ _ _ _ _ _ Hrep Htypes)
      as (Hsame & types' & Htypes' & Hlen & Hother & t0 & t & Ht0 & Ht & Hrel).
    destruct (is_char ")" c).
    + destruct (negb _); [discriminate|]. injection H as <-.
      split; [exact Hsame|]. exists types'.
      split; [exact Htypes'|]. split; [exact Hlen|].
      intros i ti Hi. destruct (Nat.eq_dec i idx) as [->|Hne].
      * rewrite Ht0 in Hi. injection Hi as <-. exists t.
        split; [exact Ht|]. split; [lia|exact Hrel].
      * exists ti. rewrite Hother by exact Hne.
        split; [exact Hi|]. split; [reflexivity|left; reflexivity].
    + destruct (IH _ _ _ _ _ H Htypes')
        as (Hsame' & types'' & Htypes'' & Hlen' & Hall).
      split; [exact (same_but_params_trans _ _ _ Hsame' Hsame)|].
      exists types''. split; [exact Htypes''|]. split; [congruence|].
      intros i ti Hi. destruct (Nat.eq_dec i idx) as [->|Hne].
      * rewrite Ht0 in Hi. injection Hi as <-.
        destruct (Hall idx t Ht) as (t2 & Ht2 & Hlt & _).
        exists t2. split; [exact Ht2|]. rewrite (Hlt ltac:(lia)).
        split; [lia|exact Hrel].
      * rewrite <- (Hother i Hne) in Hi.
        destruct (Hall i ti Hi) as (t2 & Ht2 & Hlt & Hrel2).
        exists t2. split; [exact Ht2|]. split; [|exact Hrel2].
        intros Hi'. apply Hlt. lia.
  - destruct spaceSeen; [discriminate|]. apply IH.
Qed.

Lemma catalog_params_length (E : Env) (typeIds : list Oid) (count idx : nat)
      (cat : list Type_) :
  catalog_params E typeIds idx count = Ok cat -> length cat = count.
Proof.
  revert idx cat. induction count as [|count IH]; intros idx cat; simpl.
  - intros H. injection H as <-. reflexivity.
  - intros H. apply bind_Ok_inv in H as (typeId & _ & H).
    apply bind_Ok_inv in H as (pgType & _ & H).
    apply bind_Ok_inv in H as (t & _ & H).
    apply bind_Ok_inv in H as (rest0 & Hrest & H). injection H as <-.
    simpl. f_equal. exact (IH _ _ Hrest).
Qed.

(** Lines 419-452 for a complex-return routine. *)
Lemma Function_init_params_complex (E : Env) (p : Form_pg_proc)
      (paramDecl : option (list ascii)) (writer : Type_)
      (self f : Function_) :
  numParams self = S (pronargs p) ->
  Function_init_params E p paramDecl (Some writer) self = Ok f ->
  same_but_params f self
  /\ exists cat types,
      catalog_params E (proargtypes p) 0 (pronargs p) = Ok cat
      /\ paramTypes f = Some types
      /\ length types = S (pronargs p)
      /\ (forall i t0, ((cat ++ [writer])%list) !! i = Some t0 ->
            exists t, types !! i = Some t /\ kept_or_replaced t0 t)
      /\ (paramDecl = None -> types = (cat ++ [writer])%list).
Proof.
  intros Hn. unfold Function_init_params. rewrite Hn. cbn [Nat.ltb Nat.leb].
  replace (S (pronargs p) - 1)%nat with (pronargs p) by lia.
  intros H. apply bind_Ok_inv in H as (cat & Hcat & H).
  pose proof (catalog_params_length _ _ _ _ _ Hcat) as Hlen.
  destruct paramDecl as [decl|].
  - unfold Function_parseParameters in H.
    destruct (parse_loop_shape _ _ _ _ _ _ _ _ _ (cat ++ [writer])%list H eq_refl)
      as (Hsame & types & Htypes & Hlen' & Hall).
    split.
    { eapply same_but_params_trans; [exact Hsame|]. repeat split. }
    exists cat, types. split; [exact Hcat|]. split; [exact Htypes|].
    split; [rewrite Hlen', length_app; simpl; lia|].
    split; [|discriminate].
    intros i t0 Hi. destruct (Hall i t0 Hi) as (t & Ht & _ & Hrel). eauto.
  - injection H as <-. split; [repeat split|].
    exists cat, (cat ++ [writer])%list. split; [exact Hcat|].
    split; [reflexivity|]. split; [rewrite length_app; simpl; lia|].
    split; [|reflexivity].
    intros i t0 Hi. exists t0. split; [exact Hi|left; reflexivity].
Qed.

(** Lines 455-494: what a successful resolution leaves in the descriptor. *)
Lemma Function_init_resolve_shape (E : Env) (methodName : string)
      (self f : Function_) :
  (Function_init_resolve E methodName self).2 = Ok f ->
  returnComplex f = returnComplex self
  /\ numParams f = numParams self
  /\ paramTypes f = paramTypes self
  /\ (returnType f = returnType self
      \/ exists rt, returnType self = Some rt
                    /\ Type_isPrimitive rt = true
                    /\ returnType f = Type_getObjectType rt).
Proof.
  unfold Function_init_resolve.
  destruct (Function_buildSignature self (returnType self)) as [sign|];
    [|discriminate].
  destruct (clazz self) as [cls|]; [|discriminate].
  destruct (GetStaticMethodID E cls methodName sign).
  { intros H. injection H as <-. simpl. auto. }
  destruct (returnType self) as [rt|] eqn:Hrt; [|discriminate].
  destruct (Type_isPrimitive rt) eqn:Hprim; [|discriminate].
  destruct (Function_buildSignature self (Type_getObjectType rt)) as [sign'|];
    [|discriminate].
  cbn [snd]. destruct (GetStaticMethodID E cls methodName sign'); [|discriminate].
  intros H. injection H as <-. simpl.
  split; [reflexivity|]. split; [reflexivity|]. split; [reflexivity|].
  right. exists rt. auto.
Qed.

(** C3, as amended.  For a routine that is not set-returning, whose catalog
    return type is composite and whose binding succeeds: the complex-return
    flag is set; the parameter count is the catalog's plus one; the
    parameter array holds, position by position, the catalog-inferred types
    followed by the row writer type, each either as inferred or replaced by
    a type the explicit declaration names and that may replace it (without an
    explicit declaration the array is exactly the inferred types followed by
    the row writer); and the return type is the boolean descriptor, or its
    boxed counterpart when the method was only found by the boxed-return
    fallback. *)
Theorem complex_return_descriptor
        (E : Env) (functionId : Oid) (p : Form_pg_proc) (f : Function_)
  (Hp : pg_proc E functionId = Some p)
  (Hcomplex : returns_complex E p = true)
  (Hinit : Function_init E functionId false = Ok f) :
  returnComplex f = true
  /\ numParams f = S (pronargs p)
  /\ exists writer boolean cat types,
      Type_fromJavaType E (prorettype p)
                        "org.postgresql.pljava.jdbc.SingleRowWriter"
      = Ok writer
      /\ Type_fromOid E BOOLOID = Ok boolean
      /\ catalog_params E (proargtypes p) 0 (pronargs p) = Ok cat
      /\ paramTypes f = Some types
      /\ length types = S (pronargs p)
      /\ (forall i t0, cat !! i = Some t0 ->
            exists t, types !! i = Some t /\ kept_or_replaced t0 t)
      /\ (exists last, types !! pronargs p = Some last
                       /\ kept_or_replaced writer last)
      /\ (returnType f = Some boolean
          \/ (Type_isPrimitive boolean = true
              /\ returnType f = Type_getObjectType boolean))
      /\ (forall sc,
            scan_source (list_ascii_of_string (prosrc p)) = Ok sc ->
            scan_paramDecl sc = None ->
            types = (cat ++ [writer])%list).
Proof.
  unfold Function_init in Hinit.
  rewrite (getValidTuple_Some _ _ _ _ Hp), bind_Ok in Hinit.
  apply bind_Ok_inv in Hinit as (sc & Hsc & Hinit).
  apply bind_Ok_inv in Hinit as (ns & _ & Hinit).
  apply bind_Ok_inv in Hinit as (loader & _ & Hinit).
  apply bind_Ok_inv in Hinit as (loaded & _ & Hinit).
  apply bind_Ok_inv in Hinit as (methodName & _ & Hinit).
  apply bind_Ok_inv in Hinit as (self & Htypes & Hres).
  unfold Function_init_types in Htypes.
  apply bind_Ok_inv in Htypes as (r & Hret & Hpar).
  destruct (Function_init_return_shape E p
              (set_clazz (Some loaded) (set_returnComplex false Function_zero))
              r eq_refl Hret) as (Hn & Hrc & _ & Hshape).
  rewrite Hcomplex in Hshape, Hrc.
  rewrite expected_entries_complex, Hcomplex in Hn.
  destruct Hshape as (writer & boolean & Hwriter & Hbool & Hr1 & Hrt).
  rewrite Hr1 in Hpar.
  destruct (Function_init_params_complex E p _ writer r.2 self Hn Hpar)
    as ((S1 & S2 & S3 & _) & cat & types & Hcat & Hty & Hlen & Hall & Hnone).
  destruct (Function_init_resolve_shape E methodName self f Hres)
    as (R1 & R2 & R3 & R4).
  pose proof (catalog_params_length _ _ _ _ _ Hcat) as Hcatlen.
  split; [congruence|]. split; [congruence|].
  exists writer, boolean, cat, types.
  split; [exact Hwriter|]. split; [exact Hbool|]. split; [exact Hcat|].
  split; [congruence|]. split; [exact Hlen|]. split.
  { intros i t0 Hi. apply Hall. rewrite lookup_app_l; [exact Hi|].
    apply lookup_lt_Some in Hi. exact Hi. }
  split.
  { apply Hall. rewrite lookup_app_r by lia.
    replace (pronargs p - length cat)%nat with 0%nat by lia. reflexivity. }
  split.
  { destruct R4 as [R4|(rt & Hself & Hprim & R4)].
    - left. congruence.
    - right. assert (rt = boolean) as -> by congruence. auto. }
  intros sc' Hsc' Hdecl. apply Hnone.
  assert (sc' = sc) as -> by congruence.
  unfold param_decl_text. rewrite Hdecl. reflexivity.
Qed.

Lemma complex_return_descriptor_witness :
  exists f,
    Function_init sample_env 1003 false = Ok f
    /\ returnComplex f = true
    /\ numParams f = 2%nat
    /\ exists writer boolean cat types,
        Type_fromJavaType sample_env ROWTYPEOID
                          "org.postgresql.pljava.jdbc.SingleRowWriter"
        = Ok writer
        /\ Type_fromOid sample_env BOOLOID = Ok boolean
        /\ catalog_params sample_env [INT4OID] 0 1 = Ok cat
        /\ paramTypes f = Some types
        /\ length types = 2%nat
        /\ (forall i t0, cat !! i = Some t0 ->
              exists t, types !! i = Some t /\ kept_or_replaced t0 t)
        /\ (exists last, types !! 1%nat = Some last
                         /\ kept_or_replaced writer last)
        /\ (returnType f = Some boolean
            \/ (Type_isPrimitive boolean = true
                /\ returnType f = Type_getObjectType boolean))
        /\ (forall sc,
              scan_source (list_ascii_of_string
                             "pkg.Rows.make(int, java.sql.ResultSet)") = Ok sc ->
              scan_paramDecl sc = None ->
              types = (cat ++ [writer])%list).
Proof.
  destruct (Function_init sample_env 1003 false) as [f|e] eqn:Hinit;
    [|vm_compute in Hinit; discriminate Hinit].
  exists f. split; [reflexivity|].
  exact (complex_return_descriptor sample_env 1003
           (mkProc "pkg.Rows.make(int, java.sql.ResultSet)" 2200 1 ROWTYPEOID
                   false [INT4OID])
           f eq_refl eq_refl Hinit).
Defined.

(** C3, the claim as worded fails: routine 1003 returns a composite type,
    its method is [Boolean make(int, ResultSet)], found only by the
    boxed-return fallback, and the bound descriptor's return type is the
    boxed [java.lang.Boolean] descriptor, not the [boolean] one. *)
Lemma complex_return_type_may_be_boxed :
  returns_complex sample_env <$> sample_pg_proc 1003 = Some true
  /\ Type_fromOid sample_env BOOLOID = Ok t_boolean
  /\ (f ← Function_init sample_env 1003 false;
      Ok (returnComplex f, numParams f, returnType f))
     = Ok (true, 2%nat, Some t_Boolean)
  /\ Type_is (Some t_Boolean) t_boolean = false.
Proof. repeat split; vm_compute; reflexivity. Qed.

(** * Further properties of the code *)

(** ** Scanning the source text *)

Ltac len_lia :=
  repeat (rewrite ?length_app; simpl length); lia.

Ltac app_norm :=
  repeat first [rewrite <- app_assoc | progress simpl]; reflexivity.


Lemma isalnum_plain (c : ascii) :
  isalnum c = true ->
  isspace c = false /\ is_char "." c = false /\ is_char "(" c = false
  /\ is_char ")" c = false /\ is_char "," c = false.
Proof.
  destruct c as [[] [] [] [] [] [] [] []]; vm_compute; intros H;
    try discriminate H; repeat split.
Qed.

Lemma char_at_app (a b : list ascii) (c : ascii) :
  char_at (a ++ c :: b)%list (Z.of_nat (length a)) = Some c.
Proof.
  unfold char_at. destruct (Z.ltb_spec (Z.of_nat (length a)) 0); [lia|].
  rewrite Nat2Z.id. apply list_lookup_middle. reflexivity.
Qed.

Lemma test_at_app (p : ascii -> bool) (a b : list ascii) (c : ascii) (i : Z) :
  i = Z.of_nat (length a) ->
  test_at p (a ++ c :: b)%list i = p c.
Proof. intros ->. unfold test_at. rewrite char_at_app. reflexivity. Qed.

Lemma trim_leading_skip (pre lead rest : list ascii) (ep : Z) (fuel : nat) :
  Forall (fun c => isspace c = true) lead ->
  match rest with [] => ep = Z.of_nat (length pre + length lead)
             | c :: _ => isspace c = false end ->
  (length lead <= fuel)%nat ->
  Z.of_nat (length pre + length lead) <= ep ->
  trim_leading (pre ++ lead ++ rest)%list (Z.of_nat (length pre)) ep fuel
  = Z.of_nat (length pre + length lead).
Proof.
  revert pre fuel. induction lead as [|c lead IH]; intros pre fuel Hsp Hrest Hfuel Hep.
  - simpl app. rewrite Nat.add_0_r in *. destruct fuel as [|fuel]; [reflexivity|].
    simpl. destruct rest as [|c rest].
    + rewrite Hrest. rewrite Z.ltb_irrefl. reflexivity.
    + rewrite (test_at_app isspace pre rest c) by reflexivity.
      rewrite Hrest, andb_false_r. reflexivity.
  - destruct fuel as [|fuel]; [simpl in Hfuel; lia|].
    apply Forall_cons in Hsp as [Hc Hsp]. simpl.
    rewrite (test_at_app isspace pre (lead ++ rest) c) by reflexivity.
    rewrite Hc, andb_true_r.
    destruct (Z.ltb_spec (Z.of_nat (length pre)) ep) as [_|Hge];
      [|simpl in Hep; lia].
    replace (pre ++ c :: lead ++ rest)%list
      with ((pre ++ [c]) ++ lead ++ rest)%list
      by app_norm.
    replace (Z.of_nat (length pre) + 1) with (Z.of_nat (length (pre ++ [c])))
      by len_lia.
    rewrite IH.
    + rewrite length_app. simpl. f_equal. lia.
    + exact Hsp.
    + destruct rest; [|exact Hrest]. rewrite Hrest, length_app. simpl. f_equal. lia.
    + simpl in Hfuel. lia.
    + rewrite length_app. simpl in *. lia.
Qed.

Lemma trim_trailing_skip (body trail1 trail2 : list ascii) (z : ascii)
      (bp : Z) (fuel : nat) :
  Forall (fun c => isspace c = true) trail1 ->
  isspace z = false ->
  (length trail1 <= fuel)%nat ->
  bp <= Z.of_nat (length body) ->
  trim_trailing (body ++ z :: trail1 ++ trail2)%list bp
                (Z.of_nat (length body + 1 + length trail1)) fuel
  = Z.of_nat (length body + 1).
Proof.
  revert fuel trail2. induction trail1 as [|c t IH] using rev_ind;
    intros fuel trail2 Hsp Hz Hfuel Hbp.
  - simpl app. rewrite Nat.add_0_r. destruct fuel as [|fuel]; [reflexivity|].
    simpl. rewrite (test_at_app isspace body trail2 z) by lia.
    rewrite Hz, andb_false_r. reflexivity.
  - apply Forall_app in Hsp as [Hsp Hc]. apply Forall_cons in Hc as [Hc _].
    rewrite length_app in Hfuel. simpl in Hfuel.
    destruct fuel as [|fuel]; [lia|]. simpl.
    replace (body ++ z :: (t ++ [c]) ++ trail2)%list
      with ((body ++ z :: t) ++ c :: trail2)%list
      by app_norm.
    rewrite (test_at_app isspace (body ++ z :: t) trail2 c)
      by len_lia.
    rewrite Hc, andb_true_r.
    destruct (Z.ltb_spec bp (Z.of_nat (length body + 1 + length (t ++ [c])%list)))
      as [_|Hge]; [|lia].
    replace ((body ++ z :: t) ++ c :: trail2)%list
      with (body ++ z :: t ++ c :: trail2)%list
      by app_norm.
    replace (Z.of_nat (length body + 1 + length (t ++ [c])%list) - 1)
      with (Z.of_nat (length body + 1 + length t))
      by len_lia.
    apply IH; [exact Hsp|exact Hz|lia|exact Hbp].
Qed.

Lemma scan_back_found (p : ascii -> bool) (pre0 pre mid rest : list ascii)
      (x : ascii) :
  p x = true ->
  Forall (fun c => p c = false) mid ->
  scan_back p (pre0 ++ pre ++ x :: mid ++ rest)%list (Z.of_nat (length pre0))
            (length pre + 1 + length mid)
  = Z.of_nat (length pre0 + length pre).
Proof.
  intros Hx. revert rest. induction mid as [|c t IH] using rev_ind;
    intros rest Hmid.
  - simpl app. rewrite Nat.add_0_r, Nat.add_1_r. simpl.
    rewrite app_assoc.
    rewrite (test_at_app p (pre0 ++ pre) rest x)
      by len_lia.
    rewrite Hx. lia.
  - apply Forall_app in Hmid as [Hmid Hc]. apply Forall_cons in Hc as [Hc _].
    rewrite length_app. simpl length.
    replace (length pre + 1 + (length t + 1))%nat
      with (S (length pre + 1 + length t)) by lia.
    simpl scan_back.
    replace (pre0 ++ pre ++ x :: (t ++ [c]) ++ rest)%list
      with ((pre0 ++ pre ++ x :: t) ++ c :: rest)%list
      by app_norm.
    rewrite (test_at_app p (pre0 ++ pre ++ x :: t) rest c)
      by len_lia.
    rewrite Hc.
    replace ((pre0 ++ pre ++ x :: t) ++ c :: rest)%list
      with (pre0 ++ pre ++ x :: t ++ c :: rest)%list
      by app_norm.
    apply IH. exact Hmid.
Qed.

Lemma scan_method_name_alnum (pre m post : list ascii) (fuel : nat)
      (acc : list ascii) :
  Forall (fun c => isalnum c = true) m ->
  (length m <= fuel)%nat ->
  scan_method_name (pre ++ m ++ post)%list (Z.of_nat (length pre))
                   (Z.of_nat (length pre + length m)) fuel acc
  = ((acc ++ m)%list, Z.of_nat (length pre + length m)).
Proof.
  revert pre fuel acc. induction m as [|c m IH]; intros pre fuel acc Hm Hfuel.
  - rewrite Nat.add_0_r, app_nil_r. destruct fuel; simpl; [reflexivity|].
    rewrite Z.ltb_irrefl. reflexivity.
  - apply Forall_cons in Hm as [Hc Hm].
    destruct fuel as [|fuel]; [simpl in Hfuel; lia|].
    simpl scan_method_name. simpl app. simpl length. rewrite char_at_app, Hc.
    replace (Z.of_nat (length pre) <? Z.of_nat (length pre + S (length m)))
      with true by (symmetry; apply Z.ltb_lt; lia).
    replace (pre ++ c :: m ++ post)%list with ((pre ++ [c]) ++ m ++ post)%list
      by app_norm.
    replace (Z.of_nat (length pre) + 1) with (Z.of_nat (length (pre ++ [c])%list))
      by len_lia.
    replace (Z.of_nat (length pre + S (length m)))
      with (Z.of_nat (length (pre ++ [c])%list + length m))
      by len_lia.
    rewrite IH; [|exact Hm|simpl in Hfuel; lia].
    rewrite <- app_assoc. reflexivity.
Qed.

Lemma last_of_name (m : list ascii) :
  Forall (fun c => isalnum c = true) m ->
  exists l z, ("."%char :: m = l ++ [z])%list
              /\ isspace z = false /\ is_char ")" z = false.
Proof.
  intros Hm. destruct (exists_last (l := "."%char :: m)) as (l & z & Heq);
    [discriminate|].
  exists l, z. split; [exact Heq|].
  assert (Hin : In z ("."%char :: m)) by (rewrite Heq; apply in_or_app; right; left; reflexivity).
  destruct Hin as [<-|Hin]; [split; reflexivity|].
  rewrite Forall_forall in Hm. apply list_elem_of_In in Hin.
  destruct (isalnum_plain z (Hm z Hin)) as (H1 & _ & _ & H4 & _).
  split; assumption.
Qed.

(** X1.  The scan of a routine's source text of the form
    "class.method" between optional white space: the class name is
    everything up to the last dot with the dots turned into slashes, the
    method name the alphanumeric run after it, and there is no parameter
    declaration. *)
Theorem scan_class_and_method (lead cls m trail : list ascii) (c0 : ascii)
  (Hlead : Forall (fun c => isspace c = true) lead)
  (Htrail : Forall (fun c => isspace c = true) trail)
  (Hc0 : isspace c0 = false)
  (Hm : Forall (fun c => isalnum c = true) m) :
  let src := (lead ++ (c0 :: cls) ++ "."%char :: m ++ trail)%list in
  exists sc,
    scan_source src = Ok sc
    /\ class_name src sc
       = string_of_chars
           (map (fun c => if is_char "." c then "/"%char else c) (c0 :: cls))
    /\ method_name src sc = Ok (string_of_chars m)
    /\ param_decl_text src sc = None.
Proof.
  intros src.
  destruct (last_of_name m Hm) as (l & z & Hlz & Hz & Hzc).
  set (bp := Z.of_nat (length lead)).
  set (ep := Z.of_nat (length lead + length (c0 :: cls) + 1 + length m)).
  assert (Hbp : trim_leading src 0 (Z.of_nat (length src)) (length src) = bp).
  { subst src bp.
    change 0 with (Z.of_nat (length (@nil ascii))).
    change (lead ++ (c0 :: cls) ++ "."%char :: m ++ trail)%list
      with ([] ++ lead ++ (c0 :: cls) ++ "."%char :: m ++ trail)%list.
    rewrite trim_leading_skip; [reflexivity|exact Hlead|exact Hc0| |]; len_lia. }
  assert (Hsrc : src = ((lead ++ (c0 :: cls) ++ l) ++ z :: trail ++ [])%list).
  { subst src. rewrite app_nil_r.
    replace ("."%char :: m ++ trail)%list with (("."%char :: m) ++ trail)%list
      by reflexivity.
    rewrite Hlz. app_norm. }
  assert (Hlen : length ("."%char :: m) = length (l ++ [z])%list)
    by (rewrite Hlz; reflexivity).
  rewrite length_app in Hlen. simpl in Hlen.
  assert (Hep : trim_trailing src bp (Z.of_nat (length src)) (length src) = ep).
  { rewrite Hsrc.
    replace (Z.of_nat (length ((lead ++ (c0 :: cls) ++ l) ++ z :: trail ++ [])%list))
      with (Z.of_nat (length (lead ++ (c0 :: cls) ++ l)%list + 1 + length trail))
      by len_lia.
    rewrite trim_trailing_skip; [subst ep; len_lia|exact Htrail|exact Hz| |];
      subst bp; len_lia. }
  assert (Hlast : char_at src (ep - 1) = Some z).
  { rewrite Hsrc. replace (ep - 1) with (Z.of_nat (length (lead ++ (c0 :: cls) ++ l)%list))
      by (subst ep; len_lia).
    apply char_at_app. }
  assert (Hdot : scan_back (is_char ".") src bp (Z.to_nat (ep - 1 - bp + 1))
                 = Z.of_nat (length lead + length (c0 :: cls))).
  { subst src bp ep.
    replace (Z.to_nat _) with (length (c0 :: cls) + 1 + length m)%nat by len_lia.
    apply scan_back_found; [reflexivity|].
    eapply Forall_impl; [exact Hm|]. intros c Hc.
    exact (proj1 (proj2 (isalnum_plain c Hc))). }
  exists (mkScan bp (Z.of_nat (length lead + length (c0 :: cls))) ep None).
  split; [|split; [|split]].
  - unfold scan_source. fold src. rewrite Hbp, Hep, Hlast, bind_Ok, Hzc.
    cbv zeta. cbn match. 
    rewrite Hdot.
    destruct (Z.leb_spec (Z.of_nat (length lead + length (c0 :: cls))) bp)
      as [Hle|_]; [subst bp; simpl in Hle; lia|reflexivity].
  - unfold class_name. cbn [scan_ip scan_bp]. f_equal. f_equal.
    subst bp src.
    replace (Z.to_nat (Z.of_nat (length lead))) with (length lead) by lia.
    replace (Z.to_nat _) with (length (c0 :: cls)) by lia.
    rewrite drop_app_length. apply take_app_length.
  - unfold method_name. cbn [scan_ip scan_nameEp].
    assert (Hscan : scan_method_name src
                      (Z.of_nat (length lead + length (c0 :: cls)) + 1) ep
                      (length src) []
                    = (m, ep)).
    { subst src ep.
      replace (lead ++ (c0 :: cls) ++ "."%char :: m ++ trail)%list
        with ((lead ++ (c0 :: cls) ++ ["."%char]) ++ m ++ trail)%list by app_norm.
      replace (Z.of_nat (length lead + length (c0 :: cls)) + 1)
        with (Z.of_nat (length (lead ++ (c0 :: cls) ++ ["."%char])%list))
        by len_lia.
      replace (Z.of_nat (length lead + length (c0 :: cls) + 1 + length m))
        with (Z.of_nat (length (lead ++ (c0 :: cls) ++ ["."%char])%list + length m))
        by len_lia.
      rewrite scan_method_name_alnum; [reflexivity|exact Hm|len_lia]. }
    rewrite Hscan. cbn [fst snd]. rewrite Z.ltb_irrefl. reflexivity.
  - reflexivity.
Qed.

(** X2.  The scan of a source text of the form "class.method(decl)":
    class and method name come out as without the parentheses, and the
    parameter declaration is the text after the opening parenthesis, closing
    parenthesis and trailing white space included. *)
Theorem scan_parameter_declaration
        (lead cls m ws d trail : list ascii) (c0 : ascii)
  (Hlead : Forall (fun c => isspace c = true) lead)
  (Htrail : Forall (fun c => isspace c = true) trail)
  (Hws : Forall (fun c => isspace c = true) ws)
  (Hc0 : isspace c0 = false)
  (Hm : Forall (fun c => isalnum c = true) m)
  (Hd : Forall (fun c => is_char "(" c = false) d) :
  let src := (lead ++ (c0 :: cls) ++ "."%char :: m ++ ws
                   ++ "("%char :: d ++ ")"%char :: trail)%list in
  exists sc,
    scan_source src = Ok sc
    /\ class_name src sc
       = string_of_chars
           (map (fun c => if is_char "." c then "/"%char else c) (c0 :: cls))
    /\ method_name src sc = Ok (string_of_chars m)
    /\ param_decl_text src sc = Some (d ++ ")"%char :: trail)%list.
Proof.
  intros src.
  destruct (last_of_name m Hm) as (l & z & Hlz & Hz & Hzc).
  assert (Hlen : length ("."%char :: m) = length (l ++ [z])%list)
    by (rewrite Hlz; reflexivity).
  rewrite length_app in Hlen. simpl in Hlen.
  set (bp := Z.of_nat (length lead)).
  set (name := (length (c0 :: cls) + 1 + length m)%nat).
  set (open := Z.of_nat (length lead + name + length ws)).
  set (ep := open + 1 + Z.of_nat (length d) + 1).
  assert (Hbp : trim_leading src 0 (Z.of_nat (length src)) (length src) = bp).
  { subst src bp.
    change 0 with (Z.of_nat (length (@nil ascii))).
    match goal with |- trim_leading ?s _ _ _ = _ =>
      change s with ([] ++ s)%list end.
    rewrite trim_leading_skip; [reflexivity|exact Hlead|exact Hc0| |]; len_lia. }
  assert (Hep : trim_trailing src bp (Z.of_nat (length src)) (length src) = ep).
  { subst src.
    replace (lead ++ (c0 :: cls) ++ "."%char :: m ++ ws
                  ++ "("%char :: d ++ ")"%char :: trail)%list
      with ((lead ++ (c0 :: cls) ++ "."%char :: m ++ ws ++ "("%char :: d)
              ++ ")"%char :: trail ++ [])%list
      by (rewrite app_nil_r; app_norm).
    match goal with |- trim_trailing (?b ++ _ :: _ ++ _)%list _ ?n _ = _ =>
      replace n with (Z.of_nat (length b + 1 + length trail)) by len_lia end.
    rewrite trim_trailing_skip;
      [subst ep open name; len_lia|exact Htrail|reflexivity| |];
      subst bp; len_lia. }
  assert (Hlast : char_at src (ep - 1) = Some ")"%char).
  { subst src.
    replace (lead ++ (c0 :: cls) ++ "."%char :: m ++ ws
                  ++ "("%char :: d ++ ")"%char :: trail)%list
      with ((lead ++ (c0 :: cls) ++ "."%char :: m ++ ws ++ "("%char :: d)
              ++ ")"%char :: trail)%list by app_norm.
    match goal with |- char_at (?b ++ _ :: _)%list ?i = _ =>
      replace i with (Z.of_nat (length b)) by (subst ep open name; len_lia) end.
    apply char_at_app. }
  assert (Hopen : scan_back (is_char "(") src bp (Z.to_nat (ep - 1 - bp)) = open).
  { subst src bp.
    replace (Z.to_nat _)
      with (length ((c0 :: cls) ++ "."%char :: m ++ ws)%list + 1 + length d)%nat
      by (subst ep open name; len_lia).
    replace (lead ++ (c0 :: cls) ++ "."%char :: m ++ ws
                  ++ "("%char :: d ++ ")"%char :: trail)%list
      with (lead ++ ((c0 :: cls) ++ "."%char :: m ++ ws)
                 ++ "("%char :: d ++ ")"%char :: trail)%list by app_norm.
    rewrite scan_back_found; [subst open name; len_lia|reflexivity|exact Hd]. }
  assert (Hip : scan_back (fun c => negb (isspace c)) src bp (Z.to_nat (open - bp))
                = Z.of_nat (length lead + name) - 1).
  { subst src bp.
    replace (Z.to_nat _)
      with (length ((c0 :: cls) ++ l)%list + 1 + length ws)%nat
      by (subst open name; len_lia).
    replace (lead ++ (c0 :: cls) ++ "."%char :: m ++ ws
                  ++ "("%char :: d ++ ")"%char :: trail)%list
      with (lead ++ ((c0 :: cls) ++ l)
                 ++ z :: ws ++ "("%char :: d ++ ")"%char :: trail)%list.
    2:{ replace ("."%char :: m ++ ws ++ "("%char :: d ++ ")"%char :: trail)%list
          with (("."%char :: m) ++ ws ++ "("%char :: d ++ ")"%char :: trail)%list
          by reflexivity.
        rewrite Hlz. app_norm. }
    rewrite scan_back_found; [subst name; len_lia|rewrite Hz; reflexivity|].
    eapply Forall_impl; [exact Hws|]. intros c Hc. rewrite Hc. reflexivity. }
  assert (Hdot : scan_back (is_char ".") src bp
                   (Z.to_nat (Z.of_nat (length lead + name) - 1 - bp + 1))
                 = Z.of_nat (length lead + length (c0 :: cls))).
  { subst src bp.
    replace (Z.to_nat _) with (length (c0 :: cls) + 1 + length m)%nat
      by (subst name; len_lia).
    apply scan_back_found; [reflexivity|].
    eapply Forall_impl; [exact Hm|]. intros c Hc.
    exact (proj1 (proj2 (isalnum_plain c Hc))). }
  exists (mkScan bp (Z.of_nat (length lead + length (c0 :: cls)))
                 (Z.of_nat (length lead + name)) (Some (open + 1))).
  split; [|split; [|split]].
  - unfold scan_source. fold src. rewrite Hbp, Hep, Hlast, bind_Ok.
    change (is_char ")" ")") with true. cbv zeta. cbn match.
    rewrite Hopen.
    destruct (Z.leb_spec bp open) as [_|Hlt]; [|subst bp open; lia].
    rewrite Hip, Hdot.
    destruct (Z.leb_spec (Z.of_nat (length lead + length (c0 :: cls))) bp)
      as [Hle|_]; [subst bp; simpl in Hle; lia|].
    f_equal. f_equal. lia.
  - unfold class_name. cbn [scan_ip scan_bp]. f_equal. f_equal.
    subst bp src.
    replace (Z.to_nat (Z.of_nat (length lead))) with (length lead) by lia.
    replace (Z.to_nat _) with (length (c0 :: cls)) by lia.
    rewrite drop_app_length. apply take_app_length.
  - unfold method_name. cbn [scan_ip scan_nameEp].
    assert (Hscan : scan_method_name src
                      (Z.of_nat (length lead + length (c0 :: cls)) + 1)
                      (Z.of_nat (length lead + name)) (length src) []
                    = (m, Z.of_nat (length lead + name))).
    { subst src name.
      replace (lead ++ (c0 :: cls) ++ "."%char :: m ++ ws
                    ++ "("%char :: d ++ ")"%char :: trail)%list
        with ((lead ++ (c0 :: cls) ++ ["."%char]) ++ m ++ ws
                    ++ "("%char :: d ++ ")"%char :: trail)%list by app_norm.
      replace (Z.of_nat (length lead + length (c0 :: cls)) + 1)
        with (Z.of_nat (length (lead ++ (c0 :: cls) ++ ["."%char])%list))
        by len_lia.
      replace (Z.of_nat (length lead + (length (c0 :: cls) + 1 + length m)))
        with (Z.of_nat (length (lead ++ (c0 :: cls) ++ ["."%char])%list + length m))
        by len_lia.
      rewrite scan_method_name_alnum; [reflexivity|exact Hm|len_lia]. }
    rewrite Hscan. cbn [fst snd]. rewrite Z.ltb_irrefl. reflexivity.
  - unfold param_decl_text. cbn [scan_paramDecl option_map]. f_equal.
    subst src open name.
    replace (lead ++ (c0 :: cls) ++ "."%char :: m ++ ws
                  ++ "("%char :: d ++ ")"%char :: trail)%list
      with ((lead ++ (c0 :: cls) ++ "."%char :: m ++ ws ++ ["("%char])
              ++ d ++ ")"%char :: trail)%list by app_norm.
    match goal with |- drop ?n (?a ++ _)%list = _ =>
      replace n with (length a) by len_lia end.
    apply drop_app_length.
Qed.

(** ** The parser on well-formed declarations *)

Lemma append_snoc (s t : string) (c : ascii) :
  ((s ++ String c "") ++ t)%string = (s ++ String c t)%string.
Proof.
  induction s as [|a s IH]; [reflexivity|].
  change (String a ((s ++ String c "") ++ t) = String a (s ++ String c t))%string.
  f_equal. exact IH.
Qed.

Lemma append_empty_r (s : string) : (s ++ "")%string = s.
Proof.
  induction s as [|a s IH]; [reflexivity|].
  change (String a (s ++ "") = String a s)%string. f_equal. exact IH.
Qed.

Lemma parse_loop_spaces (E : Env) (dfltIds : list Oid) (top : nat)
      (sp rest : list ascii) (self : Function_) (idx : nat) (spaceSeen : bool) :
  Forall (fun c => isspace c = true) sp ->
  parse_loop E dfltIds top (sp ++ rest)%list self idx spaceSeen ""
  = parse_loop E dfltIds top rest self idx spaceSeen "".
Proof.
  induction sp as [|c sp IH]; intros Hsp; [reflexivity|].
  apply Forall_cons in Hsp as [Hc Hsp]. simpl. rewrite Hc. apply IH. exact Hsp.
Qed.

Lemma name_char_spec (c : ascii) :
  name_char c = true ->
  isspace c = false /\ is_char "," c = false /\ is_char ")" c = false.
Proof.
  unfold name_char. intros H. apply negb_true_iff in H.
  apply orb_false_iff in H as [H _]. apply orb_false_iff in H as [H H3].
  apply orb_false_iff in H as [H1 H2]. repeat split; assumption.
Qed.

Lemma parse_loop_name (E : Env) (dfltIds : list Oid) (top : nat)
      (name : string) (rest : list ascii) (self : Function_) (idx : nat)
      (sign : string) :
  Forall (fun c => name_char c = true) (list_ascii_of_string name) ->
  (idx < top)%nat ->
  parse_loop E dfltIds top (list_ascii_of_string name ++ rest)%list self idx
             false sign
  = parse_loop E dfltIds top rest self idx false (sign ++ name).
Proof.
  intros Hname Hidx. revert sign.
  induction name as [|c name IH]; intros sign.
  - simpl. rewrite append_empty_r. reflexivity.
  - simpl in Hname. apply Forall_cons in Hname as [Hc Hname].
    destruct (name_char_spec c Hc) as (H1 & H2 & H3).
    simpl. rewrite H1.
    destruct (Nat.leb_spec top idx) as [Hle|_]; [lia|].
    rewrite H2, H3. simpl. rewrite (IH Hname). rewrite append_snoc. reflexivity.
Qed.

Lemma delimiter_not_space (c : ascii) :
  is_char "," c || is_char ")" c = true -> isspace c = false.
Proof.
  unfold is_char. destruct (Ascii.eqb_spec c ",") as [->|_]; [reflexivity|].
  destruct (Ascii.eqb_spec c ")") as [->|_]; [reflexivity|discriminate].
Qed.

Lemma parse_loop_delimiter (E : Env) (dfltIds : list Oid) (top : nat)
      (c : ascii) (rest : list ascii) (self : Function_) (idx : nat)
      (spaceSeen : bool) (sign : string) :
  is_char "," c || is_char ")" c = true ->
  parse_loop E dfltIds top (c :: rest) self idx spaceSeen sign
  = parse_loop E dfltIds top (c :: rest) self idx false sign.
Proof.
  intros Hc. simpl. rewrite (delimiter_not_space c Hc), Hc. reflexivity.
Qed.

Lemma parse_loop_trail (E : Env) (dfltIds : list Oid) (top : nat)
      (sp : list ascii) (c : ascii) (rest : list ascii) (self : Function_)
      (idx : nat) (spaceSeen : bool) (sign : string) :
  Forall (fun c => isspace c = true) sp ->
  is_char "," c || is_char ")" c = true ->
  parse_loop E dfltIds top (sp ++ c :: rest)%list self idx spaceSeen sign
  = parse_loop E dfltIds top (c :: rest) self idx false sign.
Proof.
  intros Hsp Hc. revert spaceSeen.
  induction sp as [|s sp IH]; intros spaceSeen.
  - apply parse_loop_delimiter. exact Hc.
  - apply Forall_cons in Hsp as [Hs Hsp]. simpl app.
    change (parse_loop E dfltIds top (s :: sp ++ c :: rest)%list self idx spaceSeen sign)
      with (if isspace s
            then parse_loop E dfltIds top (sp ++ c :: rest)%list self idx
                   (if (0 <? String.length sign)%nat then true else spaceSeen) sign
            else if (top <=? idx)%nat
                 then Raise (SyntaxError (TooManyParameters top))
                 else if is_char "," s || is_char ")" s
                      then self' ← replace_default E self dfltIds idx sign;
                           (let idx' := S idx in
                            if is_char ")" s
                            then if negb (idx' =? top)%nat
                                 then Raise (SyntaxError (TooFewParameters top))
                                 else Ok self'
                            else parse_loop E dfltIds top (sp ++ c :: rest)%list
                                            self' idx' false "")
                      else if spaceSeen
                           then Raise (SyntaxError ExpectedCommaOrParen)
                           else parse_loop E dfltIds top (sp ++ c :: rest)%list
                                  self idx spaceSeen (sign ++ String s "")).
    rewrite Hs. apply (IH Hsp).
Qed.

Lemma parse_loop_render (E : Env) (dfltIds : list Oid) (top : nat)
      (entries : list decl_entry) (rest : list ascii) (self : Function_)
      (idx : nat) :
  entries <> [] ->
  Forall entry_ok entries ->
  (idx + length entries = top)%nat ->
  parse_loop E dfltIds top (render_entries entries ++ rest)%list self idx false ""
  = replace_defaults E dfltIds (map entry_name entries) idx self.
Proof.
  revert self idx. induction entries as [|e es IH]; intros self idx Hne Hok Hlen;
    [contradiction|].
  apply Forall_cons in Hok as [(Hlead & Hname & Htrail) Hok].
  set (delim := match es with [] => ")"%char | _ => ","%char end).
  assert (Hdelim : is_char "," delim || is_char ")" delim = true)
    by (subst delim; destruct es; reflexivity).
  replace (render_entries (e :: es) ++ rest)%list
    with (entry_lead e ++ list_ascii_of_string (entry_name e) ++ entry_trail e
          ++ delim :: (render_entries es ++ rest))%list
    by (subst delim; simpl render_entries; app_norm).
  rewrite parse_loop_spaces by exact Hlead.
  rewrite parse_loop_name by (try exact Hname; simpl in Hlen; lia).
  rewrite parse_loop_trail by (try exact Htrail; exact Hdelim).
  change ("" ++ entry_name e)%string with (entry_name e).
  cbn [parse_loop map replace_defaults].
  rewrite (delimiter_not_space delim Hdelim), Hdelim.
  destruct (Nat.leb_spec top idx) as [Hle|_]; [simpl in Hlen; lia|].
  destruct (replace_default E self dfltIds idx (entry_name e)) as [self'|err];
    [rewrite !bind_Ok|rewrite !bind_Raise; reflexivity].
  cbv zeta. destruct es as [|e' es].
  - subst delim. change (is_char ")" ")") with true. cbv iota.
    simpl in Hlen. destruct (Nat.eqb_spec (S idx) top) as [_|Hneq]; [|lia].
    reflexivity.
  - subst delim. change (is_char ")" ",") with false. cbv iota.
    apply IH; [discriminate|exact Hok|simpl in *; lia].
Qed.

(** X3.  On a well-formed declaration with as many entries as the
    descriptor has parameters, [Function_parseParameters] does with the
    declared names exactly what the delimiter branch does with each in turn:
    white space around the names is insignificant and whatever follows the
    closing parenthesis is not read. *)
Theorem parseParameters_well_formed
        (E : Env) (self : Function_) (dfltIds : list Oid)
        (entries : list decl_entry) (rest : list ascii)
  (Hne : entries <> [])
  (Hok : Forall entry_ok entries)
  (Hlen : length entries = numParams self) :
  Function_parseParameters E self dfltIds (render_entries entries ++ rest)%list
  = replace_defaults E dfltIds (map entry_name entries) 0 self.
Proof.
  unfold Function_parseParameters.
  apply parse_loop_render; [exact Hne|exact Hok|lia].
Qed.

Lemma replace_defaults_same (E : Env) (dfltIds : list Oid) (self : Function_)
      (types : list Type_) (idx : nat) :
  paramTypes self = Some types ->
  replace_defaults E dfltIds (map Type_getJavaTypeName (drop idx types)) idx self
  = Ok self.
Proof.
  intros Htypes.
  remember (length types - idx)%nat as n eqn:Hn. revert idx Hn.
  induction n as [|n IH]; intros idx Hn.
  - rewrite drop_ge by lia. reflexivity.
  - destruct (lookup_lt_is_Some_2 types idx) as [t Ht]; [lia|].
    rewrite (drop_S _ _ _ Ht). cbn [map replace_defaults].
    unfold replace_default, param_at. rewrite Htypes, Ht, bind_Ok.
    rewrite String.eqb_refl, bind_Ok. apply IH. lia.
Qed.

(** X4.  A declaration that names, entry by entry, the Java type names the
    descriptor already has leaves the descriptor as it is, whatever the type
    registry holds. *)
Theorem declaring_the_defaults_changes_nothing
        (E : Env) (self : Function_) (dfltIds : list Oid)
        (types : list Type_) (entries : list decl_entry) (rest : list ascii)
  (Htypes : paramTypes self = Some types)
  (Hnum : numParams self = length types)
  (Hne : entries <> [])
  (Hok : Forall entry_ok entries)
  (Hnames : map entry_name entries = map Type_getJavaTypeName types) :
  Function_parseParameters E self dfltIds (render_entries entries ++ rest)%list
  = Ok self.
Proof.
  unfold Function_parseParameters.
  rewrite parse_loop_render; [|exact Hne|exact Hok|].
  - rewrite Hnames. exact (replace_defaults_same E dfltIds self types 0 Htypes).
  - rewrite Hnum. rewrite <- (length_map Type_getJavaTypeName types), <- Hnames.
    rewrite length_map. reflexivity.
Qed.

(** ** White space inside a type name *)

Lemma parse_loop_spaces_after_name (E : Env) (dfltIds : list Oid) (top : nat)
      (sp rest : list ascii) (self : Function_) (idx : nat) (sign : string) :
  Forall (fun c => isspace c = true) sp ->
  (0 < String.length sign)%nat ->
  parse_loop E dfltIds top (sp ++ rest)%list self idx true sign
  = parse_loop E dfltIds top rest self idx true sign.
Proof.
  intros Hsp Hsign. induction sp as [|c sp IH]; [reflexivity|].
  apply Forall_cons in Hsp as [Hc Hsp]. simpl. rewrite Hc.
  destruct (Nat.ltb_spec 0 (String.length sign)) as [_|]; [|lia].
  apply IH. exact Hsp.
Qed.

(** X5.  At the start of any entry that is still expected, a type name
    followed by white space and then by another character of a name is
    refused with the syntax error "Expected ',' or ')'": white space does
    not separate two names and is not skipped inside one. *)
Theorem white_space_inside_a_type_name (E : Env) (dfltIds : list Oid)
        (self : Function_) (idx : nat) (lead : list ascii) (name : string)
        (gap : list ascii) (c : ascii) (rest : list ascii) :
  (idx < numParams self)%nat ->
  Forall (fun c => isspace c = true) lead ->
  Forall (fun c => name_char c = true) (list_ascii_of_string name) ->
  name <> "" ->
  Forall (fun c => isspace c = true) gap ->
  gap <> [] ->
  name_char c = true ->
  parse_loop E dfltIds (numParams self)
             (lead ++ list_ascii_of_string name ++ gap ++ c :: rest)%list
             self idx false ""
  = Raise (SyntaxError ExpectedCommaOrParen).
Proof.
  intros Hidx Hlead Hname Hne Hgap Hgne Hc.
  rewrite parse_loop_spaces by exact Hlead.
  rewrite parse_loop_name by assumption.
  change (String.append "" name) with name.
  assert (Hlen : (0 < String.length name)%nat).
  { destruct name; [contradiction|simpl; lia]. }
  destruct gap as [|g gap]; [contradiction|].
  apply Forall_cons in Hgap as [Hg Hgap].
  change ((g :: gap) ++ c :: rest)%list with (g :: (gap ++ c :: rest))%list.
  cbn [parse_loop]. rewrite Hg.
  destruct (Nat.ltb_spec 0 (String.length name)) as [_|]; [|lia].
  rewrite parse_loop_spaces_after_name by assumption.
  destruct (name_char_spec c Hc) as (H1 & H2 & H3).
  cbn [parse_loop]. rewrite H1.
  destruct (Nat.leb_spec (numParams self) idx) as [|_]; [lia|].
  rewrite H2, H3. reflexivity.
Qed.

Lemma white_space_inside_a_type_name_witness :
  Function_parseParameters sample_env
    (mkFunction false 2 (Some [t_int; t_double]) (Some t_int) None None)
    [INT4OID; FLOAT8OID]
    (list_ascii_of_string " unsigned int, double)")
  = Raise (SyntaxError ExpectedCommaOrParen).
Proof.
  apply (white_space_inside_a_type_name sample_env [INT4OID; FLOAT8OID]
           (mkFunction false 2 (Some [t_int; t_double]) (Some t_int) None None)
           0 [" "%char] "unsigned" [" "%char] "i"%char
           (list_ascii_of_string "nt, double)")).
  - simpl. lia.
  - repeat constructor.
  - repeat constructor.
  - discriminate.
  - repeat constructor.
  - discriminate.
  - reflexivity.
Defined.

(** ** Declarations with too few or too many entries *)

Lemma space_not_delimiter (c : ascii) :
  isspace c = true -> is_char "," c = false /\ is_char ")" c = false.
Proof.
  intros Hc. split.
  - destruct (is_char "," c) eqn:H; [|reflexivity].
    rewrite (delimiter_not_space c) in Hc by (rewrite H; reflexivity).
    discriminate Hc.
  - destruct (is_char ")" c) eqn:H; [|reflexivity].
    rewrite (delimiter_not_space c) in Hc
      by (rewrite H; apply orb_true_r).
    discriminate Hc.
Qed.

Lemma commas_before_close_plain (l rest : list ascii) :
  Forall (fun c => is_char "," c = false /\ is_char ")" c = false) l ->
  commas_before_close (l ++ rest) = commas_before_close rest.
Proof.
  induction 1 as [|c l [H1 H2] _ IH]; [reflexivity|].
  simpl. rewrite H1, H2. exact IH.
Qed.

Lemma entry_plain (e : decl_entry) :
  entry_ok e ->
  Forall (fun c => is_char "," c = false /\ is_char ")" c = false)
         (entry_lead e ++ list_ascii_of_string (entry_name e) ++ entry_trail e).
Proof.
  intros (Hlead & Hname & Htrail).
  apply Forall_app. split; [|apply Forall_app; split].
  - eapply Forall_impl; [exact Hlead|]. intros c. apply space_not_delimiter.
  - eapply Forall_impl; [exact Hname|]. intros c Hc.
    destruct (name_char_spec c Hc) as (_ & H2 & H3). auto.
  - eapply Forall_impl; [exact Htrail|]. intros c. apply space_not_delimiter.
Qed.

(** The entries of a well-formed declaration are what [declared_entries]
    counts. *)
Lemma declared_entries_render (entries : list decl_entry) (rest : list ascii) :
  entries <> [] ->
  Forall entry_ok entries ->
  declared_entries (render_entries entries ++ rest) = length entries.
Proof.
  unfold declared_entries. intros Hne Hok.
  induction entries as [|e es IH]; [contradiction|].
  apply Forall_cons in Hok as [He Hok].
  replace (render_entries (e :: es) ++ rest)%list
    with ((entry_lead e ++ list_ascii_of_string (entry_name e)
           ++ entry_trail e)
          ++ (match es with [] => ")"%char | _ => ","%char end)
          :: (render_entries es ++ rest))%list
    by (simpl render_entries; app_norm).
  rewrite commas_before_close_plain by (apply entry_plain; exact He).
  destruct es as [|e' es]; [reflexivity|].
  cbn [commas_before_close]. change (is_char ")" ",") with false.
  change (is_char "," ",") with true. cbv iota.
  rewrite IH by (discriminate || exact Hok). reflexivity.
Qed.

Lemma parse_loop_too_many (E : Env) (dfltIds : list Oid) (top : nat)
      (entries : list decl_entry) (rest : list ascii) (self : Function_)
      (idx : nat) :
  entries <> [] ->
  Forall entry_ok entries ->
  (top <= idx)%nat ->
  parse_loop E dfltIds top (render_entries entries ++ rest)%list self idx false ""
  = Raise (SyntaxError (TooManyParameters top)).
Proof.
  intros Hne Hok Hidx. destruct entries as [|e es]; [contradiction|].
  apply Forall_cons in Hok as [(Hlead & Hname & Htrail) _].
  set (delim := match es with [] => ")"%char | _ => ","%char end).
  assert (Hdelim : is_char "," delim || is_char ")" delim = true)
    by (subst delim; destruct es; reflexivity).
  replace (render_entries (e :: es) ++ rest)%list
    with (entry_lead e ++ list_ascii_of_string (entry_name e) ++ entry_trail e
          ++ delim :: (render_entries es ++ rest))%list
    by (subst delim; simpl render_entries; app_norm).
  rewrite parse_loop_spaces by exact Hlead.
  destruct (list_ascii_of_string (entry_name e)) as [|c name].
  - cbn [app]. rewrite parse_loop_spaces by exact Htrail.
    cbn [parse_loop]. rewrite (delimiter_not_space delim Hdelim).
    destruct (Nat.leb_spec top idx) as [_|]; [reflexivity|lia].
  - apply Forall_cons in Hname as [Hc _].
    destruct (name_char_spec c Hc) as (H1 & _ & _).
    cbn [app parse_loop]. rewrite H1.
    destruct (Nat.leb_spec top idx) as [_|]; [reflexivity|lia].
Qed.

(** The parser on a well-formed declaration, whatever the number of its
    entries: the entries are taken one after the other against the expected
    parameters, and when they are accepted the count decides. *)
Lemma parse_loop_count (E : Env) (dfltIds : list Oid) (top : nat)
      (entries : list decl_entry) (rest : list ascii) (self : Function_)
      (idx : nat) :
  entries <> [] ->
  Forall entry_ok entries ->
  (idx < top)%nat ->
  parse_loop E dfltIds top (render_entries entries ++ rest)%list self idx false ""
  = (self' ← replace_defaults E dfltIds
               (take (top - idx) (map entry_name entries)) idx self;
     if (length entries <? top - idx)%nat
     then Raise (SyntaxError (TooFewParameters top))
     else if (top - idx <? length entries)%nat
          then Raise (SyntaxError (TooManyParameters top))
          else Ok self').
Proof.
  revert self idx. induction entries as [|e es IH]; intros self idx Hne Hok Hidx;
    [contradiction|].
  apply Forall_cons in Hok as [(Hlead & Hname & Htrail) Hok].
  set (delim := match es with [] => ")"%char | _ => ","%char end).
  assert (Hdelim : is_char "," delim || is_char ")" delim = true)
    by (subst delim; destruct es; reflexivity).
  replace (render_entries (e :: es) ++ rest)%list
    with (entry_lead e ++ list_ascii_of_string (entry_name e) ++ entry_trail e
          ++ delim :: (render_entries es ++ rest))%list
    by (subst delim; simpl render_entries; app_norm).
  rewrite parse_loop_spaces by exact Hlead.
  rewrite parse_loop_name by (try exact Hname; lia).
  rewrite parse_loop_trail by (try exact Htrail; exact Hdelim).
  change ("" ++ entry_name e)%string with (entry_name e).
  destruct (top - idx)%nat as [|k] eqn:Hk; [lia|].
  cbn [parse_loop map firstn replace_defaults].
  change (take k (map entry_name es)) with (firstn k (map entry_name es)).
  rewrite (delimiter_not_space delim Hdelim), Hdelim.
  destruct (Nat.leb_spec top idx) as [Hle|_]; [lia|].
  destruct (replace_default E self dfltIds idx (entry_name e)) as [self'|err];
    [rewrite !bind_Ok|rewrite !bind_Raise; reflexivity].
  cbv zeta. destruct es as [|e' es].
  - subst delim. change (is_char ")" ")") with true. cbv iota.
    cbn [map]. rewrite take_nil. cbn [replace_defaults length].
    rewrite bind_Ok.
    destruct (Nat.eqb_spec (S idx) top) as [Heq|Hneq]; cbn [negb].
    + destruct (Nat.ltb_spec 1 (S k)) as [|_]; [lia|].
      destruct (Nat.ltb_spec (S k) 1) as [|_]; [lia|]. reflexivity.
    + destruct (Nat.ltb_spec 1 (S k)) as [_|]; [reflexivity|lia].
  - subst delim. change (is_char ")" ",") with false. cbv iota.
    destruct (Nat.ltb_spec (S idx) top) as [Hlt|Hge].
    + rewrite IH by (discriminate || exact Hok || exact Hlt).
      replace (top - S idx)%nat with k by lia.
      cbn [length].
      destruct (replace_defaults E dfltIds
                  (take k (map entry_name (e' :: es))) (S idx) self')
        as [self''|err]; [|reflexivity].
      rewrite !bind_Ok.
      destruct (Nat.ltb_spec (S (length es)) k);
        destruct (Nat.ltb_spec (S (S (length es))) (S k)); try lia;
        [reflexivity|].
      destruct (Nat.ltb_spec k (S (length es)));
        destruct (Nat.ltb_spec (S k) (S (S (length es)))); try lia;
        reflexivity.
    + rewrite parse_loop_too_many by (discriminate || exact Hok || lia).
      assert (k = 0%nat) as -> by lia.
      rewrite take_0. cbn [replace_defaults length]. rewrite bind_Ok.
      destruct (Nat.ltb_spec (S (S (length es))) 1) as [|_]; [lia|].
      destruct (Nat.ltb_spec 1 (S (S (length es)))) as [_|]; [reflexivity|lia].
Qed.

Lemma Function_init_at_declaration (E : Env) (functionId : Oid)
      (p : Form_pg_proc) (sc : scan_result) (decl : list ascii)
      (self : Function_) :
  pg_proc E functionId = Some p ->
  scan_source (list_ascii_of_string (prosrc p)) = Ok sc ->
  param_decl_text (list_ascii_of_string (prosrc p)) sc = Some decl ->
  (0 < expected_entries E p)%nat ->
  reaches_declaration E p sc self ->
  numParams self = expected_entries E p
  /\ forall e,
       Function_parseParameters E self (proargtypes p) decl = Raise e ->
       Function_init E functionId false = Raise e.
Proof.
  intros Hp Hsc Hdecl Hpos (schemaName & loader & loaded & methodName
                            & Hns & Hloader & Hloaded & Hname & Htypes).
  set (self0 := set_clazz (Some loaded) (set_returnComplex false Function_zero))
    in Htypes.
  unfold Function_init_types in Htypes.
  apply bind_Ok_inv in Htypes as (r & Hret & Hparams).
  destruct (Function_init_return_shape E p self0 r eq_refl Hret) as (Hn & _).
  unfold Function_init_params in Hparams. rewrite Hn in Hparams.
  destruct (Nat.ltb_spec 0 (expected_entries E p)) as [_|]; [|lia].
  apply bind_Ok_inv in Hparams as (params & Hcat & Hself).
  injection Hself as <-. split; [exact Hn|].
  intros e Hparse. unfold Function_init.
  rewrite (getValidTuple_Some _ _ _ _ Hp), bind_Ok, Hsc, bind_Ok.
  rewrite Hns, bind_Ok, Hloader, bind_Ok, Hloaded, bind_Ok, Hname, bind_Ok.
  rewrite Hdecl. fold self0. unfold Function_init_types.
  rewrite Hret, bind_Ok. unfold Function_init_params. rewrite Hn.
  destruct (Nat.ltb_spec 0 (expected_entries E p)) as [_|]; [|lia].
  rewrite Hcat, bind_Ok, Hparse. reflexivity.
Qed.

(** C1, as amended.  For a routine that is not a trigger, with an explicit
    declaration of M entries and at least one parameter to bind: binding is
    run against N' entries, where N' is the catalog's parameter count plus
    one when the routine is a complex-return one (the trailing row writer is
    an entry of the declaration like the others).  When M differs from N'
    binding fails; it succeeds only when M = N'; and the two count errors
    report N' and are raised only for M above, respectively below, N'.
    When binding gets as far as the declaration, the declaration is well
    formed and each of its first min(M, N') entries is accepted for its
    parameter, a mismatch is reported as the syntax error: too few
    parameters for M below N', too many for M above N'. *)
Theorem declared_entries_against_parameters
        (E : Env) (functionId : Oid) (p : Form_pg_proc) (sc : scan_result)
        (decl : list ascii)
  (Hp : pg_proc E functionId = Some p)
  (Hsc : scan_source (list_ascii_of_string (prosrc p)) = Ok sc)
  (Hdecl : param_decl_text (list_ascii_of_string (prosrc p)) sc = Some decl)
  (Hpos : (0 < expected_entries E p)%nat) :
  let r := Function_init E functionId false in
  let M := declared_entries decl in
  let N' := if returns_complex E p then S (pronargs p) else pronargs p in
  (M <> N' -> is_Ok r = false)
  /\ (forall f, r = Ok f -> M = N')
  /\ (forall n, r = Raise (SyntaxError (TooManyParameters n)) ->
        n = N' /\ (N' < M)%nat)
  /\ (forall n, r = Raise (SyntaxError (TooFewParameters n)) ->
        n = N' /\ (M < N')%nat)
  /\ (forall self entries rest self',
        reaches_declaration E p sc self ->
        decl = (render_entries entries ++ rest)%list ->
        entries <> [] ->
        Forall entry_ok entries ->
        replace_defaults E (proargtypes p)
                         (take N' (map entry_name entries)) 0 self = Ok self' ->
        M = length entries
        /\ ((M < N')%nat -> r = Raise (SyntaxError (TooFewParameters N')))
        /\ ((N' < M)%nat -> r = Raise (SyntaxError (TooManyParameters N')))).
Proof.
  intros r M N'.
  pose proof (Function_init_counts E functionId p sc decl Hp Hsc Hdecl Hpos)
    as (Hok & Hmany & Hfew).
  pose proof (expected_entries_complex E p) as Hexp. fold N' in Hexp.
  rewrite Hexp in Hok, Hmany, Hfew.
  fold r M in Hok, Hmany, Hfew.
  split; [|split; [exact Hok|split; [exact Hmany|split; [exact Hfew|]]]].
  { intros Hne. destruct r as [f|e] eqn:Hr; [|reflexivity].
    elim Hne. exact (Hok f eq_refl). }
  intros self entries rest self' Hreach -> Hne Hwf Haccept.
  destruct (Function_init_at_declaration E functionId p sc
              (render_entries entries ++ rest) self Hp Hsc Hdecl Hpos Hreach)
    as (Hn & Hraise).
  rewrite Hexp in Hn.
  assert (HM : M = length entries)
    by (subst M; apply declared_entries_render; assumption).
  assert (Hparse :
            Function_parseParameters E self (proargtypes p)
                                     (render_entries entries ++ rest)
            = if (length entries <? N')%nat
              then Raise (SyntaxError (TooFewParameters N'))
              else if (N' <? length entries)%nat
                   then Raise (SyntaxError (TooManyParameters N'))
                   else Ok self').
  { unfold Function_parseParameters. rewrite Hn.
    rewrite parse_loop_count by (assumption || lia).
    rewrite Nat.sub_0_r, Haccept, bind_Ok. reflexivity. }
  split; [exact HM|]. rewrite HM. split; intros Hlt; apply Hraise;
    rewrite Hparse.
  - destruct (Nat.ltb_spec (length entries) N') as [_|]; [reflexivity|lia].
  - destruct (Nat.ltb_spec (length entries) N') as [|_]; [lia|].
    destruct (Nat.ltb_spec N' (length entries)) as [_|]; [reflexivity|lia].
Qed.

Lemma declared_entries_against_parameters_witness :
  declared_entries (list_ascii_of_string "int)") = 1%nat
  /\ Function_init sample_env 1002 false
     = Raise (SyntaxError (TooFewParameters 2)).
Proof.
  destruct (declared_entries_against_parameters sample_env 1002
              (mkProc "pkg.Rows.make(int)" 2200 1 ROWTYPEOID false [INT4OID])
              (mkScan 0 8 13 (Some 14)) (list_ascii_of_string "int)")
              eq_refl eq_refl eq_refl)
    as (_ & _ & _ & _ & Hdeclared).
  { vm_compute. lia. }
  destruct (Hdeclared
              (mkFunction true 2 (Some [t_int; t_SingleRowWriter])
                          (Some t_boolean) (Some 11%positive) None)
              [mkEntry [] "int" []] []
              (mkFunction true 2 (Some [t_int; t_SingleRowWriter])
                          (Some t_boolean) (Some 11%positive) None))
    as (HM & Hfew & _).
  - exists "public", 1%positive, 11%positive, "make".
    repeat split; vm_compute; reflexivity.
  - reflexivity.
  - discriminate.
  - constructor; [|constructor].
    repeat split; repeat constructor.
  - vm_compute. reflexivity.
  - split; [exact HM|]. apply Hfew. rewrite HM. simpl. lia.
Defined.

(** ** Triggers and routines that return no row *)

(** X6.  A trigger that binds has the fixed trigger shape whatever the
    catalog says about its arguments: one parameter, of the TriggerData
    type, the return type [void] (or the boxed counterpart the registry gives
    it, after the fallback), no complex return; and its source text carries
    no parameter declaration. *)
Theorem trigger_descriptor (E : Env) (functionId : Oid) (f : Function_)
  (Hinit : Function_init E functionId true = Ok f) :
  returnComplex f = false
  /\ numParams f = 1%nat
  /\ (exists void data,
         Type_fromJavaType E InvalidOid "void" = Ok void
         /\ Type_fromJavaType E InvalidOid "org.postgresql.pljava.TriggerData"
            = Ok data
         /\ paramTypes f = Some [data]
         /\ (returnType f = Some void
             \/ (Type_isPrimitive void = true
                 /\ returnType f = Type_getObjectType void)))
  /\ (exists p sc,
         pg_proc E functionId = Some p
         /\ scan_source (list_ascii_of_string (prosrc p)) = Ok sc
         /\ scan_paramDecl sc = None).
Proof.
  unfold Function_init in Hinit.
  apply bind_Ok_inv in Hinit as (p & Hp & Hinit).
  apply bind_Ok_inv in Hinit as (sc & Hsc & Hinit).
  apply bind_Ok_inv in Hinit as (ns & _ & Hinit).
  apply bind_Ok_inv in Hinit as (loader & _ & Hinit).
  apply bind_Ok_inv in Hinit as (loaded & _ & Hinit).
  apply bind_Ok_inv in Hinit as (methodName & _ & Hinit).
  apply bind_Ok_inv in Hinit as (self & Htypes & Hres).
  unfold Function_init_types in Htypes.
  destruct (param_decl_text (list_ascii_of_string (prosrc p)) sc) as [decl|] eqn:Hdecl;
    [discriminate Htypes|].
  apply bind_Ok_inv in Htypes as (void & Hvoid & Htypes).
  apply bind_Ok_inv in Htypes as (data & Hdata & Htypes).
  injection Htypes as <-.
  destruct (Function_init_resolve_shape E methodName _ f Hres)
    as (R1 & R2 & R3 & R4).
  split; [rewrite R1; reflexivity|]. split; [rewrite R2; reflexivity|].
  split.
  - exists void, data. split; [exact Hvoid|]. split; [exact Hdata|].
    split; [rewrite R3; reflexivity|].
    destruct R4 as [R4|(rt & Hself & Hprim & R4)].
    + left. rewrite R4. reflexivity.
    + right. cbn in Hself. injection Hself as <-. auto.
  - exists p, sc. split.
    + unfold PgObject_getValidTuple in Hp. destruct (pg_proc E functionId);
        [injection Hp as ->; reflexivity|discriminate Hp].
    + split; [exact Hsc|]. unfold param_decl_text in Hdecl.
      destruct (scan_paramDecl sc); [discriminate Hdecl|reflexivity].
Qed.

Lemma trigger_descriptor_witness :
  exists f,
    Function_init sample_env 1007 true = Ok f
    /\ returnComplex f = false
    /\ numParams f = 1%nat
    /\ (exists void data,
           Type_fromJavaType sample_env InvalidOid "void" = Ok void
           /\ Type_fromJavaType sample_env InvalidOid
                                "org.postgresql.pljava.TriggerData" = Ok data
           /\ paramTypes f = Some [data]
           /\ (returnType f = Some void
               \/ (Type_isPrimitive void = true
                   /\ returnType f = Type_getObjectType void)))
    /\ (exists p sc,
           pg_proc sample_env 1007 = Some p
           /\ scan_source (list_ascii_of_string (prosrc p)) = Ok sc
           /\ scan_paramDecl sc = None).
Proof.
  eexists. split; [vm_compute; reflexivity|].
  apply (trigger_descriptor sample_env 1007). vm_compute. reflexivity.
Defined.

Lemma Function_init_params_plain (E : Env) (p : Form_pg_proc)
      (paramDecl : option (list ascii)) (self f : Function_) :
  numParams self = pronargs p ->
  Function_init_params E p paramDecl None self = Ok f ->
  same_but_params f self
  /\ (pronargs p = 0%nat -> paramTypes f = None)
  /\ ((0 < pronargs p)%nat ->
      exists cat types,
        catalog_params E (proargtypes p) 0 (pronargs p) = Ok cat
        /\ paramTypes f = Some types
        /\ length types = pronargs p
        /\ (forall i t0, cat !! i = Some t0 ->
              exists t, types !! i = Some t /\ kept_or_replaced t0 t)
        /\ (paramDecl = None -> types = cat)).
Proof.
  intros Hn. unfold Function_init_params. rewrite Hn.
  destruct (Nat.ltb_spec 0 (pronargs p)) as [Hpos|Hzero].
  - intros H. apply bind_Ok_inv in H as (cat & Hcat & H).
    pose proof (catalog_params_length _ _ _ _ _ Hcat) as Hlen.
    destruct paramDecl as [decl|].
    + unfold Function_parseParameters in H.
      destruct (parse_loop_shape _ _ _ _ _ _ _ _ _ cat H eq_refl)
        as (Hsame & types & Htypes & Hlen' & Hall).
      split.
      { eapply same_but_params_trans; [exact Hsame|]. repeat split. }
      split; [lia|]. intros _.
      exists cat, types. split; [exact Hcat|]. split; [exact Htypes|].
      split; [lia|]. split; [|discriminate].
      intros i t0 Hi. destruct (Hall i t0 Hi) as (t & Ht & _ & Hrel). eauto.
    + injection H as <-. split; [repeat split|]. split; [lia|]. intros _.
      exists cat, cat. split; [exact Hcat|]. split; [reflexivity|].
      split; [exact Hlen|]. split; [|reflexivity].
      intros i t0 Hi. exists t0. split; [exact Hi|left; reflexivity].
  - intros H. injection H as <-. split; [repeat split|].
    split; [reflexivity|lia].
Qed.

(** X7.  A routine that is not a trigger and does not return a single
    composite row is bound without the complex-return flag and with exactly
    the catalog's parameters: no row writer is appended, also when it returns
    a set of rows.  Its return type is the result-set provider for a
    set-returning routine and the registered type of the catalog's return
    type otherwise (or the boxed counterpart, after the fallback); without
    parameters there is no parameter array at all. *)
Theorem plain_return_descriptor
        (E : Env) (functionId : Oid) (p : Form_pg_proc) (f : Function_)
  (Hp : pg_proc E functionId = Some p)
  (Hplain : returns_complex E p = false)
  (Hinit : Function_init E functionId false = Ok f) :
  returnComplex f = false
  /\ numParams f = pronargs p
  /\ (exists ret,
         (if proretset p
          then Type_fromJavaType E (prorettype p)
                                 "org.postgresql.pljava.ResultSetProvider"
          else pgType ← PgObject_getValidTuple (pg_type E) (prorettype p) "type";
               Type_fromPgType E (prorettype p) pgType) = Ok ret
         /\ (returnType f = Some ret
             \/ (Type_isPrimitive ret = true
                 /\ returnType f = Type_getObjectType ret)))
  /\ (pronargs p = 0%nat -> paramTypes f = None)
  /\ ((0 < pronargs p)%nat ->
      exists cat types,
        catalog_params E (proargtypes p) 0 (pronargs p) = Ok cat
        /\ paramTypes f = Some types
        /\ length types = pronargs p
        /\ forall i t0, cat !! i = Some t0 ->
             exists t, types !! i = Some t /\ kept_or_replaced t0 t).
Proof.
  unfold Function_init in Hinit.
  rewrite (getValidTuple_Some _ _ _ _ Hp), bind_Ok in Hinit.
  apply bind_Ok_inv in Hinit as (sc & Hsc & Hinit).
  apply bind_Ok_inv in Hinit as (ns & _ & Hinit).
  apply bind_Ok_inv in Hinit as (loader & _ & Hinit).
  apply bind_Ok_inv in Hinit as (loaded & _ & Hinit).
  apply bind_Ok_inv in Hinit as (methodName & _ & Hinit).
  apply bind_Ok_inv in Hinit as (self & Htypes & Hres).
  unfold Function_init_types in Htypes.
  apply bind_Ok_inv in Htypes as (r & Hret & Hpar).
  destruct (Function_init_return_shape E p
              (set_clazz (Some loaded) (set_returnComplex false Function_zero))
              r eq_refl Hret) as (Hn & Hrc & _ & Hshape).
  rewrite Hplain in Hshape, Hrc.
  rewrite expected_entries_complex, Hplain in Hn.
  rewrite Hshape in Hpar.
  destruct (Function_init_params_plain E p _ r.2 self Hn Hpar)
    as ((S1 & S2 & S3 & _) & Hzero & Hpos).
  destruct (Function_init_resolve_shape E methodName self f Hres)
    as (R1 & R2 & R3 & R4).
  split; [congruence|]. split; [congruence|].
  assert (Hrt : exists ret,
             (if proretset p
              then Type_fromJavaType E (prorettype p)
                                     "org.postgresql.pljava.ResultSetProvider"
              else pgType ← PgObject_getValidTuple (pg_type E) (prorettype p) "type";
                   Type_fromPgType E (prorettype p) pgType) = Ok ret
             /\ returnType r.2 = Some ret).
  { unfold Function_init_return in Hret. unfold returns_complex in Hplain.
    destruct (proretset p).
    - apply bind_Ok_inv in Hret as (ret & Hprov & Hret). injection Hret as <-.
      exists ret. split; [exact Hprov|reflexivity].
    - apply bind_Ok_inv in Hret as (pgType & Hpg & Hret).
      assert (Hty : pg_type E (prorettype p) = Some pgType).
      { unfold PgObject_getValidTuple in Hpg.
        destruct (pg_type E (prorettype p)); [injection Hpg as ->; reflexivity
                                             |discriminate Hpg]. }
      rewrite Hty in Hplain. simpl in Hplain. rewrite Hplain in Hret.
      apply bind_Ok_inv in Hret as (ret & Hfrom & Hret). injection Hret as <-.
      exists ret. rewrite Hpg, bind_Ok. split; [exact Hfrom|reflexivity]. }
  destruct Hrt as (ret & Hret_eq & Hret_r).
  split.
  { exists ret. split; [exact Hret_eq|].
    destruct R4 as [R4|(rt & Hself & Hprim & R4)].
    - left. congruence.
    - right. assert (rt = ret) as -> by congruence. auto. }
  split.
  { intros Hz. rewrite R3. exact (Hzero Hz). }
  intros Hgt. destruct (Hpos Hgt) as (cat & types & Hcat & Hty & Hlen & Hall & _).
  exists cat, types. split; [exact Hcat|]. split; [congruence|].
  split; [exact Hlen|exact Hall].
Qed.

Lemma plain_return_descriptor_witness :
  exists f,
    Function_init sample_env 1005 false = Ok f
    /\ returnComplex f = false
    /\ numParams f = 1%nat
    /\ (exists ret,
           (pgType ← PgObject_getValidTuple (pg_type sample_env) INT4OID "type";
            Type_fromPgType sample_env INT4OID pgType) = Ok ret
           /\ (returnType f = Some ret
               \/ (Type_isPrimitive ret = true
                   /\ returnType f = Type_getObjectType ret)))
    /\ (1%nat = 0%nat -> paramTypes f = None)
    /\ ((0 < 1)%nat ->
        exists cat types,
          catalog_params sample_env [INT4OID] 0 1 = Ok cat
          /\ paramTypes f = Some types
          /\ length types = 1%nat
          /\ forall i t0, cat !! i = Some t0 ->
               exists t, types !! i = Some t /\ kept_or_replaced t0 t).
Proof.
  eexists. split; [vm_compute; reflexivity|].
  apply (plain_return_descriptor sample_env 1005
           (mkProc " pkg.Util.boxed " 2200 1 INT4OID false [INT4OID]));
    vm_compute; reflexivity.
Defined.

(** ** Binding on a cache miss *)

Lemma alloc_fresh (M : Memory) :
  ((alloc M).1 ∉ chunks M)
  /\ chunks (alloc M).2 = {[(alloc M).1]} ∪ chunks M
  /\ functions (alloc M).2 = functions M
  /\ s_funcMap (alloc M).2 = s_funcMap M.
Proof.
  unfold alloc. cbn. split; [apply is_fresh|]. repeat split.
Qed.

(** X8.  On a cache miss [Function_getFunction] allocates a descriptor at an
    address that was free, records there what [Function_init] built, maps the
    routine to it and hands it back; nothing that was allocated is released,
    no other descriptor and no other routine's entry changes; the parameter
    array, when there is one, is a second fresh chunk. *)
Theorem getFunction_binds_on_a_miss
        (E : Env) (functionId : Oid) (isTrigger : bool) (M M' : Memory)
        (func : positive)
  (Hmiss : HashMap_getByOid M functionId = None)
  (Hcall : Function_getFunction E functionId isTrigger M = Ok (func, M')) :
  (func ∉ chunks M)
  /\ (chunks M ⊆ chunks M')
  /\ (exists f bp,
         Function_init E functionId isTrigger = Ok f
         /\ functions M' !! func = Some (f, bp)
         /\ (func ∈ chunks M')
         /\ (match paramTypes f with
             | Some _ => (bp ∉ chunks M) /\ (bp ∈ chunks M') /\ bp <> func
             | None => bp = func
             end))
  /\ HashMap_getByOid M' functionId = Some func
  /\ (forall other, other <> functionId ->
        HashMap_getByOid M' other = HashMap_getByOid M other)
  /\ (forall a, a <> func -> functions M' !! a = functions M !! a).
Proof.
  unfold Function_getFunction in Hcall. rewrite Hmiss in Hcall.
  apply bind_Ok_inv in Hcall as ([self M2] & Hcreate & Hins).
  cbn [fst snd] in Hins.
  unfold Function_create in Hcreate.
  destruct (alloc M) as [self0 M1] eqn:Halloc.
  pose proof (alloc_fresh M) as (Hfresh & Hch & Hfn & Hmap).
  rewrite Halloc in Hfresh, Hch, Hfn, Hmap. cbn [fst snd] in *.
  apply bind_Ok_inv in Hcreate as (f & Hinit & Hcreate).
  unfold HashMap_getByOid in *.
  destruct (paramTypes f) as [types|] eqn:Hparams.
  - destruct (alloc M1) as [bp M1'] eqn:Halloc'.
    pose proof (alloc_fresh M1) as (Hfresh' & Hch' & Hfn' & Hmap').
    rewrite Halloc' in Hfresh', Hch', Hfn', Hmap'. cbn [fst snd] in *.
    injection Hcreate as <- <-.
    unfold Function_getFunction_insert, HashMap_putByOid in Hins.
    cbn [s_funcMap chunks functions] in Hins.
    rewrite Hmap', Hmap, Hmiss in Hins. injection Hins as <- <-.
    cbn [s_funcMap chunks functions].
    split; [exact Hfresh|]. split; [rewrite Hch', Hch; set_solver|].
    split.
    { exists f, bp. split; [exact Hinit|]. split; [apply lookup_insert_eq|].
      split; [rewrite Hch', Hch; set_solver|]. rewrite Hparams.
      split; [rewrite Hch in Hfresh'; set_solver|].
      split; [rewrite Hch'; set_solver|].
      rewrite Hch in Hfresh'. set_solver. }
    split; [apply lookup_insert_eq|].
    split; [intros other Hne; apply lookup_insert_ne; congruence|].
    intros a Ha. rewrite lookup_insert_ne by congruence. rewrite Hfn', Hfn.
    reflexivity.
  - injection Hcreate as <- <-.
    unfold Function_getFunction_insert, HashMap_putByOid in Hins.
    cbn [s_funcMap chunks functions] in Hins.
    rewrite Hmap, Hmiss in Hins. injection Hins as <- <-.
    cbn [s_funcMap chunks functions].
    split; [exact Hfresh|]. split; [rewrite Hch; set_solver|].
    split.
    { exists f, self0. split; [exact Hinit|]. split; [apply lookup_insert_eq|].
      split; [rewrite Hch; set_solver|]. rewrite Hparams. reflexivity. }
    split; [apply lookup_insert_eq|].
    split; [intros other Hne; apply lookup_insert_ne; congruence|].
    intros a Ha. rewrite lookup_insert_ne by congruence. rewrite Hfn.
    reflexivity.
Qed.

Lemma getFunction_binds_on_a_miss_witness :
  exists func M',
    Function_getFunction sample_env 1001 false sample_memory = Ok (func, M')
    /\ (func ∉ chunks sample_memory)
    /\ (chunks sample_memory ⊆ chunks M')
    /\ (exists f bp,
           Function_init sample_env 1001 false = Ok f
           /\ functions M' !! func = Some (f, bp)
           /\ (func ∈ chunks M')
           /\ (match paramTypes f with
               | Some _ => (bp ∉ chunks sample_memory) /\ (bp ∈ chunks M')
                           /\ bp <> func
               | None => bp = func
               end))
    /\ HashMap_getByOid M' 1001 = Some func
    /\ (forall other, other <> 1001 ->
          HashMap_getByOid M' other = HashMap_getByOid sample_memory other)
    /\ (forall a, a <> func -> functions M' !! a = functions sample_memory !! a).
Proof.
  destruct (Function_getFunction sample_env 1001 false sample_memory)
    as [[func M']|e] eqn:Hcall; [|vm_compute in Hcall; discriminate Hcall].
  exists func, M'. split; [reflexivity|].
  exact (getFunction_binds_on_a_miss sample_env 1001 false sample_memory M' func
           eq_refl Hcall).
Defined.

Lemma scan_class_and_method_witness :
  let src := (list_ascii_of_string " "
              ++ ("p"%char :: list_ascii_of_string "kg.Util")
              ++ "."%char :: list_ascii_of_string "addOne"
              ++ list_ascii_of_string "  ")%list in
  exists sc,
    scan_source src = Ok sc
    /\ class_name src sc
       = string_of_chars
           (map (fun c => if is_char "." c then "/"%char else c)
                ("p"%char :: list_ascii_of_string "kg.Util"))
    /\ method_name src sc = Ok (string_of_chars (list_ascii_of_string "addOne"))
    /\ param_decl_text src sc = None.
Proof.
  apply (scan_class_and_method
           (list_ascii_of_string " ") (list_ascii_of_string "kg.Util")
           (list_ascii_of_string "addOne") (list_ascii_of_string "  ") "p"%char).
  - repeat constructor.
  - repeat constructor.
  - reflexivity.
  - repeat constructor.
Defined.

Lemma scan_parameter_declaration_witness :
  let src := ([] ++ ("p"%char :: list_ascii_of_string "kg.Rows")
              ++ "."%char :: list_ascii_of_string "make"
              ++ list_ascii_of_string " "
              ++ "("%char :: list_ascii_of_string "int, java.sql.ResultSet"
              ++ ")"%char :: list_ascii_of_string " ")%list in
  exists sc,
    scan_source src = Ok sc
    /\ class_name src sc
       = string_of_chars
           (map (fun c => if is_char "." c then "/"%char else c)
                ("p"%char :: list_ascii_of_string "kg.Rows"))
    /\ method_name src sc = Ok (string_of_chars (list_ascii_of_string "make"))
    /\ param_decl_text src sc
       = Some (list_ascii_of_string "int, java.sql.ResultSet"
               ++ ")"%char :: list_ascii_of_string " ")%list.
Proof.
  apply (scan_parameter_declaration
           [] (list_ascii_of_string "kg.Rows") (list_ascii_of_string "make")
           (list_ascii_of_string " ")
           (list_ascii_of_string "int, java.sql.ResultSet")
           (list_ascii_of_string " ") "p"%char).
  - constructor.
  - repeat constructor.
  - repeat constructor.
  - reflexivity.
  - repeat constructor.
  - repeat constructor.
Defined.

Lemma parseParameters_well_formed_witness :
  Function_parseParameters sample_env
    (mkFunction false 2 (Some [t_int; t_double]) (Some t_int) None None)
    [INT4OID; FLOAT8OID]
    (render_entries [mkEntry [" "%char] "java.lang.Integer" [];
                     mkEntry [" "%char] "double" [" "%char]]
     ++ list_ascii_of_string " trailing")%list
  = replace_defaults sample_env [INT4OID; FLOAT8OID]
      (map entry_name [mkEntry [" "%char] "java.lang.Integer" [];
                       mkEntry [" "%char] "double" [" "%char]])
      0 (mkFunction false 2 (Some [t_int; t_double]) (Some t_int) None None).
Proof.
  apply (parseParameters_well_formed sample_env
           (mkFunction false 2 (Some [t_int; t_double]) (Some t_int) None None)
           [INT4OID; FLOAT8OID]
           [mkEntry [" "%char] "java.lang.Integer" [];
            mkEntry [" "%char] "double" [" "%char]]
           (list_ascii_of_string " trailing")).
  - discriminate.
  - repeat constructor.
  - reflexivity.
Defined.

Lemma declaring_the_defaults_changes_nothing_witness :
  Function_parseParameters sample_env
    (mkFunction false 2 (Some [t_int; t_double]) (Some t_int) None None)
    [INT4OID; FLOAT8OID]
    (render_entries [mkEntry [] "int" []; mkEntry [" "%char] "double" []]
     ++ [])%list
  = Ok (mkFunction false 2 (Some [t_int; t_double]) (Some t_int) None None).
Proof.
  apply (declaring_the_defaults_changes_nothing sample_env
           (mkFunction false 2 (Some [t_int; t_double]) (Some t_int) None None)
           [INT4OID; FLOAT8OID] [t_int; t_double]
           [mkEntry [] "int" []; mkEntry [" "%char] "double" []] []).
  - reflexivity.
  - reflexivity.
  - discriminate.
  - repeat constructor.
  - reflexivity.
Defined.

(** ** Invocation *)

Lemma coerce_args_spec (E : Env) (types : list Type_)
      (fcargs : list (option Datum)) (count idx : nat) (args : list jvalue) :
  coerce_args E types fcargs idx count = Ok args ->
  length args = count
  /\ forall k, (k < count)%nat ->
       exists t a v,
         types !! (idx + k)%nat = Some t
         /\ fcargs !! (idx + k)%nat = Some a
         /\ args !! k = Some v
         /\ match a with
            | None => v = JV_j 0
            | Some d => Type_coerceDatum_arg E t d = Ok v
            end.
Proof.
  revert idx args. induction count as [|count IH]; intros idx args H.
  - injection H as <-. split; [reflexivity|]. intros k Hk. lia.
  - simpl in H.
    apply bind_Ok_inv in H as (t & Ht & H).
    apply bind_Ok_inv in H as (a & Ha & H).
    apply bind_Ok_inv in H as (v & Hv & H).
    apply bind_Ok_inv in H as (rest & Hrest & H). injection H as <-.
    destruct (IH _ _ Hrest) as (Hlen & Hall).
    split; [simpl; lia|].
    intros [|k] Hk.
    + exists t, a, v. rewrite Nat.add_0_r.
      destruct (types !! idx); [injection Ht as ->|discriminate Ht].
      destruct (fcargs !! idx); [injection Ha as ->|discriminate Ha].
      split; [reflexivity|]. split; [reflexivity|]. split; [reflexivity|].
      destruct a; [exact Hv|]. injection Hv as <-. reflexivity.
    + destruct (Hall k ltac:(lia)) as (t' & a' & v' & H1 & H2 & H3 & H4).
      exists t', a', v'. replace (idx + S k)%nat with (S idx + k)%nat by lia.
      repeat split; assumption.
Qed.

(** X9.  What [Function_invoke] hands to the method: one value per call
    argument, made by the parameter type at the same position, the zero word
    for a null argument (no coercer is consulted for it).  In complex-return
    mode the last parameter, the row writer, gets no value from the call and
    its type, not the return type, carries out the invocation. *)
Theorem Function_invoke_arguments
        (E : Env) (self : Function_) (fcargs : list (option Datum))
        (r : Datum * bool)
  (Hcall : Function_invoke E self fcargs = Ok r) :
  let types := default [] (paramTypes self) in
  let top := (numParams self - (if returnComplex self then 1 else 0))%nat in
  exists args invokerType cls m,
    length args = top
    /\ (forall k, (k < top)%nat ->
          exists t a v,
            types !! k = Some t /\ fcargs !! k = Some a /\ args !! k = Some v
            /\ match a with
               | None => v = JV_j 0
               | Some d => Type_coerceDatum_arg E t d = Ok v
               end)
    /\ (if returnComplex self then types !! top = Some invokerType
        else returnType self = Some invokerType)
    /\ clazz self = Some cls /\ method self = Some m
    /\ Type_invoke E invokerType cls m args = Ok r.
Proof.
  intros types top. unfold Function_invoke in Hcall. fold types in Hcall.
  apply bind_Ok_inv in Hcall as (args & Hargs & Hcall).
  apply bind_Ok_inv in Hcall as (invokerType & Hinv & Hcall).
  apply bind_Ok_inv in Hcall as (cls & Hcls & Hcall).
  apply bind_Ok_inv in Hcall as (m & Hm & Hcall).
  assert (Htop : (if returnComplex self then (numParams self - 1)%nat
                  else numParams self) = top).
  { subst top. destruct (returnComplex self); lia. }
  rewrite Htop in Hargs, Hinv.
  destruct (coerce_args_spec E types fcargs top 0 args Hargs) as (Hlen & Hall).
  exists args, invokerType, cls, m.
  split; [exact Hlen|]. split; [exact Hall|]. split.
  { destruct (returnComplex self).
    - destruct (types !! top); [injection Hinv as ->; reflexivity|discriminate Hinv].
    - destruct (returnType self); [injection Hinv as ->; reflexivity|discriminate Hinv]. }
  split.
  { destruct (clazz self); [injection Hcls as ->; reflexivity|discriminate Hcls]. }
  split; [|exact Hcall].
  destruct (method self); [injection Hm as ->; reflexivity|discriminate Hm].
Qed.

Lemma Function_invoke_arguments_witness :
  let types := default [] (paramTypes sample_descriptor) in
  exists args invokerType cls m,
    length args = 1%nat
    /\ (forall k, (k < 1)%nat ->
          exists t a v,
            types !! k = Some t
            /\ [Some (Int32GetDatum 41)] !! k = Some a /\ args !! k = Some v
            /\ match a with
               | None => v = JV_j 0
               | Some d => Type_coerceDatum_arg sample_env t d = Ok v
               end)
    /\ returnType sample_descriptor = Some invokerType
    /\ clazz sample_descriptor = Some cls /\ method sample_descriptor = Some m
    /\ Type_invoke sample_env invokerType cls m args
       = Ok (Int32GetDatum 42, false).
Proof.
  apply (Function_invoke_arguments sample_env sample_descriptor
           [Some (Int32GetDatum 41)] (Int32GetDatum 42, false)).
  vm_compute. reflexivity.
Defined.

(** ** Two-dimensional primitive arrays, managed to native *)

Lemma ARR_OVERHEAD_NONULLS_rows (dim1 : nat) :
  ARR_OVERHEAD_NONULLS dim1 = (16 + 8 * dim1)%nat.
Proof.
  unfold ARR_OVERHEAD_NONULLS, MAXALIGN.
  replace (16 + 2 * 4 * dim1 + 7)%nat with (7 + (2 + dim1) * 8)%nat by lia.
  rewrite Nat.div_add by lia. change (7 / 8)%nat with 0%nat. lia.
Qed.

(** The chunk [create2dArrayType] allocates for at least two rows holds the
    payload and, behind it, 8 bytes for every row beyond the second; [p] is
    the number of elements in 8 bytes. *)
Lemma create2dArrayType_rows {A} (zero : A) (dim1 dim2 elemSize p : nat)
      (elemType : Oid) :
  (2 <= dim1)%nat ->
  (elemSize * p = 8)%nat ->
  create2dArrayType zero dim1 dim2 elemSize elemType false
  = Ok (mkArrayType 2 [dim1; dim2] [1; 1] None elemType
                    (replicate (dim1 * dim2 + p * (dim1 - 2)) zero)).
Proof.
  intros Hrows Hp. unfold create2dArrayType.
  rewrite !ARR_OVERHEAD_NONULLS_rows.
  destruct (Nat.ltb_spec (dim1 * dim2 * elemSize + (16 + 8 * dim1))
                         (16 + 2 * 4 * 2)) as [|_]; [lia|].
  destruct (Nat.ltb_spec (16 + 8 * 2) (16 + 2 * 4 * 2 + 0)) as [|_]; [lia|].
  do 3 f_equal.
  assert (Hes : elemSize <> 0%nat) by (intros ->; discriminate Hp).
  replace (dim1 * dim2 * elemSize + (16 + 8 * dim1) - (16 + 8 * 2))%nat
    with ((dim1 * dim2 + p * (dim1 - 2)) * elemSize)%nat by nia.
  apply Nat.div_mul. exact Hes.
Qed.

(** With a single row the chunk ends 8 bytes before the end of the payload,
    and before the end of the lower bounds when the row is shorter than 8
    bytes. *)
Lemma create2dArrayType_one_row {A} (zero : A) (dim2 elemSize p : nat)
      (elemType : Oid) :
  (elemSize * p = 8)%nat ->
  create2dArrayType zero 1 dim2 elemSize elemType false
  = if (dim2 <? p)%nat
    then Raise (Undefined
                  "ARR_DIMS and ARR_LBOUND stored past the end of the chunk")
    else Ok (mkArrayType 2 [1%nat; dim2] [1; 1] None elemType
                         (replicate (dim2 - p) zero)).
Proof.
  intros Hp. unfold create2dArrayType.
  rewrite !ARR_OVERHEAD_NONULLS_rows.
  assert (Hes : elemSize <> 0%nat) by (intros ->; discriminate Hp).
  destruct (Nat.ltb_spec dim2 p) as [Hlt|Hge].
  - destruct (Nat.ltb_spec (1 * dim2 * elemSize + (16 + 8 * 1))
                           (16 + 2 * 4 * 2)) as [_|]; [reflexivity|nia].
  - destruct (Nat.ltb_spec (1 * dim2 * elemSize + (16 + 8 * 1))
                           (16 + 2 * 4 * 2)) as [|_]; [nia|].
    destruct (Nat.ltb_spec (16 + 8 * 2) (16 + 2 * 4 * 2 + 0)) as [|_]; [lia|].
    do 3 f_equal.
    replace (1 * dim2 * elemSize + (16 + 8 * 1) - (16 + 8 * 2))%nat
      with ((dim2 - p) * elemSize)%nat by nia.
    apply Nat.div_mul. exact Hes.
Qed.

Lemma create2dArrayType_no_row {A} (zero : A) (dim2 elemSize : nat)
      (elemType : Oid) :
  create2dArrayType zero 0 dim2 elemSize elemType false
  = Raise (Undefined "ARR_DIMS and ARR_LBOUND stored past the end of the chunk").
Proof. reflexivity. Qed.

Section RowsToPayload.
Context {A : Type}.
Variable getRegion : option jobject -> nat -> result (list A).
Variable mk : list A -> jobject.
Hypothesis getRegion_mk : forall row n, getRegion (Some (mk row)) n = region row n.

Lemma region_take (row : list A) (n : nat) :
  (n <= length row)%nat -> region row n = Ok (take n row).
Proof.
  intros H. unfold region. destruct (Nat.leb_spec n (length row)); [reflexivity|lia].
Qed.

Lemma row_element (cls : string) (rows : list (list A)) (i : nat) (row : list A) :
  rows !! i = Some row ->
  JNI_getObjectArrayElement
    (Some (JObjectArray cls (map (fun r => Some (mk r)) rows))) i
  = Ok (Some (mk row)).
Proof.
  intros H. unfold JNI_getObjectArrayElement.
  change (map (fun r => Some (mk r)) rows) with ((fun r => Some (mk r)) <$> rows).
  rewrite list_lookup_fmap, H. reflexivity.
Qed.

Lemma take_0_rows (rows : list (list A)) : concat (map (take 0) rows) = [].
Proof. induction rows as [|r rows IH]; [reflexivity|exact IH]. Qed.

(** Writing a row into the payload changes nothing before it and nothing
    behind it. *)
Lemma splice_take (data src : list A) (start m : nat) :
  length src = m ->
  (start + m <= length data)%nat ->
  take (start + m) (take start data ++ src ++ drop (start + m) data)
  = (take start data ++ src)%list.
Proof.
  intros <- Hlen. rewrite app_assoc. apply take_app_length'.
  rewrite length_app, length_take. lia.
Qed.

Lemma splice_drop (data src : list A) (start m k : nat) :
  length src = m ->
  (start + m <= length data)%nat ->
  (start + m <= k)%nat ->
  drop k (take start data ++ src ++ drop (start + m) data) = drop k data.
Proof.
  intros <- Hlen Hk. rewrite app_assoc.
  rewrite drop_app_ge by (rewrite length_app, length_take; lia).
  rewrite length_app, length_take, drop_drop.
  f_equal. lia.
Qed.

Lemma copy_remaining_rows (cls : string) (rows : list (list A)) (dim2 : nat)
      (count i : nat) (v : ArrayType A) :
  (i + count = length rows)%nat ->
  Forall (fun row => dim2 <= length row)%nat (drop i rows) ->
  (length rows * dim2 <= length (ARR_DATA v))%nat ->
  copy_remaining getRegion
    (Some (JObjectArray cls (map (fun r => Some (mk r)) rows))) dim2 i count v
  = Ok (mkArrayType (ARR_NDIM v) (ARR_DIMS v) (ARR_LBOUND v) (ARR_NULLBITMAP v)
          (ARR_ELEMTYPE v)
          (take (i * dim2) (ARR_DATA v)
           ++ concat (map (take dim2) (drop i rows))
           ++ drop (length rows * dim2) (ARR_DATA v))%list).
Proof.
  revert i v. induction count as [|count IH]; intros i v Hi Hrows Hlen.
  - rewrite Nat.add_0_r in Hi. subst i. rewrite drop_all. simpl.
    rewrite take_drop. destruct v; reflexivity.
  - destruct (lookup_lt_is_Some_2 rows i) as [row Hrow]; [lia|].
    rewrite (drop_S _ _ _ Hrow) in Hrows |- *.
    apply Forall_cons in Hrows as [Hshort Hrows].
    cbn [copy_remaining].
    rewrite (row_element cls rows i row Hrow), unchecked_Ok.
    rewrite getRegion_mk, (region_take row dim2 Hshort), unchecked_Ok.
    assert (Hbound : (i * dim2 + dim2 <= length rows * dim2)%nat) by nia.
    assert (Hsrc : length (take dim2 row) = dim2) by (rewrite length_take; lia).
    rewrite set_data_in_range by (rewrite Hsrc; lia).
    rewrite bind_Ok, IH; [|lia|exact Hrows|].
    + cbn [ARR_NDIM ARR_DIMS ARR_LBOUND ARR_NULLBITMAP ARR_ELEMTYPE ARR_DATA].
      f_equal. f_equal. rewrite Hsrc.
      replace (S i * dim2)%nat with (i * dim2 + dim2)%nat by lia.
      rewrite (splice_take _ _ _ dim2 Hsrc) by lia.
      rewrite (splice_drop _ _ _ dim2 _ Hsrc) by lia.
      cbn [map concat]. rewrite <- !app_assoc. reflexivity.
    + cbn [ARR_DATA]. rewrite !length_app, length_take, length_drop, Hsrc.
      lia.
Qed.
End RowsToPayload.

Section RowsToPayload2.
Context {A : Type}.
Variable getRegion : option jobject -> nat -> result (list A).
Variable mk : list A -> jobject.
Hypothesis getRegion_mk : forall row n, getRegion (Some (mk row)) n = region row n.

(** The two copy steps of the 2-D branch, the first row and then the
    others, into a payload with [pad] elements to spare. *)
Lemma rows_to_payload (cls : string) (zero : A) (elemType : Oid)
      (r0 : list A) (rest : list (list A)) (pad : nat) :
  Forall (fun row => length r0 <= length row)%nat rest ->
  let rows := r0 :: rest in
  let v := mkArrayType 2 [length rows; length r0] [1; 1] None elemType
             (replicate (length rows * length r0 + pad) zero) in
  unchecked (getRegion (Some (mk r0)) (length r0)) [] (fun r =>
    v0 ← set_data v 0 r;
    v' ← copy_remaining getRegion
           (Some (JObjectArray cls (map (fun r => Some (mk r)) rows)))
           (length r0) 1 (length rows - 1) v0;
    Ok (Some v'))
  = Ok (Some (mkArrayType 2 [length rows; length r0] [1; 1] None elemType
                (concat (map (take (length r0)) rows)
                 ++ replicate pad zero)%list)).
Proof.
  intros Hrows rows v.
  rewrite getRegion_mk, (region_take r0 (length r0)), unchecked_Ok by lia.
  rewrite take_ge by lia.
  assert (Hcap : length (ARR_DATA v) = (length rows * length r0 + pad)%nat)
    by apply length_replicate.
  assert (Hfirst : (length r0 <= length rows * length r0)%nat)
    by (subst rows; simpl; lia).
  rewrite set_data_in_range by (rewrite Hcap; lia).
  rewrite bind_Ok.
  rewrite (copy_remaining_rows getRegion mk getRegion_mk cls rows (length r0)).
  - rewrite bind_Ok. f_equal. f_equal.
    cbn [ARR_NDIM ARR_DIMS ARR_LBOUND ARR_NULLBITMAP ARR_ELEMTYPE ARR_DATA].
    f_equal. rewrite Nat.mul_1_l, Nat.add_0_l, take_0, app_nil_l.
    rewrite take_app_length.
    rewrite drop_app_ge by lia.
    rewrite drop_drop.
    replace (length r0 + (length rows * length r0 - length r0))%nat
      with (length rows * length r0)%nat by lia.
    subst v. cbn [ARR_DATA]. rewrite drop_replicate.
    replace (length rows * length r0 + pad - length rows * length r0)%nat
      with pad by lia.
    subst rows. cbn [drop map concat]. rewrite drop_0, take_ge by lia.
    rewrite <- app_assoc. reflexivity.
  - subst rows. simpl. lia.
  - subst rows. cbn [drop]. rewrite drop_0. exact Hrows.
  - cbn [ARR_DATA]. rewrite Nat.add_0_l, take_0, app_nil_l.
    rewrite length_app, length_drop, Hcap. lia.
Qed.
End RowsToPayload2.

Lemma float_region (row : list jfloat) (n : nat) :
  JNI_getFloatArrayRegion (Some (JFloatArray row)) n = region row n.
Proof. reflexivity. Qed.

Lemma double_region (row : list jdouble) (n : nat) :
  JNI_getDoubleArrayRegion (Some (JDoubleArray row)) n = region row n.
Proof. reflexivity. Qed.

Lemma floatArray_coerceObject_rows (r0 r1 : list jfloat)
      (rest : list (list jfloat)) :
  Forall (fun row => length r0 <= length row)%nat (r1 :: rest) ->
  _floatArray_coerceObject (Some (rows_of_floats (r0 :: r1 :: rest)))
  = Ok (Some (mkArrayType 2 [length (r0 :: r1 :: rest); length r0] [1; 1] None
                          FLOAT4OID
                          (concat (map (take (length r0)) (r0 :: r1 :: rest))
                           ++ replicate (2 * length rest) float_of_0)%list)).
Proof.
  intros Hrows. unfold _floatArray_coerceObject, rows_of_floats.
  cbn [PgObject_getClassName JNI_getArrayLength]. rewrite bind_Ok.
  change (char_is "[[F" 1 "[") with true.
  change (char_is "[[F" 2 "[") with false. cbn [negb].
  rewrite (row_element JFloatArray "[[F" (r0 :: r1 :: rest) 0 r0 eq_refl).
  rewrite unchecked_Ok.
  cbn [JNI_getArrayLength]. rewrite !bind_Ok. cbn [fst snd]. rewrite length_map.
  rewrite (create2dArrayType_rows float_of_0 _ _ 4 2) by (simpl; lia).
  rewrite bind_Ok.
  replace (2 * (length (r0 :: r1 :: rest) - 2))%nat with (2 * length rest)%nat
    by (simpl; lia).
  destruct (Nat.ltb_spec 0 (length r0)) as [Hpos|Hzero].
  - exact (rows_to_payload JNI_getFloatArrayRegion JFloatArray float_region
             "[[F" float_of_0 FLOAT4OID r0 (r1 :: rest) (2 * length rest) Hrows).
  - assert (Hlen : length r0 = 0%nat) by lia. rewrite Hlen.
    rewrite Nat.mul_0_r, take_0_rows. reflexivity.
Qed.

Lemma doubleArray_coerceObject_rows (r0 r1 : list jdouble)
      (rest : list (list jdouble)) :
  Forall (fun row => length r0 <= length row)%nat (r1 :: rest) ->
  _doubleArray_coerceObject (Some (rows_of_doubles (r0 :: r1 :: rest)))
  = Ok (Some (mkArrayType 2 [length (r0 :: r1 :: rest); length r0] [1; 1] None
                          FLOAT8OID
                          (concat (map (take (length r0)) (r0 :: r1 :: rest))
                           ++ replicate (length rest) float_of_0)%list)).
Proof.
  intros Hrows. unfold _doubleArray_coerceObject, rows_of_doubles.
  cbn [PgObject_getClassName JNI_getArrayLength]. rewrite bind_Ok.
  change (char_is "[[D" 1 "[") with true.
  change (char_is "[[D" 2 "[") with false. cbn [negb].
  rewrite (row_element JDoubleArray "[[D" (r0 :: r1 :: rest) 0 r0 eq_refl).
  rewrite unchecked_Ok.
  cbn [JNI_getArrayLength]. rewrite bind_Ok, length_map.
  rewrite (create2dArrayType_rows float_of_0 _ _ 8 1) by (simpl; lia).
  rewrite bind_Ok.
  replace (1 * (length (r0 :: r1 :: rest) - 2))%nat with (length rest)
    by (simpl; lia).
  exact (rows_to_payload JNI_getDoubleArrayRegion JDoubleArray double_region
           "[[D" float_of_0 FLOAT8OID r0 (r1 :: rest) (length rest) Hrows).
Qed.



(** ** A single row, a null first row *)

Lemma floatArray_coerceObject_one_row (r0 : list jfloat) :
  _floatArray_coerceObject (Some (rows_of_floats [r0]))
  = Raise (Undefined
             (if (length r0 <? 2)%nat
              then "ARR_DIMS and ARR_LBOUND stored past the end of the chunk"
              else "write past the end of the array's chunk")).
Proof.
  unfold _floatArray_coerceObject, rows_of_floats.
  cbn [PgObject_getClassName JNI_getArrayLength length map]. rewrite bind_Ok.
  change (char_is "[[F" 1 "[") with true.
  change (char_is "[[F" 2 "[") with false. cbn [negb].
  cbn [JNI_getObjectArrayElement lookup list_lookup unchecked
       JNI_getArrayLength].
  rewrite !bind_Ok. cbn [fst snd].
  rewrite (create2dArrayType_one_row float_of_0 _ 4 2) by reflexivity.
  destruct (Nat.ltb_spec (length r0) 2) as [Hlt|Hge]; [reflexivity|].
  rewrite bind_Ok.
  destruct (Nat.ltb_spec 0 (length r0)) as [_|]; [|lia].
  rewrite float_region, region_take, unchecked_Ok by lia.
  rewrite set_data_past_the_end; [reflexivity|].
  cbn [ARR_DATA]. rewrite length_replicate, length_take. lia.
Qed.

Lemma doubleArray_coerceObject_one_row (r0 : list jdouble) :
  _doubleArray_coerceObject (Some (rows_of_doubles [r0]))
  = Raise (Undefined
             (if (length r0 <? 1)%nat
              then "ARR_DIMS and ARR_LBOUND stored past the end of the chunk"
              else "write past the end of the array's chunk")).
Proof.
  unfold _doubleArray_coerceObject, rows_of_doubles.
  cbn [PgObject_getClassName JNI_getArrayLength length map]. rewrite bind_Ok.
  change (char_is "[[D" 1 "[") with true.
  change (char_is "[[D" 2 "[") with false. cbn [negb].
  cbn [JNI_getObjectArrayElement lookup list_lookup unchecked
       JNI_getArrayLength].
  rewrite !bind_Ok.
  rewrite (create2dArrayType_one_row float_of_0 _ 8 1) by reflexivity.
  destruct (Nat.ltb_spec (length r0) 1) as [Hlt|Hge]; [reflexivity|].
  rewrite bind_Ok.
  rewrite double_region, region_take, unchecked_Ok by lia.
  rewrite set_data_past_the_end; [reflexivity|].
  cbn [ARR_DATA]. rewrite length_replicate, length_take. lia.
Qed.

(** X14.  Managed to native, a [float[][]] or [double[][]] of exactly one
    row gets a chunk 8 bytes too small for the array laid out in it: the
    stores of the lower bounds leave the chunk when the row is shorter than
    8 bytes, the copy of the row does otherwise.  The same goes for the
    1 x 0 array the float coercer makes when the first row is null, whatever
    the other rows hold; the double coercer has no test for a null first row
    and asks it for its length. *)
Theorem single_row_leaves_its_chunk :
  (forall r0 : list jfloat,
      _floatArray_coerceObject (Some (rows_of_floats [r0]))
      = Raise (Undefined
                 (if (length r0 <? 2)%nat
                  then "ARR_DIMS and ARR_LBOUND stored past the end of the chunk"
                  else "write past the end of the array's chunk")))
  /\ (forall r0 : list jdouble,
         _doubleArray_coerceObject (Some (rows_of_doubles [r0]))
         = Raise (Undefined
                    (if (length r0 <? 1)%nat
                     then "ARR_DIMS and ARR_LBOUND stored past the end of the chunk"
                     else "write past the end of the array's chunk")))
  /\ (forall rest,
         _floatArray_coerceObject (Some (JObjectArray "[[F" (None :: rest)))
         = Raise (Undefined
                    "ARR_DIMS and ARR_LBOUND stored past the end of the chunk"))
  /\ (forall rest,
         _doubleArray_coerceObject (Some (JObjectArray "[[D" (None :: rest)))
         = Raise (Undefined "JNI_getArrayLength")).
Proof.
  split; [exact floatArray_coerceObject_one_row|].
  split; [exact doubleArray_coerceObject_one_row|].
  split; intros rest; reflexivity.
Qed.

(** ** Round trips of arrays without null bitmap *)

Lemma copy_rows_spec {A} (data : list A) (n dim2 nc : nat) :
  (nc + n * dim2 <= length data)%nat ->
  exists rs,
    copy_rows data n dim2 nc = Ok rs
    /\ length rs = n
    /\ Forall (fun r => length r = dim2) rs
    /\ concat rs = take (n * dim2) (drop nc data).
Proof.
  revert nc. induction n as [|n IH]; intros nc Hlen.
  - exists []. repeat split. constructor.
  - destruct (IH (nc + dim2)%nat) as (rs & Hrs & Hn & Hall & Hcat); [lia|].
    exists (take dim2 (drop nc data) :: rs).
    cbn [copy_rows]. unfold payload_region.
    destruct (Nat.leb_spec (nc + dim2) (length data)) as [_|Hgt]; [|lia].
    rewrite bind_Ok, Hrs, bind_Ok.
    split; [reflexivity|]. split; [simpl; lia|]. split.
    + constructor; [|exact Hall]. rewrite length_take, length_drop. lia.
    + cbn [concat]. rewrite Hcat.
      rewrite <- (drop_drop data dim2 nc).
      replace (S n * dim2)%nat with (dim2 + n * dim2)%nat by lia.
      apply take_take_drop.
Qed.

Lemma take_rows_same {A} (rs : list (list A)) (dim2 : nat) :
  Forall (fun r => length r = dim2) rs -> map (take dim2) rs = rs.
Proof.
  induction 1 as [|r rs Hr _ IH]; [reflexivity|].
  simpl. rewrite IH, take_ge by lia. reflexivity.
Qed.

Lemma doubleArray_coerceObject_1d (elems : list jdouble) :
  _doubleArray_coerceObject (Some (JDoubleArray elems))
  = Ok (Some (mkArrayType 1 [length elems] [1] None FLOAT8OID elems)).
Proof.
  unfold _doubleArray_coerceObject. cbn [PgObject_getClassName JNI_getArrayLength].
  rewrite bind_Ok. change (char_is "[D" 1 "[") with false. cbn [negb].
  unfold JNI_getDoubleArrayRegion, region.
  rewrite Nat.leb_refl, firstn_all. cbn [unchecked].
  rewrite set_data_all by (cbn [createArrayType ARR_DATA];
                           apply length_replicate).
  rewrite bind_Ok. reflexivity.
Qed.

(** X12.  The trip of a native float array without null bitmap to the
    managed side and back keeps its items in their order and resets every
    lower bound to 1.  An array that does not have exactly two dimensions
    comes back as the 1-D array of all its items.  An array of two
    dimensions and at least two rows comes back with its two extents, its
    items followed by 8 bytes of zeros for every row beyond the second.
    With two dimensions and a single row the way back leaves its chunk. *)
Theorem float_round_trip_without_nulls :
  (forall v : ArrayType jfloat,
      ARR_NDIM v <> 2%nat ->
      ARR_NULLBITMAP v = None ->
      let n := ArrayGetNItems (ARR_NDIM v) (ARR_DIMS v) in
      (n <= length (ARR_DATA v))%nat ->
      (o ← _floatArray_coerceDatum v; _floatArray_coerceObject (Some o))
      = Ok (Some (mkArrayType 1 [n] [1] None FLOAT4OID (take n (ARR_DATA v)))))
  /\ (forall (v : ArrayType jfloat) (dim1 dim2 : nat),
         ARR_NDIM v = 2%nat ->
         ARR_DIMS v !! 0%nat = Some dim1 ->
         ARR_DIMS v !! 1%nat = Some dim2 ->
         ARR_NULLBITMAP v = None ->
         (dim1 * dim2 <= length (ARR_DATA v))%nat ->
         (2 <= dim1)%nat ->
         (o ← _floatArray_coerceDatum v; _floatArray_coerceObject (Some o))
         = Ok (Some (mkArrayType 2 [dim1; dim2] [1; 1] None FLOAT4OID
                       (take (dim1 * dim2) (ARR_DATA v)
                        ++ replicate (2 * (dim1 - 2)) float_of_0)%list)))
  /\ (forall (v : ArrayType jfloat) (dim2 : nat),
         ARR_NDIM v = 2%nat ->
         ARR_DIMS v !! 0%nat = Some 1%nat ->
         ARR_DIMS v !! 1%nat = Some dim2 ->
         ARR_NULLBITMAP v = None ->
         (dim2 <= length (ARR_DATA v))%nat ->
         exists what,
           (o ← _floatArray_coerceDatum v; _floatArray_coerceObject (Some o))
           = Raise (Undefined what)).
Proof.
  split; [|split].
  - intros v Hdim Hbm n Hlen.
    destruct (floatArray_coerceDatum_flat v Hdim) as [_ Hflat].
    rewrite (Hflat Hbm Hlen), bind_Ok, floatArray_coerceObject_1d.
    fold n. rewrite length_take. do 4 f_equal. lia.
  - intros v dim1 dim2 Hnd H0 H1 Hbm Hlen Hrows.
    destruct (copy_rows_spec (ARR_DATA v) dim1 dim2 0)
      as (rs & Hrs & Hn & Hall & Hcat); [lia|].
    unfold _floatArray_coerceDatum, ARR_HASNULL, dim_at.
    rewrite Hnd, H0, H1, Hbm. cbn [Nat.eqb negb].
    rewrite !bind_Ok, Hrs, bind_Ok.
    destruct rs as [|r0 [|r1 rest]]; [simpl in Hn; lia|simpl in Hn; lia|].
    apply Forall_cons in Hall as Hall'. destruct Hall' as [Hr0 Hrest].
    rewrite bind_Ok, floatArray_coerceObject_rows.
    + rewrite (take_rows_same (r0 :: r1 :: rest) (length r0)), Hcat, Hn, Hr0.
      * rewrite drop_0. do 5 f_equal. simpl in Hn. lia.
      * rewrite Hr0. exact Hall.
    + eapply Forall_impl; [exact Hrest|]. intros r Hr. simpl in Hr. lia.
  - intros v dim2 Hnd H0 H1 Hbm Hlen.
    destruct (copy_rows_spec (ARR_DATA v) 1 dim2 0)
      as (rs & Hrs & Hn & Hall & Hcat); [lia|].
    unfold _floatArray_coerceDatum, ARR_HASNULL, dim_at.
    rewrite Hnd, H0, H1, Hbm. cbn [Nat.eqb negb].
    rewrite !bind_Ok, Hrs, bind_Ok.
    destruct rs as [|r0 [|r1 rest]]; [discriminate Hn| |discriminate Hn].
    rewrite bind_Ok, floatArray_coerceObject_one_row. eexists. reflexivity.
Qed.

(** X13.  The trip of a native double array without null bitmap to the
    managed side and back keeps its items in their order and resets every
    lower bound to 1.  An array that does not have exactly two dimensions
    comes back as the 1-D array of all its items.  An array of two
    dimensions and at least two rows comes back with its two extents, its
    items followed by 8 bytes of zeros for every row beyond the second.
    With two dimensions and a single row the way back leaves its chunk. *)
Theorem double_round_trip_without_nulls :
  (forall v : ArrayType jdouble,
      ARR_NDIM v <> 2%nat ->
      ARR_NULLBITMAP v = None ->
      let n := ArrayGetNItems (ARR_NDIM v) (ARR_DIMS v) in
      (n <= length (ARR_DATA v))%nat ->
      (o ← _doubleArray_coerceDatum v; _doubleArray_coerceObject (Some o))
      = Ok (Some (mkArrayType 1 [n] [1] None FLOAT8OID (take n (ARR_DATA v)))))
  /\ (forall (v : ArrayType jdouble) (dim1 dim2 : nat),
         ARR_NDIM v = 2%nat ->
         ARR_DIMS v !! 0%nat = Some dim1 ->
         ARR_DIMS v !! 1%nat = Some dim2 ->
         ARR_NULLBITMAP v = None ->
         (dim1 * dim2 <= length (ARR_DATA v))%nat ->
         (2 <= dim1)%nat ->
         (o ← _doubleArray_coerceDatum v; _doubleArray_coerceObject (Some o))
         = Ok (Some (mkArrayType 2 [dim1; dim2] [1; 1] None FLOAT8OID
                       (take (dim1 * dim2) (ARR_DATA v)
                        ++ replicate (dim1 - 2) float_of_0)%list)))
  /\ (forall (v : ArrayType jdouble) (dim2 : nat),
         ARR_NDIM v = 2%nat ->
         ARR_DIMS v !! 0%nat = Some 1%nat ->
         ARR_DIMS v !! 1%nat = Some dim2 ->
         ARR_NULLBITMAP v = None ->
         (dim2 <= length (ARR_DATA v))%nat ->
         exists what,
           (o ← _doubleArray_coerceDatum v; _doubleArray_coerceObject (Some o))
           = Raise (Undefined what)).
Proof.
  split; [|split].
  - intros v Hdim Hbm n Hlen.
    rewrite (doubleArray_coerceDatum_flat_no_nulls v Hdim Hbm Hlen).
    rewrite bind_Ok, doubleArray_coerceObject_1d.
    fold n. rewrite length_take. do 4 f_equal. lia.
  - intros v dim1 dim2 Hnd H0 H1 Hbm Hlen Hrows.
    destruct (copy_rows_spec (ARR_DATA v) dim1 dim2 0)
      as (rs & Hrs & Hn & Hall & Hcat); [lia|].
    unfold _doubleArray_coerceDatum, ARR_HASNULL, dim_at.
    rewrite Hnd, H0, H1, Hbm. cbn [Nat.eqb negb].
    rewrite !bind_Ok, Hrs, bind_Ok.
    destruct rs as [|r0 [|r1 rest]]; [simpl in Hn; lia|simpl in Hn; lia|].
    apply Forall_cons in Hall as Hall'. destruct Hall' as [Hr0 Hrest].
    rewrite bind_Ok, doubleArray_coerceObject_rows.
    + rewrite (take_rows_same (r0 :: r1 :: rest) (length r0)), Hcat, Hn, Hr0.
      * rewrite drop_0. do 5 f_equal. simpl in Hn. lia.
      * rewrite Hr0. exact Hall.
    + eapply Forall_impl; [exact Hrest|]. intros r Hr. simpl in Hr. lia.
  - intros v dim2 Hnd H0 H1 Hbm Hlen.
    destruct (copy_rows_spec (ARR_DATA v) 1 dim2 0)
      as (rs & Hrs & Hn & Hall & Hcat); [lia|].
    unfold _doubleArray_coerceDatum, ARR_HASNULL, dim_at.
    rewrite Hnd, H0, H1, Hbm. cbn [Nat.eqb negb].
    rewrite !bind_Ok, Hrs, bind_Ok.
    destruct rs as [|r0 [|r1 rest]]; [discriminate Hn| |discriminate Hn].
    rewrite bind_Ok, doubleArray_coerceObject_one_row. eexists. reflexivity.
Qed.

Lemma single_row_leaves_its_chunk_witness :
  _floatArray_coerceObject (Some (rows_of_floats [[f_1; f_2; f_1]]))
  = Raise (Undefined "write past the end of the array's chunk")
  /\ _doubleArray_coerceObject (Some (rows_of_doubles [[]]))
     = Raise (Undefined
                "ARR_DIMS and ARR_LBOUND stored past the end of the chunk")
  /\ _floatArray_coerceObject
       (Some (JObjectArray "[[F" [None; Some (JFloatArray [f_1])]))
     = Raise (Undefined
                "ARR_DIMS and ARR_LBOUND stored past the end of the chunk").
Proof.
  split; [exact (proj1 single_row_leaves_its_chunk [f_1; f_2; f_1])|].
  split; [exact (proj1 (proj2 single_row_leaves_its_chunk) [])|].
  exact (proj1 (proj2 (proj2 single_row_leaves_its_chunk))
           [Some (JFloatArray [f_1])]).
Defined.

Lemma float_round_trip_without_nulls_witness :
  (o ← _floatArray_coerceDatum
         (mkArrayType 1 [3%nat] [0] None FLOAT4OID [f_1; f_2; f_1]);
   _floatArray_coerceObject (Some o))
  = Ok (Some (mkArrayType 1 [3%nat] [1] None FLOAT4OID [f_1; f_2; f_1]))
  /\ (o ← _floatArray_coerceDatum
            (mkArrayType 2 [3%nat; 2%nat] [0; 5] None FLOAT4OID
                         [f_1; f_2; f_2; f_1; f_1; f_1]);
      _floatArray_coerceObject (Some o))
     = Ok (Some (mkArrayType 2 [3%nat; 2%nat] [1; 1] None FLOAT4OID
                   [f_1; f_2; f_2; f_1; f_1; f_1; float_of_0; float_of_0])).
Proof.
  split.
  - apply (proj1 float_round_trip_without_nulls
             (mkArrayType 1 [3%nat] [0] None FLOAT4OID [f_1; f_2; f_1])).
    + discriminate.
    + reflexivity.
    + simpl. lia.
  - apply (proj1 (proj2 float_round_trip_without_nulls)
             (mkArrayType 2 [3%nat; 2%nat] [0; 5] None FLOAT4OID
                          [f_1; f_2; f_2; f_1; f_1; f_1]) 3%nat 2%nat).
    + reflexivity.
    + reflexivity.
    + reflexivity.
    + reflexivity.
    + simpl. lia.
    + lia.
Defined.

Lemma double_round_trip_without_nulls_witness :
  (o ← _doubleArray_coerceDatum
         (mkArrayType 1 [3%nat] [0] None FLOAT8OID [f_1; f_2; f_1]);
   _doubleArray_coerceObject (Some o))
  = Ok (Some (mkArrayType 1 [3%nat] [1] None FLOAT8OID [f_1; f_2; f_1]))
  /\ (o ← _doubleArray_coerceDatum
            (mkArrayType 2 [3%nat; 2%nat] [0; 5] None FLOAT8OID
                         [f_1; f_2; f_2; f_1; f_1; f_1]);
      _doubleArray_coerceObject (Some o))
     = Ok (Some (mkArrayType 2 [3%nat; 2%nat] [1; 1] None FLOAT8OID
                   [f_1; f_2; f_2; f_1; f_1; f_1; float_of_0])).
Proof.
  split.
  - apply (proj1 double_round_trip_without_nulls
             (mkArrayType 1 [3%nat] [0] None FLOAT8OID [f_1; f_2; f_1])).
    + discriminate.
    + reflexivity.
    + simpl. lia.
  - apply (proj1 (proj2 double_round_trip_without_nulls)
             (mkArrayType 2 [3%nat; 2%nat] [0; 5] None FLOAT8OID
                          [f_1; f_2; f_2; f_1; f_1; f_1]) 3%nat 2%nat).
    + reflexivity.
    + reflexivity.
    + reflexivity.
    + reflexivity.
    + simpl. lia.
    + lia.
Defined.

(** ** Object arrays, managed to native *)

Section ObjectArraySlots.
Context {D : Type}.
Variable datum_0 : D.
Variable elemType : ElemType D.
Variable construct_md_array :
  list D -> list bool -> nat -> list nat -> list Z -> Oid -> ArrayType D.

Lemma collect_slots_mapM (cls : string) (objs : list (option jobject))
      (count idx : nat) :
  (idx + count <= length objs)%nat ->
  collect_slots datum_0 elemType (Some (JObjectArray cls objs)) idx count
  = mapM (coerce_slot datum_0 elemType) (take count (drop idx objs)).
Proof.
  revert idx. induction count as [|count IH]; intros idx Hlen; [reflexivity|].
  destruct (lookup_lt_is_Some_2 objs idx) as [ob Hob]; [lia|].
  rewrite (drop_S _ _ _ Hob). cbn [collect_slots firstn mapM].
  unfold JNI_getObjectArrayElement at 1. rewrite Hob, unchecked_Ok.
  destruct (coerce_slot datum_0 elemType ob) as [s|e]; [|reflexivity].
  rewrite !bind_Ok, IH by lia. reflexivity.
Qed.

(** X15.  For a one-dimensional managed array [_Array_coerceObject]
    assembles every slot in order, a null slot as the zero [Datum] flagged
    null and any other through the element type's coercer, under one extent,
    the length of the array; the first slot that fails to coerce ends the
    call with its error.  The lower bound it then passes to the engine's
    array construction is read through a pointer to a variable whose block
    has ended.  For an array of rows, two ints are stored into a chunk of two
    bytes before any slot is looked at. *)
Theorem Array_coerceObject_slots :
  (forall (cls : string) (objs : list (option jobject)),
      char_is cls 1 "[" = false ->
      Array_coerceObject_arguments datum_0 elemType
                                   (Some (JObjectArray cls objs))
      = (slots ← mapM (coerce_slot datum_0 elemType) objs;
         Ok (1%nat, [length objs], after_its_block [1], slots))
      /\ _Array_coerceObject datum_0 elemType construct_md_array
                             (Some (JObjectArray cls objs))
         = (slots ← mapM (coerce_slot datum_0 elemType) objs;
            Raise (Undefined "object read after its lifetime has ended")))
  /\ (forall (cls : string) (first : jobject)
             (rest : list (option jobject)) (dim2 : nat),
         char_is cls 1 "[" = true ->
         JNI_getArrayLength (Some first) = Ok dim2 ->
         _Array_coerceObject datum_0 elemType construct_md_array
                             (Some (JObjectArray cls (Some first :: rest)))
         = Raise (Undefined "ints stored past the end of a palloc chunk")).
Proof.
  split.
  - intros cls objs Hcls.
    assert (Hargs :
              Array_coerceObject_arguments datum_0 elemType
                                           (Some (JObjectArray cls objs))
              = (slots ← mapM (coerce_slot datum_0 elemType) objs;
                 Ok (1%nat, [length objs], after_its_block [1], slots))).
    { unfold Array_coerceObject_arguments.
      cbn [PgObject_getClassName JNI_getArrayLength]. rewrite Hcls, !bind_Ok.
      cbn [Nat.eqb]. rewrite Nat.mul_1_r.
      rewrite collect_slots_mapM by lia. rewrite drop_0, take_ge by lia.
      reflexivity. }
    split; [exact Hargs|].
    unfold _Array_coerceObject. rewrite Hargs.
    destruct (mapM (coerce_slot datum_0 elemType) objs) as [slots|e];
      reflexivity.
  - intros cls first rest dim2 Hcls Hlen.
    unfold _Array_coerceObject, Array_coerceObject_arguments.
    cbn [PgObject_getClassName]. rewrite Hcls.
    cbn [JNI_getObjectArrayElement lookup list_lookup unchecked].
    change (JNI_getArrayLength (Some (JObjectArray cls (Some first :: rest))))
      with (@Ok nat (length (Some first :: rest))).
    rewrite bind_Ok, Hlen, bind_Ok. reflexivity.
Qed.
End ObjectArraySlots.

Lemma Array_coerceObject_slots_witness :
  (Array_coerceObject_arguments Datum_0 Integer_elemType
     (Some (JObjectArray "[Ljava.lang.Integer;"
              [Some (JObject "java.lang.Integer" (J_int 7)); None]))
   = (slots ← mapM (coerce_slot Datum_0 Integer_elemType)
                 [Some (JObject "java.lang.Integer" (J_int 7)); None];
      Ok (1%nat,
          [length [Some (JObject "java.lang.Integer" (J_int 7)); None]],
          after_its_block [1], slots))
   /\ _Array_coerceObject Datum_0 Integer_elemType sample_construct_md_array
        (Some (JObjectArray "[Ljava.lang.Integer;"
                 [Some (JObject "java.lang.Integer" (J_int 7)); None]))
      = (slots ← mapM (coerce_slot Datum_0 Integer_elemType)
                    [Some (JObject "java.lang.Integer" (J_int 7)); None];
         Raise (Undefined "object read after its lifetime has ended")))
  /\ _Array_coerceObject Datum_0 Integer_elemType sample_construct_md_array
       (Some (JObjectArray "[[Ljava.lang.Integer;"
                [Some (JObjectArray "[Ljava.lang.Integer;" [None; None]);
                 None]))
     = Raise (Undefined "ints stored past the end of a palloc chunk").
Proof.
  split.
  - apply (proj1 (Array_coerceObject_slots Datum_0 Integer_elemType
                    sample_construct_md_array)).
    reflexivity.
  - apply (proj2 (Array_coerceObject_slots Datum_0 Integer_elemType
                    sample_construct_md_array) "[[Ljava.lang.Integer;"
                 (JObjectArray "[Ljava.lang.Integer;" [None; None])
                 [None] 2%nat).
    + reflexivity.
    + reflexivity.
Defined.

(** ** Array descriptors *)

(** X18.  With native arrays disabled, the array descriptor
    [Array_fromOid2] builds over an element type that has a boxed counterpart
    gets as its own boxed counterpart the array descriptor over the boxed
    element type, for the same type identifier; the primitive array may then
    always replace that boxed array, and the boxed array may replace the
    primitive one exactly when the boxed element type may replace the
    primitive element type.  With native arrays enabled the array descriptor
    has no boxed counterpart, and it may replace another array type exactly
    when its element type may replace the other's element type. *)
Theorem primitive_array_and_its_boxed_array
        (a : positive) (arrayTypeId : Oid) (elem boxed : Type_)
  (Hboxed : Type_getObjectType elem = Some boxed) :
  (let arr := Array_fromOid2 false a arrayTypeId elem in
   let barr := Array_fromOid2 false (Pos.succ a) arrayTypeId boxed in
   Type_getObjectType arr = Some barr
   /\ Type_getElementType arr = Some elem
   /\ Type_getElementType barr = Some boxed
   /\ typeId arr = typeId barr
   /\ (arrays_have_elements elem = true ->
       _Array_canReplaceType arr barr = Ok true)
   /\ _Array_canReplaceType barr arr = Type_canReplaceType boxed elem)
  /\ (let arr := Array_fromOid2 true a arrayTypeId elem in
      Type_getObjectType arr = None
      /\ Type_getElementType arr = Some elem
      /\ forall other oe,
           Type_getElementType other = Some oe ->
           _Array_canReplaceType arr other = Type_canReplaceType elem oe).
Proof.
  split.
  - intros arr barr.
    assert (Harr : arr = mkType a (m_class arr) arrayTypeId (Some elem) (Some barr)).
    { subst arr barr. destruct elem as [ea ecls eid eelem eobj].
      cbn in Hboxed. subst eobj. reflexivity. }
    assert (Hbarr : t_addr barr = Pos.succ a
                    /\ Type_getElementType barr = Some boxed
                    /\ typeId barr = arrayTypeId
                    /\ forall x, Type_getObjectType barr = Some x ->
                                 t_addr x = Pos.succ (Pos.succ a)).
    { subst barr. destruct boxed as [ba bcls bid belem bobj].
      split; [reflexivity|]. split; [reflexivity|]. split; [reflexivity|].
      intros x. cbn. destruct bobj as [bb|]; [|discriminate].
      intros Hx. injection Hx as <-. destruct bb; reflexivity. }
    destruct Hbarr as (Haddr & Hbelem & Hbid & Hbobj).
    split; [rewrite Harr; reflexivity|].
    split; [rewrite Harr; reflexivity|].
    split; [exact Hbelem|].
    split; [rewrite Hbid, Harr; reflexivity|].
    split.
    + intros Hwf. unfold _Array_canReplaceType, Array_canReplaceType_body.
      rewrite Hbelem. rewrite Harr at 1. cbn [Type_getElementType elementType].
      destruct (Type_canReplaceType_defined elem boxed Hwf) as [b Hb].
      rewrite Hb, bind_Ok. destruct b; [reflexivity|].
      rewrite Harr. cbn [Type_getObjectType objectType Type_is].
      rewrite Pos.eqb_refl. reflexivity.
    + unfold _Array_canReplaceType, Array_canReplaceType_body.
      rewrite Hbelem. rewrite Harr at 1. cbn [Type_getElementType elementType].
      destruct (Type_canReplaceType boxed elem) as [[|]|e]; try reflexivity.
      rewrite bind_Ok. f_equal.
      destruct (Type_getObjectType barr) as [x|] eqn:Hx; [|reflexivity].
      cbn [Type_is]. rewrite (Hbobj x eq_refl), Harr. cbn [t_addr].
      apply Pos.eqb_neq. lia.
  - intros arr.
    assert (Harr : arr = mkType a (m_class arr) arrayTypeId (Some elem) None).
    { subst arr. destruct elem as [ea ecls eid eelem eobj].
      cbn. destruct eobj; reflexivity. }
    split; [rewrite Harr; reflexivity|].
    split; [rewrite Harr; reflexivity|].
    intros other oe Hoe.
    unfold _Array_canReplaceType, Array_canReplaceType_body.
    rewrite Hoe. rewrite Harr at 1. cbn [Type_getElementType elementType].
    destruct (Type_canReplaceType elem oe) as [[|]|e]; try reflexivity.
    rewrite bind_Ok, Harr. reflexivity.
Qed.

Lemma primitive_array_and_its_boxed_array_witness :
  (let arr := Array_fromOid2 false 100 1007 t_int in
   let barr := Array_fromOid2 false (Pos.succ 100) 1007 t_Integer in
   Type_getObjectType arr = Some barr
   /\ Type_getElementType arr = Some t_int
   /\ Type_getElementType barr = Some t_Integer
   /\ typeId arr = typeId barr
   /\ (arrays_have_elements t_int = true ->
       _Array_canReplaceType arr barr = Ok true)
   /\ _Array_canReplaceType barr arr = Type_canReplaceType t_Integer t_int)
  /\ (let arr := Array_fromOid2 true 100 1007 t_int in
      Type_getObjectType arr = None
      /\ Type_getElementType arr = Some t_int
      /\ forall other oe,
           Type_getElementType other = Some oe ->
           _Array_canReplaceType arr other = Type_canReplaceType t_int oe).
Proof.
  apply (primitive_array_and_its_boxed_array 100 1007 t_int t_Integer).
  reflexivity.
Defined.

(** ** One flag of a null bitmap *)

(** X19.  [arraySetNull] with an offset inside the bitmap succeeds, keeps the
    bitmap's length and leaves the flag of every other element as it was. *)
Theorem arraySetNull_touches_one_flag (bm : list Z) (offset : Z) (flag : bool) :
  0 <= offset < 8 * Z.of_nat (length bm) ->
  exists bm',
    arraySetNull (Some bm) offset flag = Ok (Some bm')
    /\ length bm' = length bm
    /\ forall offset', 0 <= offset' < 8 * Z.of_nat (length bm) ->
         offset' <> offset ->
         arrayIsNull (Some bm') offset' = arrayIsNull (Some bm) offset'.
Proof.
  intros Hr.
  assert (Hset : exists bm', arraySetNull (Some bm) offset flag = Ok (Some bm')
                             /\ length bm' = length bm).
  { assert (Hq : Z.quot offset 8 = offset / 8) by (apply Z.quot_div_nonneg; lia).
    assert (Hpos : 0 <= offset / 8) by (apply Z.div_pos; lia).
    assert (Hi : (Z.to_nat (offset / 8) < length bm)%nat).
    { assert (offset / 8 < Z.of_nat (length bm))
        by (apply Z.div_lt_upper_bound; lia). lia. }
    destruct (lookup_lt_is_Some_2 bm _ Hi) as [b Hb].
    unfold arraySetNull. rewrite bit_mask_nonneg, bind_Ok by lia.
    unfold byte_at. rewrite Hq.
    destruct (Z.ltb_spec (offset / 8) 0) as [|_]; [lia|].
    rewrite Hb, bind_Ok. eexists. split; [reflexivity|].
    apply length_insert. }
  destruct Hset as (bm' & Hset & Hlen). exists bm'.
  split; [exact Hset|]. split; [exact Hlen|].
  intros offset' Hr' Hne.
  exact (arraySetNull_other_offsets bm bm' offset offset' flag Hr Hr' Hne Hset).
Qed.

Lemma arraySetNull_touches_one_flag_witness :
  exists bm',
    arraySetNull (Some [255; 0]) 9 true = Ok (Some bm')
    /\ length bm' = 2%nat
    /\ forall offset', 0 <= offset' < 16 -> offset' <> 9 ->
         arrayIsNull (Some bm') offset' = arrayIsNull (Some [255; 0]) offset'.
Proof.
  apply (arraySetNull_touches_one_flag [255; 0] 9 true). simpl. lia.
Defined.

(** ** The static initializer of [ModelConstants] *)

Lemma jint_shl1_small (i : nat) :
  Z.of_nat i < 2 ^ 30 -> jint_wrap (Z.shiftl (Z.of_nat i) 1) = Z.of_nat (2 * i).
Proof.
  intros Hi. rewrite Z.shiftl_mul_pow2 by lia. unfold jint_wrap.
  rewrite Z.mod_small by lia. lia.
Qed.

Lemma checked_spec (pre tail : list Z) (i : nat) :
  length pre = (2 * i)%nat ->
  Z.of_nat i < 2 ^ 30 ->
  checked (mkIntBuffer (pre ++ tail) (length pre)) (Z.of_nat i)
  = match tail with
    | x :: v :: tail' =>
        if x =? Z.of_nat i
        then Ok (v, mkIntBuffer (pre ++ tail) (length pre + 2))
        else Raise ConstantsError
    | _ => Raise ConstantsError
    end.
Proof.
  intros Hpre Hi. unfold checked. cbn [ib_position ib_content].
  rewrite (jint_shl1_small i Hi), Hpre, Z.eqb_refl. cbn [negb].
  unfold IntBuffer_get. cbn [ib_position ib_content].
  rewrite <- Hpre.
  destruct tail as [|x tail].
  - rewrite lookup_ge_None_2 by (rewrite length_app; simpl; lia). reflexivity.
  - rewrite list_lookup_middle by reflexivity.
    rewrite (Z.eqb_sym (Z.of_nat i) x). cbn [ib_content ib_position].
    destruct tail as [|v tail].
    + rewrite lookup_ge_None_2 by (rewrite length_app; simpl; lia).
      destruct (x =? Z.of_nat i); reflexivity.
    + destruct (x =? Z.of_nat i); [|reflexivity]. cbn [negb].
      replace (pre ++ x :: v :: tail)%list with ((pre ++ [x]) ++ v :: tail)%list
        by (rewrite <- app_assoc; reflexivity).
      rewrite list_lookup_middle by (rewrite length_app; simpl; lia).
      do 2 f_equal. f_equal. lia.
Qed.

Lemma read_statics_spec (n i : nat) (pre tail : list Z) (vals : list Z)
      (b' : IntBuffer) :
  length pre = (2 * i)%nat ->
  Z.of_nat (i + n) <= 2 ^ 30 ->
  read_statics (map Z.of_nat (seq i n)) (mkIntBuffer (pre ++ tail) (length pre))
  = Ok (vals, b')
  <-> length vals = n
      /\ (exists rest, tail = (paired i vals ++ rest)%list)
      /\ b' = mkIntBuffer (pre ++ tail) (length pre + 2 * n).
Proof.
  revert i pre tail vals b'. induction n as [|n IH]; intros i pre tail vals b' Hpre Hi.
  - cbn [seq map read_statics]. rewrite Nat.add_0_r. split.
    + intros H. injection H as <- <-. split; [reflexivity|].
      split; [exists tail; reflexivity|reflexivity].
    + intros (Hlen & _ & ->). destruct vals; [reflexivity|discriminate Hlen].
  - cbn [seq map read_statics]. rewrite (checked_spec pre tail i Hpre) by lia.
    destruct tail as [|x [|v tail]].
    + rewrite bind_Raise. split; [discriminate|].
      intros (Hlen & (rest & Hrest) & _). destruct vals; discriminate.
    + rewrite bind_Raise. split; [discriminate|].
      intros (Hlen & (rest & Hrest) & _). destruct vals; discriminate.
    + destruct (Z.eqb_spec x (Z.of_nat i)) as [->|Hne].
      * rewrite bind_Ok. cbn [fst snd].
        replace (pre ++ Z.of_nat i :: v :: tail)%list
          with ((pre ++ [Z.of_nat i; v]) ++ tail)%list
          by (rewrite <- app_assoc; reflexivity).
        replace (length pre + 2)%nat with (length (pre ++ [Z.of_nat i; v])%list)
          by (rewrite length_app; reflexivity).
        split.
        -- intros H. apply bind_Ok_inv in H as ([vs b2] & Hrs & H).
           cbn [fst snd] in H. injection H as <- <-.
           apply IH in Hrs as (Hlen & (rest & Hrest) & Hb);
             [|rewrite length_app; simpl; lia|lia].
           split; [simpl; lia|]. split.
           ++ exists rest. simpl. rewrite Hrest. reflexivity.
           ++ rewrite Hb. f_equal. rewrite length_app. simpl length. lia.
        -- intros (Hlen & (rest & Hrest) & Hb).
           destruct vals as [|v' vs]; [discriminate Hlen|].
           simpl in Hrest. injection Hrest as <- Hrest.
           assert (Hrs : read_statics (map Z.of_nat (seq (S i) n))
                           (mkIntBuffer ((pre ++ [Z.of_nat i; v]) ++ tail)
                              (length (pre ++ [Z.of_nat i; v])%list))
                         = Ok (vs, b')).
           { apply IH; [rewrite length_app; simpl; lia|lia|].
             split; [simpl in Hlen; lia|]. split; [exists rest; exact Hrest|].
             rewrite Hb. f_equal. rewrite length_app. simpl length. lia. }
           rewrite Hrs, bind_Ok. reflexivity.
      * rewrite bind_Raise. split; [discriminate|].
        intros (Hlen & (rest & Hrest) & _). destruct vals as [|v' vs];
          [discriminate Hlen|]. simpl in Hrest. injection Hrest as Hx _.
        contradiction.
Qed.

Lemma paired_app (i : nat) (l1 l2 : list Z) :
  paired i (l1 ++ l2) = (paired i l1 ++ paired (i + length l1) l2)%list.
Proof.
  revert i. induction l1 as [|v l1 IH]; intros i.
  - simpl. rewrite Nat.add_0_r. reflexivity.
  - simpl. rewrite IH. do 3 f_equal. f_equal. lia.
Qed.

Lemma paired_length (i : nat) (l : list Z) :
  length (paired i l) = (2 * length l)%nat.
Proof. revert i. induction l as [|v l IH]; intros i; simpl; [|rewrite IH]; lia. Qed.

Lemma checked_at (pre tail : list Z) (i pos : nat) :
  pos = length pre ->
  pos = (2 * i)%nat ->
  Z.of_nat i < 2 ^ 30 ->
  checked (mkIntBuffer (pre ++ tail) pos) (Z.of_nat i)
  = match tail with
    | x :: v :: tail' =>
        if x =? Z.of_nat i
        then Ok (v, mkIntBuffer (pre ++ tail) (pos + 2))
        else Raise ConstantsError
    | _ => Raise ConstantsError
    end.
Proof. intros -> Hpre Hi. apply checked_spec; assumption. Qed.

Lemma read_statics_at (n i pos : nat) (pre tail : list Z) (vals : list Z)
      (b' : IntBuffer) :
  pos = length pre ->
  pos = (2 * i)%nat ->
  Z.of_nat (i + n) <= 2 ^ 30 ->
  read_statics (map Z.of_nat (seq i n)) (mkIntBuffer (pre ++ tail) pos)
  = Ok (vals, b')
  <-> length vals = n
      /\ (exists rest, tail = (paired i vals ++ rest)%list)
      /\ b' = mkIntBuffer (pre ++ tail) (pos + 2 * n).
Proof. intros -> Hpre Hi. apply read_statics_spec; assumption. Qed.

Lemma statics_before_seq :
  statics_before_NAMEDATALEN = map Z.of_nat (seq 0 7).
Proof. reflexivity. Qed.

Lemma statics_after_seq :
  statics_after_NAMEDATALEN = map Z.of_nat (seq 8 58).
Proof. reflexivity. Qed.

(** X20.  The static initializer of [ModelConstants] succeeds exactly when the
    native array is the 66 (index, value) pairs in the order of the indices
    and nothing else, and, with assertions enabled, the value of
    [NAMEDATALEN] fits a [short]; the statics then hold these values,
    [NAMEDATALEN] cut to a [short]. *)
Theorem clinit_checks_the_layout (assertions : bool) (buf out : list Z) :
  ModelConstants_clinit assertions (mkIntBuffer buf 0) = Ok out
  <-> exists vals,
        length vals = 66%nat
        /\ buf = paired 0 vals
        /\ out = <[7%nat := to_short (nth 7 vals 0)]> vals
        /\ (assertions = true -> to_short (nth 7 vals 0) = nth 7 vals 0).
Proof.
  unfold ModelConstants_clinit.
  rewrite statics_before_seq, statics_after_seq.
  change IDX_NAMEDATALEN with (Z.of_nat 7).
  split.
  - intros H.
    apply bind_Ok_inv in H as ([v1 b1] & H1 & H). cbn [fst snd] in H.
    apply (read_statics_at 7 0 0 [] buf v1 b1 eq_refl eq_refl) in H1
      as (Hl1 & (rest1 & Hbuf) & Hb1); [|lia].
    apply bind_Ok_inv in H as ([n b2] & Hn & H). cbn [fst snd] in H.
    subst b1. change ([] ++ buf)%list with buf in Hn.
    assert (Hp1 : length (paired 0 v1) = 14%nat) by (rewrite paired_length; lia).
    rewrite Hbuf in Hn.
    rewrite (checked_at (paired 0 v1) rest1 7) in Hn
      by (rewrite ?Hp1; simpl; lia).
    destruct rest1 as [|x [|n' rest2]]; try discriminate Hn.
    destruct (Z.eqb_spec x (Z.of_nat 7)) as [->|]; [|discriminate Hn].
    injection Hn as <- <-.
    destruct (assertions && negb (n' =? to_short n')) eqn:Hassert;
      [discriminate H|].
    apply bind_Ok_inv in H as ([v2 b3] & H2 & H). cbn [fst snd] in H.
    replace (paired 0 v1 ++ Z.of_nat 7 :: n' :: rest2)%list
      with ((paired 0 v1 ++ [Z.of_nat 7; n']) ++ rest2)%list in H2
      by (rewrite <- app_assoc; reflexivity).
    apply read_statics_at in H2 as (Hl2 & (rest3 & Hrest2) & Hb3);
      [|rewrite length_app, Hp1; reflexivity|reflexivity|lia].
    subst b3. unfold IntBuffer_remaining in H. cbn [ib_content ib_position] in H.
    match type of H with
    | context [negb ?c] => destruct c eqn:Hrem; [|discriminate H]
    end.
    apply Nat.eqb_eq in Hrem. cbn [negb] in H. injection H as <-.
    assert (rest3 = []) as ->.
    { rewrite Hrest2, !length_app, !paired_length, Hl1, Hl2 in Hrem.
      destruct rest3; [reflexivity|simpl length in Hrem; lia]. }
    rewrite app_nil_r in Hrest2. subst rest2 buf.
    exists (v1 ++ n' :: v2)%list.
    assert (Hnth : nth 7 (v1 ++ n' :: v2)%list 0 = n').
    { rewrite app_nth2 by lia. rewrite Hl1. reflexivity. }
    rewrite Hnth. repeat split.
    + rewrite length_app. simpl. lia.
    + rewrite paired_app. simpl. rewrite Hl1. reflexivity.
    + rewrite insert_app_r_alt by lia. rewrite Hl1. reflexivity.
    + intros ->. cbn [andb] in Hassert.
      apply negb_false_iff, Z.eqb_eq in Hassert. symmetry. exact Hassert.
  - intros (vals & Hlen & -> & -> & Hassert).
    set (v1 := take 7 vals). set (n := nth 7 vals 0). set (v2 := drop 8 vals).
    assert (Hvals : vals = (v1 ++ n :: v2)%list).
    { subst v1 n v2. clear Hassert.
      do 67 (destruct vals as [|? vals]; try discriminate Hlen).
      reflexivity. }
    assert (Hl1 : length v1 = 7%nat) by (subst v1; rewrite length_take; lia).
    assert (Hl2 : length v2 = 58%nat) by (subst v2; rewrite length_drop; lia).
    clearbody v1 n v2. subst vals.
    assert (Hnth : nth 7 (v1 ++ n :: v2)%list 0 = n).
    { rewrite app_nth2 by lia. rewrite Hl1. reflexivity. }
    rewrite Hnth in *.
    rewrite paired_app. cbn [paired]. rewrite Hl1. cbn [Nat.add].
    assert (Hp1 : length (paired 0 v1) = 14%nat) by (rewrite paired_length; lia).
    assert (H1 : read_statics (map Z.of_nat (seq 0 7))
                   (mkIntBuffer
                      ([] ++ paired 0 v1 ++ Z.of_nat 7 :: n :: paired 8 v2) 0)
                 = Ok (v1, mkIntBuffer
                             ([] ++ paired 0 v1 ++ Z.of_nat 7 :: n :: paired 8 v2)
                             (0 + 2 * 7))).
    { apply (read_statics_at 7 0 0 [] _ v1 _ eq_refl eq_refl); [lia|].
      split; [exact Hl1|]. split; [eexists; reflexivity|reflexivity]. }
    change ([] ++ paired 0 v1 ++ Z.of_nat 7 :: n :: paired 8 v2)%list
      with (paired 0 v1 ++ Z.of_nat 7 :: n :: paired 8 v2)%list in H1.
    rewrite H1, bind_Ok. cbn [fst snd].
    rewrite (checked_at (paired 0 v1) _ 7) by (rewrite ?Hp1; simpl; lia).
    rewrite Z.eqb_refl, bind_Ok. cbn [fst snd].
    replace (assertions && negb (n =? to_short n)) with false.
    2:{ destruct assertions; [|reflexivity]. rewrite (Hassert eq_refl).
        rewrite Z.eqb_refl. reflexivity. }
    replace (paired 0 v1 ++ Z.of_nat 7 :: n :: paired 8 v2)%list
      with ((paired 0 v1 ++ [Z.of_nat 7; n]) ++ paired 8 v2)%list
      by (rewrite <- app_assoc; reflexivity).
    assert (H2 : read_statics (map Z.of_nat (seq 8 58))
                   (mkIntBuffer
                      ((paired 0 v1 ++ [Z.of_nat 7; n]) ++ paired 8 v2)
                      (0 + 2 * 7 + 2))
                 = Ok (v2, mkIntBuffer
                             ((paired 0 v1 ++ [Z.of_nat 7; n]) ++ paired 8 v2)
                             (0 + 2 * 7 + 2 + 2 * 58))).
    { apply read_statics_at;
        [rewrite length_app, Hp1; reflexivity|reflexivity|lia|].
      split; [exact Hl2|]. split; [exists []; rewrite app_nil_r; reflexivity|].
      reflexivity. }
    rewrite H2, bind_Ok. cbn [fst snd].
    unfold IntBuffer_remaining. cbn [ib_content ib_position].
    replace (_ - _ =? 0)%nat with true.
    2:{ symmetry. apply Nat.eqb_eq. rewrite !length_app, !paired_length.
        simpl length. lia. }
    cbn [negb]. f_equal.
    rewrite insert_app_r_alt by lia. rewrite Hl1. reflexivity.
Qed.

(** ** Time differences *)

Lemma signed_result_in_range (w z : Z) :
  - 2 ^ (w - 1) <= z < 2 ^ (w - 1) -> signed_result w z = Ok z.
Proof.
  intros Hz. unfold signed_result.
  replace (- 2 ^ (w - 1) <=? z) with true by (symmetry; apply Z.leb_le; lia).
  replace (z <? 2 ^ (w - 1)) with true by (symmetry; apply Z.ltb_lt; lia).
  reflexivity.
Qed.

(** X21.  [sub_timespec] on two normalised times (nanoseconds from 0 to
    999999999) whose seconds differ by a value of [time_t]: the difference
    it stores is the exact one, counted in nanoseconds, its nanoseconds stay
    below one second in absolute value, and its two fields never have
    opposite signs. *)
Theorem sub_timespec_normalised (wsec wnsec : Z) (t1 t2 : timespec) :
  32 <= wnsec ->
  0 <= tv_nsec t1 < NS_PER_SECOND ->
  0 <= tv_nsec t2 < NS_PER_SECOND ->
  - 2 ^ (wsec - 1) <= tv_sec t2 - tv_sec t1 < 2 ^ (wsec - 1) ->
  exists td,
    sub_timespec wsec wnsec t1 t2 = Ok td
    /\ tv_sec td * NS_PER_SECOND + tv_nsec td
       = (tv_sec t2 * NS_PER_SECOND + tv_nsec t2)
         - (tv_sec t1 * NS_PER_SECOND + tv_nsec t1)
    /\ - NS_PER_SECOND < tv_nsec td < NS_PER_SECOND
    /\ (0 < tv_sec td -> 0 <= tv_nsec td)
    /\ (tv_sec td < 0 -> tv_nsec td <= 0).
Proof.
  intros Hw H1 H2 Hsec. unfold NS_PER_SECOND in *.
  assert (Hlong : 2 ^ 31 <= 2 ^ (wnsec - 1)) by (apply Z.pow_le_mono_r; lia).
  change (2 ^ 31) with 2147483648 in Hlong.
  unfold sub_timespec.
  rewrite (signed_result_in_range wnsec) by lia. rewrite bind_Ok.
  rewrite (signed_result_in_range wsec) by lia. rewrite bind_Ok.
  destruct (Z.ltb_spec 0 (tv_sec t2 - tv_sec t1)) as [Hpos|Hnpos];
    destruct (Z.ltb_spec (tv_nsec t2 - tv_nsec t1) 0) as [Hneg|Hnneg];
    cbn [andb].
  - unfold NS_PER_SECOND.
    rewrite (signed_result_in_range wnsec) by lia. rewrite bind_Ok.
    rewrite (signed_result_in_range wsec) by lia. rewrite bind_Ok.
    eexists. split; [reflexivity|]. cbn [tv_sec tv_nsec]. lia.
  - destruct (Z.ltb_spec (tv_sec t2 - tv_sec t1) 0) as [|_]; [lia|].
    cbn [andb]. eexists. split; [reflexivity|]. cbn [tv_sec tv_nsec]. lia.
  - destruct (Z.ltb_spec (tv_sec t2 - tv_sec t1) 0) as [Hlt|Hge];
      destruct (Z.ltb_spec 0 (tv_nsec t2 - tv_nsec t1)) as [|]; try lia;
      cbn [andb]; eexists; (split; [reflexivity|]); cbn [tv_sec tv_nsec]; lia.
  - destruct (Z.ltb_spec (tv_sec t2 - tv_sec t1) 0) as [Hlt|Hge];
      destruct (Z.ltb_spec 0 (tv_nsec t2 - tv_nsec t1)) as [Hp|Hnp];
      cbn [andb].
    + unfold NS_PER_SECOND.
      rewrite (signed_result_in_range wnsec) by lia. rewrite bind_Ok.
      rewrite (signed_result_in_range wsec) by lia. rewrite bind_Ok.
      eexists. split; [reflexivity|]. cbn [tv_sec tv_nsec]. lia.
    + eexists. split; [reflexivity|]. cbn [tv_sec tv_nsec]. lia.
    + eexists. split; [reflexivity|]. cbn [tv_sec tv_nsec]. lia.
    + eexists. split; [reflexivity|]. cbn [tv_sec tv_nsec]. lia.
Qed.

Lemma sub_timespec_normalised_witness :
  exists td,
    sub_timespec 64 64 (mkTimespec 5 900000000) (mkTimespec 7 100000000) = Ok td
    /\ tv_sec td * NS_PER_SECOND + tv_nsec td
       = (7 * NS_PER_SECOND + 100000000) - (5 * NS_PER_SECOND + 900000000)
    /\ - NS_PER_SECOND < tv_nsec td < NS_PER_SECOND
    /\ (0 < tv_sec td -> 0 <= tv_nsec td)
    /\ (tv_sec td < 0 -> tv_nsec td <= 0).
Proof.
  apply (sub_timespec_normalised 64 64 (mkTimespec 5 900000000)
           (mkTimespec 7 100000000)); unfold NS_PER_SECOND; simpl; lia.
Defined.
